(** * A shallow embedding of the Suno song pipeline (src/main.py)

    The program is sequential glue around two remote services: it submits a
    generation job, polls a status endpoint, digs a URL out of a loosely
    structured JSON response and streams the file to disk.  The embedding
    follows the source function by function:

    - JSON values as an inductive type, objects as association lists in
      insertion order (Python dicts iterate in that order);
    - Python truthiness, [dict.get], [in] and [==] written out;
    - the outside world (network, console, clock, file system) as an explicit
      state threaded through a small state-and-exception monad [M].

    JSON numbers are modelled as integers.  Console output is recorded for the
    messages that mark a control-flow decision; debug dumps and progress bars,
    which never influence control flow, are left out, and so is the
    [content-length] header that only feeds the progress bar.  The file
    system is a map from paths to contents and its operations succeed, except
    for reading a file that is not there.  Whether a JSON decoding error of
    requests counts as a [RequestException] depends on the version of the
    library; the world records which one is installed. *)

From stdpp Require Import base option list strings gmap.
From Stdlib Require Import Ascii ZArith Lia DecimalString.

Local Open Scope string_scope.
Local Open Scope list_scope.
Local Open Scope Z_scope.

(** ** JSON values *)

#[local] Set Warnings "-register-all".

Inductive json : Type :=
| JNull
| JBool (b : bool)
| JNum (n : Z)
| JStr (s : string)
| JArr (items : list json)
| JObj (fields : list (string * json)).

(** Python's [None] is the value JSON [null] decodes to: a function that
    returns [None] returns [JNull] here. *)

(** [bool(v)] *)
Definition truthy (v : json) : bool :=
  match v with
  | JNull => false
  | JBool b => b
  | JNum n => negb (n =? 0)
  | JStr s => negb (String.eqb s "")
  | JArr items => match items with [] => false | _ => true end
  | JObj fields => match fields with [] => false | _ => true end
  end.

(** [key in d] and [d[key]] on the field list of a dict. *)
Fixpoint lookup_key (key : string) (fields : list (string * json)) : option json :=
  match fields with
  | [] => None
  | (k, v) :: rest => if String.eqb k key then Some v else lookup_key key rest
  end.

Definition has_key (key : string) (fields : list (string * json)) : bool :=
  match lookup_key key fields with Some _ => true | None => false end.

(** [d.get(key, default)] on the field list of a dict. *)
Definition get_default (key : string) (default : json) (fields : list (string * json)) : json :=
  match lookup_key key fields with Some v => v | None => default end.

(** [d[key] = v]: replaces the value in place, or appends a new entry. *)
Fixpoint set_item (key : string) (v : json) (fields : list (string * json)) : list (string * json) :=
  match fields with
  | [] => [(key, v)]
  | (k, old) :: rest =>
      if String.eqb k key then (k, v) :: rest else (k, old) :: set_item key v rest
  end.

(** [v == n] for an integer literal [n].  [True == 1] and [False == 0] in
    Python, strings and containers never equal a number. *)
Definition eq_int (v : json) (n : Z) : bool :=
  match v with
  | JNum m => m =? n
  | JBool b => (if b then 1 else 0) =? n
  | _ => false
  end.

(** [v == s] for a string literal [s]. *)
Definition eq_str (v : json) (s : string) : bool :=
  match v with
  | JStr t => String.eqb t s
  | _ => false
  end.

(** [v in [s1, s2, ...]] for a list of string literals. *)
Definition in_strs (v : json) (l : list string) : bool :=
  existsb (eq_str v) l.

Definition is_dict (v : json) : bool :=
  match v with JObj _ => true | _ => false end.

(** ** Response extractor (find_audio_url, find_audio_id) *)

(** [for key in keys: if key in obj and obj[key]: return obj[key]] *)
Fixpoint first_truthy (keys : list string) (fields : list (string * json)) : option json :=
  match keys with
  | [] => None
  | key :: rest =>
      match lookup_key key fields with
      | Some v => if truthy v then Some v else first_truthy rest fields
      | None => first_truthy rest fields
      end
  end.

(** The probe of the conventional [data] sub-object and of
    [data.results[0]].  [Some v] means the function returns [v] here (which
    may be empty: membership is tested, not truthiness); [None] means the
    probe falls through to the recursive search. *)
Definition data_probe (field : string) (fields : list (string * json)) : option json :=
  match lookup_key "data" fields with
  | Some (JObj data) =>
      match lookup_key field data with
      | Some v => Some v
      | None =>
          match lookup_key "results" data with
          | Some (JArr (JObj result :: _)) => lookup_key field result
          | _ => None
          end
      end
  | _ => None
  end.

(** The common body of [find_audio_url] and [find_audio_id]: they differ only
    in the list of top-level candidate keys and in the field probed under
    [data]. *)
Fixpoint find_field (keys : list string) (field : string) (obj : json) : json :=
  match obj with
  | JObj fields =>
      match first_truthy keys fields with
      | Some v => v
      | None =>
          match data_probe field fields with
          | Some v => v
          | None =>
              (fix items (l : list (string * json)) : json :=
                 match l with
                 | [] => JNull
                 | (_, v) :: rest =>
                     let result := find_field keys field v in
                     if truthy result then result else items rest
                 end) fields
          end
      end
  | JArr elements =>
      (fix each (l : list json) : json :=
         match l with
         | [] => JNull
         | item :: rest =>
             let result := find_field keys field item in
             if truthy result then result else each rest
         end) elements
  | _ => JNull
  end.

Definition audio_url_keys : list string :=
  ["audioUrl"; "audio_url"; "url"; "mp3Url"; "streamUrl"].

Definition audio_id_keys : list string := ["audioId"; "audio_id"; "id"].

Definition find_audio_url (obj : json) : json :=
  find_field audio_url_keys "audio_url" obj.

Definition find_audio_id (obj : json) : json :=
  find_field audio_id_keys "audioId" obj.

(** The nested helpers [find_status], [find_url] and [find_task_id]: the
    first listed key that is present wins (no truthiness test on it), then a
    depth-first search that keeps the first truthy result. *)
Fixpoint first_present (keys : list string) (fields : list (string * json)) : option json :=
  match keys with
  | [] => None
  | key :: rest =>
      match lookup_key key fields with
      | Some v => Some v
      | None => first_present rest fields
      end
  end.

Fixpoint find_url (obj : json) (keys : list string) : json :=
  match obj with
  | JObj fields =>
      match first_present keys fields with
      | Some v => v
      | None =>
          (fix items (l : list (string * json)) : json :=
             match l with
             | [] => JNull
             | (_, v) :: rest =>
                 let result := find_url v keys in
                 if truthy result then result else items rest
             end) fields
      end
  | JArr elements =>
      (fix each (l : list json) : json :=
         match l with
         | [] => JNull
         | item :: rest =>
             let result := find_url item keys in
             if truthy result then result else each rest
         end) elements
  | _ => JNull
  end.

Definition find_status (obj : json) : json := find_url obj ["status"].
Definition find_task_id (obj : json) : json := find_url obj ["taskId"].

(** ** Small string library (the [str] methods and [os.path] calls used) *)

(** [str(n)] for an integer. *)
Definition str_of_Z (n : Z) : string := NilZero.string_of_int (Z.to_int n).

(** [s.startswith(p)] *)
Definition startswith (s p : string) : bool := String.prefix p s.

(** [c.isspace()] on the ASCII range. *)
Definition is_space (c : ascii) : bool :=
  let n := nat_of_ascii c in
  ((9 <=? n) && (n <=? 13) || (28 <=? n) && (n <=? 32))%nat.

Fixpoint lstrip (s : string) : string :=
  match s with
  | String c rest => if is_space c then lstrip rest else s
  | EmptyString => EmptyString
  end.

(** [s.rstrip()]: a trailing run of white space is dropped. *)
Fixpoint rstrip (s : string) : string :=
  match s with
  | String c rest =>
      match rstrip rest with
      | EmptyString => if is_space c then EmptyString else String c EmptyString
      | kept => String c kept
      end
  | EmptyString => EmptyString
  end.

(** [s.strip()] *)
Definition strip (s : string) : string := rstrip (lstrip s).

(** [s.split('\n')[0]] and ['\n'.join(s.split('\n')[1:])] *)
Fixpoint first_line (s : string) : string :=
  match s with
  | String c rest => if Ascii.eqb c "010" then EmptyString else String c (first_line rest)
  | EmptyString => EmptyString
  end.

Fixpoint after_first_line (s : string) : string :=
  match s with
  | String c rest => if Ascii.eqb c "010" then rest else after_first_line rest
  | EmptyString => EmptyString
  end.

(** [s.replace("#", "")] *)
Fixpoint remove_hashes (s : string) : string :=
  match s with
  | String c rest =>
      if Ascii.eqb c "#" then remove_hashes rest else String c (remove_hashes rest)
  | EmptyString => EmptyString
  end.

Definition upper (c : ascii) : ascii :=
  let n := nat_of_ascii c in
  if ((97 <=? n) && (n <=? 122))%nat then ascii_of_nat (n - 32) else c.

Definition lower (c : ascii) : ascii :=
  let n := nat_of_ascii c in
  if ((65 <=? n) && (n <=? 90))%nat then ascii_of_nat (n + 32) else c.

Fixpoint map_string (f : ascii -> ascii) (s : string) : string :=
  match s with
  | String c rest => String (f c) (map_string f rest)
  | EmptyString => EmptyString
  end.

(** [s.capitalize()] on ASCII text. *)
Definition capitalize (s : string) : string :=
  match s with
  | String c rest => String (upper c) (map_string lower rest)
  | EmptyString => EmptyString
  end.

(** [os.path.splitext(p)[0]] for POSIX paths: the extension starts at the
    last dot of the last path component, leading dots of that component do
    not count.  [ext_start seen_name s] is [Some n] when the root of [s] has
    [n] characters. *)
Fixpoint last_index (c : ascii) (s : string) (i : nat) : option nat :=
  match s with
  | String d rest =>
      match last_index c rest (S i) with
      | Some j => Some j
      | None => if Ascii.eqb c d then Some i else None
      end
  | EmptyString => None
  end.

Fixpoint all_dots (s : string) : bool :=
  match s with
  | String c rest => Ascii.eqb c "." && all_dots rest
  | EmptyString => true
  end.

Definition splitext_root (p : string) : string :=
  match last_index "." p 0 with
  | None => p
  | Some dot =>
      let name_start :=
        match last_index "/" p 0 with Some sep => S sep | None => O end in
      if (name_start <=? dot)%nat then
        if all_dots (String.substring name_start (dot - name_start) p) then p
        else String.substring 0 dot p
      else p
  end.

(** ** The outside world *)

Definition SUNO_API_BASE_URL : string := "https://apibox.erweima.ai/api/v1".

Inductive kind := Audio | Video.

(** The exception classes that the program can meet.  [JSONDecodeError] is
    the class that [response.json()] raises in requests 2.27 and later, a
    subclass of both [RequestException] and [ValueError]; older versions
    raise a plain [ValueError]. *)
Inductive exn :=
| RequestException
| JSONDecodeError
| ValueError
| AttributeError
| TypeError
| FileNotFoundError
| APIError.

Definition is_RequestException (e : exn) : bool :=
  match e with RequestException | JSONDecodeError => true | _ => false end.

Definition is_ValueError (e : exn) : bool :=
  match e with ValueError | JSONDecodeError => true | _ => false end.

Definition is_FileNotFoundError (e : exn) : bool :=
  match e with FileNotFoundError => true | _ => false end.

Definition is_task_id_error (e : exn) : bool :=
  match e with TypeError | AttributeError => true | _ => false end.

Definition is_Exception (e : exn) : bool := true.

Inductive request :=
| GET (url : string)
| POST (url : string) (payload : json)
| MESSAGES (prompt style : string) (num_verses : Z) (has_chorus : bool).

(** What an HTTP exchange hands back: the status line, the decoded JSON body
    ([None] when the body is not JSON) and the body as [iter_content]
    delivers it. *)
Record response := Response {
  status_code : Z;
  body : option json;
  chunks : list string }.

Inductive reply :=
| ConnError
| Got (r : response)
| Completion (text : string).

(** Console lines, one constructor per [print] that marks a decision. *)
Inductive msg :=
| CheckingStatusAt (url : string)          (* "Checking status at: ..." *)
| StatusCheckSuccessful                    (* "Status check successful" *)
| TryingAlternate (url : string)           (* "Primary endpoint failed, trying: ..." *)
| AlternateSucceeded (url : string)        (* "Success with alternate endpoint: ..." *)
| AllEndpointsFailed                       (* "All endpoints failed for status check" *)
| NetworkErrorCheckingStatus               (* "Network error when checking status: ..." *)
| CheckingMp4StatusAt (url : string)       (* "Checking MP4 status at: ..." *)
| Mp4StatusCheckError (code : Z)           (* "Error checking MP4 status: Status code ..." *)
| NetworkErrorCheckingMp4 (url : string)   (* "Network error when checking MP4 status at ..." *)
| AllMp4EndpointsFailed                    (* "All MP4 status endpoints returned 404 or failed..." *)
| CheckHeader (k : kind) (i n : Z)         (* "Check i/n..." and "MP4 Check i/n..." *)
| CouldNotRetrieve (k : kind)              (* "Could not retrieve ... task details, waiting before retry..." *)
| ApiError (k : kind) (code : json)        (* "API error: code - msg" *)
| InsufficientCredits                      (* "Insufficient credits. Please add more credits..." *)
| UnderMaintenance                         (* "System is under maintenance..." *)
| CurrentStatus (k : kind) (status : json) (desc : json)
                                           (* "Current status: s - d", "Current MP4 status: s[ - d]" *)
| Mp4StatusProcessing                      (* "MP4 status: Processing" *)
| TaskComplete (k : kind)                  (* "Task is complete!", "MP4 generation is complete!" *)
| FoundUrl (k : kind) (url : json)         (* "Found audio URL: ...", "Found video URL: ..." *)
| NoUrlFound (k : kind)                    (* "No audio URL found...", "No video URL found..." *)
| TaskFailed (k : kind)                    (* "Task failed: ...", "MP4 generation failed." *)
| StillProcessing (k : kind)               (* "Task still processing (...)", "MP4 still processing..." *)
| ExceededMaximumChecks (k : kind)         (* "Exceeded maximum checks. ..." *)
| DownloadAttempt (i n : Z)                (* "Download attempt i/n from ..." *)
| DownloadComplete                         (* "Download complete!" / "MP4 video downloaded successfully..." *)
| FileSaved (path : string)                (* "File saved to ..." *)
| DownloadedFileEmpty                      (* "Downloaded file is empty. Retrying..." *)
| DownloadError                            (* "Download error: ...", "Download attempt i/n failed: ..." *)
| RetryingIn (secs : Z)                    (* "Retrying in n seconds..." *)
| MaxRetriesReached                        (* "Maximum retry attempts reached. Download failed." *)
| Mp4GenerationStarted                     (* "MP4 generation started. ..." *)
| NoMp4TaskIdReturned                      (* "No MP4 task ID returned. ..." *)
| FailedToStartMp4                         (* "Failed to start MP4 generation: ..." *)
| ErrorDuringMp4                           (* "Error during MP4 generation process: ..." *)
| SunoKeyMissing                           (* "ERROR: SUNO_API_KEY environment variable is not set." *)
| AnthropicKeyMissing                      (* "ERROR: ANTHROPIC_API_KEY environment variable is not set." *)
| UsingTaskIdFromFile (k : kind) (id : string)
                                           (* "Using [MP4] task ID from last_..." *)
| NoTaskIdFile (k : kind)                  (* "No [MP4] task ID provided and no last_..._task_id.txt file found." *)
| CheckingExistingTask (k : kind) (id : string)
                                           (* "Checking existing [MP4] task: ..." *)
| ProvideTheme                             (* "Please provide a theme with --theme" *)
| FailedToStartMusic                       (* "Failed to start music generation. ..." *)
| ErrorGeneratingMusic (code : Z)          (* "Error generating music: Status code ..." *)
| ErrorExtractingTaskId                    (* "Error extracting task ID: ..." *)
| NoTaskIdReturned                         (* "No task ID returned from Suno API." *)
| MusicGenerationStarted (id : json).      (* "Music generation started with task ID: ..." *)

Inductive event :=
| Net (rq : request)
| Print (m : msg)
| Sleep (secs : Z)
| Write (path : string) (content : string).

(** The state of the world.  [net] scripts the remote side: the reply to the
    [n]-th request of the run, given the request.  [clock] counts the
    requests issued so far, [trace] lists everything observable the process
    did, oldest first, and [fs] is the file system. *)
Record world := World {
  net : nat -> request -> reply;
  clock : nat;
  trace : list event;
  fs : gmap string string;
  getenv : string -> option string;
  requests_ge_2_27 : bool }.

Inductive res (A : Type) :=
| Ok (a : A)
| Raised (e : exn).
Arguments Ok {A} a.
Arguments Raised {A} e.

Definition M (A : Type) : Type := world -> res A * world.

#[global] Instance M_ret : MRet M := fun A a w => (Ok a, w).

#[global] Instance M_bind : MBind M := fun A B f m w =>
  match m w with
  | (Ok a, w') => f a w'
  | (Raised e, w') => (Raised e, w')
  end.

Definition raise {A : Type} (e : exn) : M A := fun w => (Raised e, w).

(** [try: body except <classes>: handler] *)
Definition try_except {A : Type} (body : M A) (catches : exn -> bool) (handler : M A) : M A :=
  fun w =>
    match body w with
    | (Raised e, w') => if catches e then handler w' else (Raised e, w')
    | done => done
    end.

Definition record (e : event) (w : world) : world :=
  World (net w) (clock w) (trace w ++ [e]) (fs w) (getenv w) (requests_ge_2_27 w).

Definition emit (e : event) : M unit := fun w => (Ok tt, record e w).

Definition print (m : msg) : M unit := emit (Print m).

(** [time.sleep(secs)] refuses a negative duration. *)
Definition sleep (secs : Z) : M unit :=
  if secs <? 0 then raise ValueError else emit (Sleep secs).

(** One exchange with the remote side. *)
Definition send (rq : request) : M reply := fun w =>
  (Ok (net w (clock w) rq),
   World (net w) (S (clock w)) (trace w ++ [Net rq]) (fs w) (getenv w) (requests_ge_2_27 w)).

Definition http (rq : request) : M response :=
  r ← send rq;
  match r with
  | Got resp => mret resp
  | _ => raise RequestException
  end.

(** [requests.get(url, ...)].  The argument comes out of a JSON document and
    need not be a string; requests rejects such a URL with a
    [RequestException] before any connection is made. *)
Definition requests_get (url : json) : M response :=
  match url with
  | JStr u => http (GET u)
  | _ => raise RequestException
  end.

Definition requests_post (url : string) (payload : json) : M response :=
  http (POST url payload).

(** [response.json()] *)
Definition response_json (r : response) : M json := fun w =>
  match body r with
  | Some j => (Ok j, w)
  | None => (Raised (if requests_ge_2_27 w then JSONDecodeError else ValueError), w)
  end.

(** [response.raise_for_status()] *)
Definition raise_for_status (r : response) : M unit :=
  if (400 <=? status_code r) && (status_code r <? 600) then raise RequestException
  else mret tt.

(** [with open(path, 'w') as f: f.write(text)] and the chunked binary
    write of the downloaders: the file holds exactly what was written. *)
Definition write_file (path content : string) : M unit := fun w =>
  (Ok tt,
   World (net w) (clock w) (trace w ++ [Write path content])
         (<[path := content]> (fs w)) (getenv w) (requests_ge_2_27 w)).

(** [f.write(v)] on a freshly opened text file when [v] came out of a JSON
    document: the file is truncated by [open], and a value that is not a
    string makes [write] raise. *)
Definition write_text (path : string) (v : json) : M string :=
  match v with
  | JStr s => write_file path s;; mret s
  | _ => write_file path "";; raise TypeError
  end.

(** [open(path, 'r').read()] *)
Definition read_file (path : string) : M string := fun w =>
  match fs w !! path with
  | Some content => (Ok content, w)
  | None => (Raised FileNotFoundError, w)
  end.

(** [os.path.exists(path) and os.path.getsize(path) > 0] *)
Definition file_nonempty (path : string) : M bool := fun w =>
  (Ok (match fs w !! path with
       | Some content => negb (String.eqb content "")
       | None => false
       end), w).

Definition os_getenv (name : string) : M (option string) := fun w => (Ok (getenv w name), w).

(** [obj.get(key, default)] on an arbitrary value: only dicts have [get]. *)
Definition py_get (obj : json) (key : string) (default : json) : M json :=
  match obj with
  | JObj fields => mret (get_default key default fields)
  | _ => raise AttributeError
  end.

(** [s.startswith(p)] on an arbitrary value: only strings have it. *)
Definition py_startswith (v : json) (p : string) : M bool :=
  match v with
  | JStr s => mret (startswith s p)
  | _ => raise AttributeError
  end.

(** ** Generation requesters and status-endpoint resolution *)

(** [MusicGenerator.generate_music] *)
Definition generate_music (title lyrics style : string) (custom_mode instrumental : bool)
    (model : string) : M json :=
  let payload := JObj [
    ("prompt", JStr lyrics);
    ("style", JStr (if custom_mode then style else ""));
    ("title", JStr (if custom_mode then title else ""));
    ("customMode", JBool custom_mode);
    ("instrumental", JBool instrumental);
    ("model", JStr model);
    ("callBackUrl", JStr "https://example.com/callback")] in
  try_except
    (response ← requests_post (SUNO_API_BASE_URL +:+ "/generate") payload;
     if status_code response =? 200 then
       response_json response
     else
       (* the error body is only printed, under a bare [except] *)
       print (ErrorGeneratingMusic (status_code response));;
       mret JNull)
    is_RequestException
    (mret JNull).

(** The [for endpoint in alternate_endpoints] loop of
    [check_generation_status]. *)
Fixpoint try_alternate_endpoints (endpoints : list string) : M json :=
  match endpoints with
  | [] =>
      print AllEndpointsFailed;;
      mret JNull
  | endpoint :: rest =>
      print (TryingAlternate endpoint);;
      alt_response ← requests_get (JStr endpoint);
      if status_code alt_response =? 200 then
        print (AlternateSucceeded endpoint);;
        response_json alt_response
      else try_alternate_endpoints rest
  end.

Definition alternate_endpoints (task_id : string) : list string :=
  [SUNO_API_BASE_URL +:+ "/generate/status?taskId=" +:+ task_id;
   SUNO_API_BASE_URL +:+ "/generate/result?taskId=" +:+ task_id;
   SUNO_API_BASE_URL +:+ "/task/" +:+ task_id;
   SUNO_API_BASE_URL +:+ "/generate/" +:+ task_id].

(** [MusicGenerator.check_generation_status] *)
Definition check_generation_status (task_id : string) : M json :=
  let primary_endpoint := SUNO_API_BASE_URL +:+ "/generate/record-info?taskId=" +:+ task_id in
  print (CheckingStatusAt primary_endpoint);;
  try_except
    (response ← requests_get (JStr primary_endpoint);
     if status_code response =? 200 then
       print StatusCheckSuccessful;;
       response_json response
     else try_alternate_endpoints (alternate_endpoints task_id))
    is_RequestException
    (print NetworkErrorCheckingStatus;;
     mret JNull).

Definition SUNO_STATUS : list (string * string) :=
  [("PENDING", "Pending execution");
   ("TEXT_SUCCESS", "Text generation successful");
   ("FIRST_SUCCESS", "First song generation successful");
   ("SUCCESS", "Generation successful");
   ("CREATE_TASK_FAILED", "Task creation failed");
   ("GENERATE_AUDIO_FAILED", "Song generation failed");
   ("CALLBACK_EXCEPTION", "Callback exception");
   ("SENSITIVE_WORD_ERROR", "Sensitive word error")].

Fixpoint table_get (key : string) (table : list (string * string)) : option string :=
  match table with
  | [] => None
  | (k, v) :: rest => if String.eqb k key then Some v else table_get key rest
  end.

(** [str(v)] for the values that can key a dict. *)
Definition py_str (v : json) : string :=
  match v with
  | JNull => "None"
  | JBool true => "True"
  | JBool false => "False"
  | JNum n => str_of_Z n
  | JStr s => s
  | _ => ""
  end.

(** [MusicGenerator.get_status_description]: [SUNO_STATUS.get(code, ...)]
    hashes its argument, which a list or a dict refuses. *)
Definition get_status_description (status_code : json) : M string :=
  match status_code with
  | JArr _ | JObj _ => raise TypeError
  | JStr s =>
      mret (match table_get s SUNO_STATUS with
            | Some desc => desc
            | None => "Unknown status: " +:+ s
            end)
  | other => mret ("Unknown status: " +:+ py_str other)
  end.

Definition failure_dict (error error_code data : json) : json :=
  JObj [("success", JBool false); ("error", error); ("error_code", error_code); ("data", data)].

(** The tail of the HTTP 200 branch of [generate_mp4], from "Ensure we have a
    standardized response structure" on. *)
Definition standardize_mp4_response (resp_json : json) : M json :=
  let fields := match resp_json with JObj f => f | other => [("data", other)] end in
  let fields := set_item "success" (JBool true) fields in
  let fields := if has_key "data" fields then fields else set_item "data" (JObj []) fields in
  let task_id :=
    match lookup_key "data" fields with
    | Some (JObj data) => get_default "taskId" JNull data
    | _ => JNull
    end in
  if truthy task_id then mret (JObj fields)
  else
    match lookup_key "taskId" fields with
    | Some root_id =>
        (* resp_json["data"]["taskId"] = task_id *)
        match lookup_key "data" fields with
        | Some (JObj data) =>
            mret (JObj (set_item "data" (JObj (set_item "taskId" root_id data)) fields))
        | _ => raise TypeError
        end
    | None => mret (JObj fields)
    end.

(** [MusicGenerator.generate_mp4] *)
Definition generate_mp4 (task_id : string) (audio_id : json) (output_path : string) : M json :=
  let payload := JObj [
    ("taskId", JStr task_id);
    ("audioId", audio_id);
    ("callBackUrl", JStr "https://example.com/callback")] in
  try_except
    (response ← requests_post (SUNO_API_BASE_URL +:+ "/mp4/generate") payload;
     parsed ← try_except (resp_json ← response_json response; mret (Some resp_json))
                is_ValueError (mret None);
     match parsed with
     | None =>
         mret (failure_dict (JStr "Invalid JSON response") (JStr "PARSE_ERROR") (JObj []))
     | Some resp_json =>
         if status_code response =? 200 then
           match resp_json with
           | JObj fields =>
               if negb (eq_int (get_default "code" JNull fields) 200) then
                 mret (failure_dict (get_default "msg" (JStr "Unknown error") fields)
                                    (get_default "code" JNull fields)
                                    (get_default "data" (JObj []) fields))
               else standardize_mp4_response resp_json
           | _ => standardize_mp4_response resp_json
           end
         else if status_code response =? 401 then
           mret (failure_dict (JStr "Authentication error: You do not have access permissions")
                              (JNum 401) (JObj []))
         else
           match resp_json with
           | JObj fields =>
               if has_key "code" fields && has_key "msg" fields then
                 mret (failure_dict (get_default "msg" JNull fields)
                                    (get_default "code" JNull fields) (JObj []))
               else
                 mret (failure_dict (JStr "Unknown error") (JNum (status_code response)) (JObj []))
           | _ =>
               mret (failure_dict (JStr "Unknown error") (JNum (status_code response)) (JObj []))
           end
     end)
    is_RequestException
    (* "error": str(e), the text of the exception *)
    (mret (failure_dict (JStr "RequestException") (JStr "NETWORK_ERROR") (JObj []))).

Definition mp4_status_endpoints (task_id : string) : list string :=
  [SUNO_API_BASE_URL +:+ "/mp4/record-info?taskId=" +:+ task_id;
   SUNO_API_BASE_URL +:+ "/mp4/generate/record-info?taskId=" +:+ task_id;
   SUNO_API_BASE_URL +:+ "/mp4/status?taskId=" +:+ task_id].

(** The [for endpoint in endpoints] loop of [check_mp4_status]; each round
    runs under its own [try]. *)
Fixpoint try_mp4_endpoints (endpoints : list string) : M json :=
  match endpoints with
  | [] =>
      print AllMp4EndpointsFailed;;
      mret JNull
  | endpoint :: rest =>
      returned ← try_except
        (print (CheckingMp4StatusAt endpoint);;
         response ← requests_get (JStr endpoint);
         if status_code response =? 200 then
           resp_json ← response_json response;
           print StatusCheckSuccessful;;
           mret (Some resp_json)
         else if negb (status_code response =? 404) then
           print (Mp4StatusCheckError (status_code response));;
           mret (Some JNull)
         else mret None)
        is_RequestException
        (print (NetworkErrorCheckingMp4 endpoint);;
         mret None);
      match returned with
      | Some value => mret value
      | None => try_mp4_endpoints rest
      end
  end.

(** [MusicGenerator.check_mp4_status] *)
Definition check_mp4_status (task_id : string) : M json :=
  try_mp4_endpoints (mp4_status_endpoints task_id).

(** ** Downloader *)

(** [MusicGenerator.download_mp4].  [remaining] is the number of rounds the
    [while retry_count < max_retries] test still lets through. *)
Fixpoint download_mp4_rounds (remaining : nat) (video_url : json) (output_path : string)
    (retry_count max_retries : Z) : M bool :=
  match remaining with
  | O => mret false
  | S remaining' =>
      returned ← try_except
        (r ← requests_get video_url;
         raise_for_status r;;
         write_file output_path (String.concat "" (chunks r));;
         print DownloadComplete;;
         mret (Some true))
        is_RequestException
        (let retry_count := retry_count + 1 in
         print DownloadError;;
         if retry_count <? max_retries then
           let wait_time := 5 * retry_count in
           print (RetryingIn wait_time);;
           sleep wait_time;;
           mret None
         else
           print MaxRetriesReached;;
           mret (Some false));
      match returned with
      | Some success => mret success
      | None => download_mp4_rounds remaining' video_url output_path (retry_count + 1) max_retries
      end
  end.

Definition download_mp4 (video_url : json) (output_path : string) (max_retries : Z) : M bool :=
  download_mp4_rounds (Z.to_nat max_retries) video_url output_path 0 max_retries.

(** [MusicGenerator.download_music] *)
Fixpoint download_music_rounds (remaining : nat) (audio_url : json) (output_path : string)
    (retry_count max_retries : Z) : M bool :=
  match remaining with
  | O => mret false
  | S remaining' =>
      saved ← try_except
        (print (DownloadAttempt (retry_count + 1) max_retries);;
         response ← requests_get audio_url;
         raise_for_status response;;
         write_file output_path (String.concat "" (chunks response));;
         print DownloadComplete;;
         nonempty ← file_nonempty output_path;
         if (nonempty : bool) then
           print (FileSaved output_path);;
           mret true
         else
           print DownloadedFileEmpty;;
           mret false)
        is_Exception
        (print DownloadError;;
         mret false);
      if (saved : bool) then mret true
      else
        let wait_time := 2 ^ retry_count in
        print (RetryingIn wait_time);;
        sleep wait_time;;
        download_music_rounds remaining' audio_url output_path (retry_count + 1) max_retries
  end.

Definition download_music (audio_url : json) (output_path : string) (max_retries : Z) : M bool :=
  download_music_rounds (Z.to_nat max_retries) audio_url output_path 0 max_retries.

(** ** Job poller *)

Definition video_url_fields : list string :=
  ["video_url"; "videoUrl"; "url"; "mp4Url"; "mp4_url"; "videoPath"].

Definition mp4_success_statuses : list string := ["complete"; "SUCCESS"; "FIRST_SUCCESS"].
Definition mp4_failure_statuses : list string := ["failed"; "FAILED"; "ERROR"].

(** The status that the video poller works with, from the [data] dict:
    [data.get('status')], replaced by ['complete'] when a [completeTime] is
    there and the status is empty. *)
Definition mp4_status_of (data : list (string * json)) : json :=
  let status := get_default "status" JNull data in
  let complete_time := get_default "completeTime" JNull data in
  if truthy complete_time && negb (truthy status) then JStr "complete" else status.

(** The [data] that the video poller reads: [task_details.get('data', {})],
    or the response itself when that is empty and the response looks like a
    direct record. *)
Definition mp4_data_of (task_details : list (string * json)) : json :=
  let data := get_default "data" (JObj []) task_details in
  if negb (truthy data) && (has_key "taskId" task_details && has_key "musicId" task_details)
  then JObj task_details
  else data.

(** A relative [videoPath] is prefixed with the file host; a non-empty value
    that is not a string has no [startswith]. *)
Definition absolute_video_url (video_url : json) : M json :=
  if truthy video_url then
    match video_url with
    | JStr s =>
        if negb (startswith s "http") then
          if startswith s "/" then mret (JStr ("https://apiboxfiles.erweima.ai" +:+ s))
          else mret (JStr ("https://apiboxfiles.erweima.ai/" +:+ s))
        else mret video_url
    | _ => raise AttributeError
    end
  else mret video_url.

(** The branch of [monitor_and_download_mp4] for a success status: find the
    video URL in [data], else anywhere in the response, and download it.
    The result is the value that the poller returns. *)
Definition mp4_on_success (output_path : string) (task_details : json)
    (data : list (string * json)) : M bool :=
  print (TaskComplete Video);;
  let video_url :=
    match first_present video_url_fields data with
    | Some v => v
    | None => JNull
    end in
  video_url ← absolute_video_url video_url;
  let video_url :=
    if negb (truthy video_url) then find_url task_details video_url_fields
    else video_url in
  if truthy video_url then
    print (FoundUrl Video video_url);;
    download_mp4 video_url output_path 5
  else
    print (NoUrlFound Video);;
    mret false.

(** What one round of [monitor_and_download_mp4] makes of the answer of the
    status check: [Some b] when the round executes [return b], [None] when
    the loop goes on. *)
Definition mp4_verdict (output_path : string) (check_interval : Z) (task_details : json)
    : M (option bool) :=
  if negb (truthy task_details) then
    print (CouldNotRetrieve Video);;
    sleep check_interval;;
    mret None
  else
    api_code ← py_get task_details "code" JNull;
    if truthy api_code && negb (eq_int api_code 200) then
      print (ApiError Video api_code);;
      mret (Some false)
    else
      match task_details with
      | JObj details =>
          match mp4_data_of details with
          | JObj data =>
              let status := mp4_status_of data in
              let status_desc :=
                if truthy (get_default "statusDesc" JNull data)
                then get_default "statusDesc" JNull data
                else if truthy (get_default "status_desc" JNull data)
                then get_default "status_desc" JNull data
                else JStr "" in
              (if truthy status_desc || truthy status
               then print (CurrentStatus Video status status_desc)
               else print Mp4StatusProcessing);;
              if in_strs status mp4_success_statuses then
                result ← mp4_on_success output_path task_details data;
                mret (Some result)
              else if in_strs status mp4_failure_statuses then
                print (TaskFailed Video);;
                mret (Some false)
              else
                print (StillProcessing Video);;
                sleep check_interval;;
                mret None
          | _ => raise AttributeError          (* data.get('status') *)
          end
      | _ => raise AttributeError
      end.

(** One round of the [while] loop of [monitor_and_download_mp4]. *)
Definition mp4_cycle (task_id output_path : string) (checks max_checks check_interval : Z)
    : M (option bool) :=
  print (CheckHeader Video (checks + 1) max_checks);;
  task_details ← check_mp4_status task_id;
  mp4_verdict output_path check_interval task_details.

Fixpoint mp4_rounds (remaining : nat) (task_id output_path : string)
    (checks max_checks check_interval : Z) : M bool :=
  match remaining with
  | O =>
      print (ExceededMaximumChecks Video);;
      mret false
  | S remaining' =>
      returned ← mp4_cycle task_id output_path checks max_checks check_interval;
      match returned with
      | Some result => mret result
      | None => mp4_rounds remaining' task_id output_path (checks + 1) max_checks check_interval
      end
  end.

(** [MusicGenerator.monitor_and_download_mp4] *)
Definition monitor_and_download_mp4 (task_id output_path : string)
    (max_checks check_interval : Z) : M bool :=
  write_file "last_mp4_task_id.txt" task_id;;
  mp4_rounds (Z.to_nat max_checks) task_id output_path 0 max_checks check_interval.

Definition audio_success_statuses : list string := ["SUCCESS"; "FIRST_SUCCESS"].
Definition audio_failure_statuses : list string :=
  ["CREATE_TASK_FAILED"; "GENERATE_AUDIO_FAILED"; "CALLBACK_EXCEPTION"; "SENSITIVE_WORD_ERROR"].
Definition audio_pending_statuses : list string := ["PENDING"; "TEXT_SUCCESS"].

(** The status that the audio poller works with: the documented path
    [data.status], then the top-level [status], then the recursive search. *)
Definition audio_status_of (task_details : list (string * json)) : json :=
  let status :=
    match get_default "data" (JObj []) task_details with
    | JObj data => get_default "status" JNull data
    | _ => JNull
    end in
  if negb (truthy status) then
    let status := get_default "status" JNull task_details in
    if negb (truthy status) then find_status (JObj task_details) else status
  else status.

(** The application error code gate of the audio poller: [true] when the
    round returns [False] because of the code. *)
Definition audio_code_stops (api_code : json) : bool :=
  truthy api_code && negb (eq_int api_code 200)
  && negb (eq_int api_code 200 || eq_int api_code 404).

(** The video leg that follows a successful audio download when
    [generate_mp4] was asked for; everything runs under
    [try: ... except Exception]. *)
Definition mp4_leg (task_id : string) (audio_id : json) (output_path : string)
    (mp4_output_path : option string) (max_checks check_interval : Z) : M unit :=
  let mp4_output_path :=
    match mp4_output_path with
    | Some path => if String.eqb path "" then splitext_root output_path +:+ ".mp4" else path
    | None => splitext_root output_path +:+ ".mp4"
    end in
  try_except
    (mp4_response ← generate_mp4 task_id audio_id mp4_output_path;
     match mp4_response with
     | JNull => print FailedToStartMp4
     | _ =>
         success ← py_get mp4_response "success" (JBool false);
         if truthy success then
           print Mp4GenerationStarted;;
           data ← py_get mp4_response "data" (JObj []);
           mp4_task_id ← py_get data "taskId" JNull;
           if truthy mp4_task_id then
             id ← write_text "last_mp4_task_id.txt" mp4_task_id;
             monitor_and_download_mp4 id mp4_output_path max_checks check_interval;;
             mret tt
           else print NoMp4TaskIdReturned
         else print FailedToStartMp4
     end)
    is_Exception
    (print ErrorDuringMp4).

(** The branch of [monitor_and_download] for a success status: extract the
    audio URL and identifier, download, and run the video leg when asked to.
    The result is the value that the poller returns. *)
Definition audio_on_success (task_id output_path : string) (max_checks check_interval : Z)
    (generate_mp4 : bool) (mp4_output_path : option string) (task_details : json) : M bool :=
  print (TaskComplete Audio);;
  let audio_url := find_audio_url task_details in
  let audio_id := find_audio_id task_details in
  if truthy audio_url then
    print (FoundUrl Audio audio_url);;
    success ← download_music audio_url output_path 5;
    (if generate_mp4 && truthy audio_id && success
     then mp4_leg task_id audio_id output_path mp4_output_path max_checks check_interval
     else mret tt);;
    mret success
  else
    print (NoUrlFound Audio);;
    mret false.

(** What one round of [monitor_and_download] makes of the answer of the
    status check: [Some b] when the round executes [return b], [None] when
    the loop goes on. *)
Definition audio_verdict (task_id output_path : string) (max_checks check_interval : Z)
    (generate_mp4 : bool) (mp4_output_path : option string) (task_details : json)
    : M (option bool) :=
  if negb (truthy task_details) then
    print (CouldNotRetrieve Audio);;
    sleep check_interval;;
    mret None
  else
    api_code ← py_get task_details "code" JNull;
    (if truthy api_code && negb (eq_int api_code 200) then
       print (ApiError Audio api_code);;
       if eq_int api_code 429 then print InsufficientCredits
       else if eq_int api_code 455 then print UnderMaintenance
       else mret tt
     else mret tt);;
    if audio_code_stops api_code then mret (Some false)
    else
      match task_details with
      | JObj details =>
          let status := audio_status_of details in
          status_desc ← get_status_description status;
          print (CurrentStatus Audio status (JStr status_desc));;
          if in_strs status audio_success_statuses then
            result ← audio_on_success task_id output_path max_checks check_interval
                       generate_mp4 mp4_output_path task_details;
            mret (Some result)
          else if in_strs status audio_failure_statuses then
            print (TaskFailed Audio);;
            mret (Some false)
          else
            (if in_strs status audio_pending_statuses then print (StillProcessing Audio)
             else mret tt);;
            sleep check_interval;;
            mret None
      | _ => raise AttributeError
      end.

(** One round of the [while] loop of [monitor_and_download]. *)
Definition audio_cycle (task_id output_path : string) (checks max_checks check_interval : Z)
    (generate_mp4 : bool) (mp4_output_path : option string) : M (option bool) :=
  print (CheckHeader Audio (checks + 1) max_checks);;
  task_details ← check_generation_status task_id;
  audio_verdict task_id output_path max_checks check_interval generate_mp4 mp4_output_path
    task_details.

Fixpoint audio_rounds (remaining : nat) (task_id output_path : string)
    (checks max_checks check_interval : Z) (generate_mp4 : bool)
    (mp4_output_path : option string) : M bool :=
  match remaining with
  | O =>
      print (ExceededMaximumChecks Audio);;
      mret false
  | S remaining' =>
      returned ← audio_cycle task_id output_path checks max_checks check_interval
                   generate_mp4 mp4_output_path;
      match returned with
      | Some result => mret result
      | None =>
          audio_rounds remaining' task_id output_path (checks + 1) max_checks check_interval
            generate_mp4 mp4_output_path
      end
  end.

(** [MusicGenerator.monitor_and_download] *)
Definition monitor_and_download (task_id output_path : string) (max_checks check_interval : Z)
    (generate_mp4 : bool) (mp4_output_path : option string) : M bool :=
  write_file "last_task_id.txt" task_id;;
  audio_rounds (Z.to_nat max_checks) task_id output_path 0 max_checks check_interval
    generate_mp4 mp4_output_path.

(** ** Orchestrator *)

(** The parsed command line.  [--check-task] and [--check-mp4-task] take an
    optional value ([nargs='?', const=True]): [None] when the flag is absent,
    [Some None] when it is given bare, [Some (Some id)] when it carries an
    id. *)
Record args := Args {
  theme : option string;
  style : string;
  verses : Z;
  chorus : bool;
  custom : bool;
  instrumental : bool;
  model : string;
  output : string;
  debug : bool;
  checks : Z;
  interval : Z;
  check_task : option (option string);
  generate_mp4_flag : bool;
  mp4_output : option string;
  check_mp4_task : option (option string) }.

(** Truthiness of an optional string and of an optional-value flag. *)
Definition nonempty (s : option string) : bool :=
  match s with Some text => negb (String.eqb text "") | None => false end.

Definition flag_given (f : option (option string)) : bool :=
  match f with
  | None => false
  | Some None => true
  | Some (Some id) => negb (String.eqb id "")
  end.

(** [LyricsGenerator.generate_lyrics]: one call to the text service; the
    first line of the stripped answer is the title, the rest the content. *)
Definition generate_lyrics (prompt style : string) (num_verses : Z) (has_chorus : bool)
    : M (string * string) :=
  r ← send (MESSAGES prompt style num_verses has_chorus);
  match r with
  | Completion lyrics_text =>
      let stripped := strip lyrics_text in
      let title := strip (remove_hashes (first_line stripped)) in
      let content := strip (after_first_line stripped) in
      mret (title, content)
  | _ => raise APIError
  end.

(** The tail of [main] that starts a new generation. *)
Definition generate_new (a : args) (theme : string) : M unit :=
  '(lyrics_title, lyrics_content) ←
    (if negb (instrumental a)
     then generate_lyrics theme (style a) (verses a) (chorus a)
     else mret (capitalize theme, theme));
  generation_response ← generate_music lyrics_title lyrics_content (style a)
                          (custom a) (instrumental a) (model a);
  if negb (truthy generation_response) then print FailedToStartMusic
  else
    extracted ← try_except
      (data ← py_get generation_response "data" (JObj []);
       task_id ← py_get data "taskId" JNull;
       if negb (truthy task_id) then
         task_id ← py_get generation_response "taskId" JNull;
         if negb (truthy task_id) then mret (Some (find_task_id generation_response))
         else mret (Some task_id)
       else mret (Some task_id))
      is_task_id_error
      (print ErrorExtractingTaskId;;
       mret None);
    match extracted with
    | None => mret tt
    | Some task_id =>
        if negb (truthy task_id) then print NoTaskIdReturned
        else
          print (MusicGenerationStarted task_id);;
          match task_id with
          | JStr id =>
              monitor_and_download id (output a) (checks a) (interval a)
                (generate_mp4_flag a) (mp4_output a);;
              mret tt
          | _ =>
              (* f.write(task_id) on the freshly opened last_task_id.txt *)
              write_text "last_task_id.txt" task_id;;
              mret tt
          end
    end.

(** [main] *)
Definition main (a : args) : M unit :=
  suno_key ← os_getenv "SUNO_API_KEY";
  if negb (nonempty suno_key) then print SunoKeyMissing
  else
    anthropic_key ← os_getenv "ANTHROPIC_API_KEY";
    if negb (instrumental a) && negb (nonempty anthropic_key) then print AnthropicKeyMissing
    else if flag_given (check_mp4_task a) then
      found ← match check_mp4_task a with
               | Some (Some id) => mret (Some id)
               | _ =>
                   try_except
                     (content ← read_file "last_mp4_task_id.txt";
                      print (UsingTaskIdFromFile Video (strip content));;
                      mret (Some (strip content)))
                     is_FileNotFoundError
                     (print (NoTaskIdFile Video);;
                      mret None)
               end;
      match found with
      | None => mret tt
      | Some mp4_task_id =>
          let mp4_output := if nonempty (mp4_output a) then default "" (mp4_output a)
                            else "output.mp4" in
          print (CheckingExistingTask Video mp4_task_id);;
          monitor_and_download_mp4 mp4_task_id mp4_output (checks a) (interval a);;
          mret tt
      end
    else if flag_given (check_task a) then
      found ← match check_task a with
               | Some (Some id) => mret (Some id)
               | _ =>
                   try_except
                     (content ← read_file "last_task_id.txt";
                      print (UsingTaskIdFromFile Audio (strip content));;
                      mret (Some (strip content)))
                     is_FileNotFoundError
                     (print (NoTaskIdFile Audio);;
                      mret None)
               end;
      match found with
      | None => mret tt
      | Some task_id =>
          print (CheckingExistingTask Audio task_id);;
          monitor_and_download task_id (output a) (checks a) (interval a)
            (generate_mp4_flag a) (mp4_output a);;
          mret tt
      end
    else
      match theme a with
      | Some text =>
          if String.eqb text "" then print ProvideTheme else generate_new a text
      | None => print ProvideTheme
      end.

(** * Vocabulary of the statements *)

(** ** Traces *)

Definition same_kind (a b : kind) : bool :=
  match a, b with
  | Audio, Audio | Video, Video => true
  | _, _ => false
  end.

(** The events by which the polling loop of kind [k] shows that it is still
    going: the header of a round, the notice that a round found nothing
    final, and the notice that the rounds ran out. *)
Definition polling (k : kind) (e : event) : bool :=
  match e with
  | Print (CheckHeader k' _ _)
  | Print (CouldNotRetrieve k')
  | Print (StillProcessing k')
  | Print (ExceededMaximumChecks k') => same_kind k k'
  | _ => false
  end.

(** [quiet (Some k)] holds of the events that are no polling of kind [k];
    [quiet None] holds of every event. *)
Definition quiet (k : option kind) (e : event) : bool :=
  match e with
  | Print (CheckHeader k' _ _)
  | Print (CouldNotRetrieve k')
  | Print (StillProcessing k')
  | Print (ExceededMaximumChecks k') =>
      match k with
      | Some k => negb (same_kind k k')
      | None => true
      end
  | _ => true
  end.

(** The number of status checks of kind [k] that a trace records. *)
Fixpoint status_checks (k : kind) (tr : list event) : nat :=
  match tr with
  | [] => O
  | Print (CheckHeader k' _ _) :: rest =>
      if same_kind k k' then S (status_checks k rest) else status_checks k rest
  | _ :: rest => status_checks k rest
  end.

Definition is_print (e : event) : bool :=
  match e with Print _ => true | _ => false end.

Definition announces_success (e : event) : bool :=
  match e with
  | Print (TaskComplete _) | Print (FoundUrl _ _) | Print (FileSaved _) => true
  | _ => false
  end.

(** [grows P w w']: the trace of [w'] is that of [w] followed by events that
    all satisfy [P]. *)
Definition grows (P : event -> bool) (w w' : world) : Prop :=
  exists evs, trace w' = trace w ++ evs /\ Forall (fun e => P e = true) evs.

Definition emits {A : Type} (P : event -> bool) (m : M A) : Prop :=
  forall w, grows P w (m w).2.

(** ** Exceptions *)

(** [throws C m]: whatever [m] raises satisfies [C]. *)
Definition throws {A : Type} (C : exn -> bool) (m : M A) : Prop :=
  forall w, match (m w).1 with Raised e => C e = true | Ok _ => True end.

Definition no_exn (e : exn) : bool := false.

Definition any_exn (e : exn) : bool := true.

Definition only_TypeError (e : exn) : bool :=
  match e with TypeError => true | _ => false end.

Definition network_or_TypeError (e : exn) : bool :=
  match e with RequestException | TypeError => true | _ => false end.


(** ** Responses *)


(** The notices that the audio round prints about an application error code
    that does not end the polling. *)
Definition code_notices (api_code : json) : list event :=
  if truthy api_code && negb (eq_int api_code 200) then [Print (ApiError Audio api_code)]
  else [].


(** A reply that the audio poller reads as "still pending": HTTP 200 with a
    JSON object whose status is in the pending family and whose application
    code does not end the polling. *)
Definition pending_reply (r : reply) : bool :=
  match r with
  | Got resp =>
      (status_code resp =? 200) &&
      match body resp with
      | Some (JObj td) =>
          negb (audio_code_stops (get_default "code" JNull td)) &&
          in_strs (audio_status_of td) audio_pending_statuses
      | _ => false
      end
  | _ => false
  end.

Definition primary_endpoint (task_id : string) : string :=
  SUNO_API_BASE_URL +:+ "/generate/record-info?taskId=" +:+ task_id.

Definition first_alternate (task_id : string) : string :=
  SUNO_API_BASE_URL +:+ "/generate/status?taskId=" +:+ task_id.

Definition first_mp4_endpoint (task_id : string) : string :=
  SUNO_API_BASE_URL +:+ "/mp4/record-info?taskId=" +:+ task_id.

(** ** The extractor as the specification words it *)

(** The values at the structured probe locations, in probe order: the
    top-level candidate keys, the field under [data], the field under
    [data.results[0]]. *)
Definition probe_values (keys : list string) (field : string)
    (fields : list (string * json)) : list json :=
  omap (fun key => lookup_key key fields) keys ++
  match lookup_key "data" fields with
  | Some (JObj data) =>
      option_list (lookup_key field data) ++
      match lookup_key "results" data with
      | Some (JArr (JObj result :: _)) => option_list (lookup_key field result)
      | _ => []
      end
  | _ => []
  end.

Fixpoint first_nonempty (values : list json) : option json :=
  match values with
  | [] => None
  | v :: rest => if truthy v then Some v else first_nonempty rest
  end.

(** The extractor as the specification words it: the first non-empty match
    in probe order, the recursive search being the last probe. *)
Fixpoint extract_first_nonempty (keys : list string) (field : string) (obj : json) : json :=
  match obj with
  | JObj fields =>
      match first_nonempty (probe_values keys field fields) with
      | Some v => v
      | None =>
          (fix items (l : list (string * json)) : json :=
             match l with
             | [] => JNull
             | (_, v) :: rest =>
                 let result := extract_first_nonempty keys field v in
                 if truthy result then result else items rest
             end) fields
      end
  | JArr elements =>
      (fix each (l : list json) : json :=
         match l with
         | [] => JNull
         | item :: rest =>
             let result := extract_first_nonempty keys field item in
             if truthy result then result else each rest
         end) elements
  | _ => JNull
  end.

(** The structured probes under [data] hit no empty value. *)
Definition data_hits_nonempty (field : string) (fields : list (string * json)) : bool :=
  match data_probe field fields with
  | Some v => truthy v
  | None => true
  end.

(** The same, at every level of the response. *)
Fixpoint well_filled (field : string) (obj : json) : bool :=
  match obj with
  | JObj fields =>
      data_hits_nonempty field fields &&
      (fix all (l : list (string * json)) : bool :=
         match l with
         | [] => true
         | (_, v) :: rest => well_filled field v && all rest
         end) fields
  | JArr elements =>
      (fix all (l : list json) : bool :=
         match l with
         | [] => true
         | item :: rest => well_filled field item && all rest
         end) elements
  | _ => true
  end.

(** ** The sidecar record as the specification words it *)

(** The claim about the sidecar record, as it is worded: in a run of the
    audio chain, the write of [last_task_id.txt] comes after the poller has
    announced the success and the audio has been written to [output_path]. *)
Definition persisted_after_success (output_path : string) (tr : list event) : Prop :=
  forall before content after,
    tr = before ++ Write "last_task_id.txt" content :: after ->
    In (Print (TaskComplete Audio)) before /\
    exists audio, In (Write output_path audio) before.

(** ** Scripted providers and answers *)

Definition ok200 (j : json) : reply := Got (Response 200 (Some j) []).

Definition pending_answer : json :=
  JObj [("code", JNum 200); ("data", JObj [("status", JStr "PENDING")])].

Definition success_answer : json :=
  JObj [("code", JNum 200);
        ("data", JObj [("status", JStr "SUCCESS");
                       ("audio_url", JStr "https://cdn.example/abc123.mp3")])].

(** A status response in which [data.audio_url] and [data.audioId] are
    present but still empty, while [data.results[0]] has both. *)
Definition early_success_answer : json :=
  JObj [("code", JNum 200);
        ("data", JObj [("status", JStr "FIRST_SUCCESS");
                       ("audio_url", JStr "");
                       ("audioId", JStr "");
                       ("results", JArr [JObj [("audio_url", JStr "https://cdn.example/a.mp3");
                                               ("audioId", JStr "a1")]])])].




Definition not_found_answer : json :=
  JObj [("code", JNum 404); ("msg", JStr "not found")].

Definition root_task_id_answer : json :=
  JObj [("code", JNum 200); ("msg", JStr "success"); ("data", JNull); ("taskId", JStr "abc")].

Definition fields_of (j : json) : list (string * json) :=
  match j with JObj fields => fields | _ => [] end.

(** A provider that gives the same answer to every request. *)
Definition always (j : json) : world :=
  World (fun _ _ => ok200 j) 0 [] ∅ (fun _ => Some "key") true.

(** A provider whose first answer is an HTTP 500 and whose later answers are
    HTTP 200 with [j]. *)
Definition once_broken (j : json) : world :=
  World (fun k _ => match k with O => Got (Response 500 None []) | _ => ok200 j end)
        0 [] ∅ (fun _ => Some "key") true.

Definition empty_file_server : world :=
  World (fun _ _ => Got (Response 200 None [])) 0 [] ∅ (fun _ => None) true.

(** The scenario of the specification: two pending answers, then a success
    with [data.audio_url], then the audio file. *)
Definition midnight_drive : world :=
  World (fun k _ =>
           match k with
           | 0%nat | 1%nat => ok200 pending_answer
           | 2%nat => ok200 success_answer
           | _ => Got (Response 200 None ["ID3"; "audio"])
           end)
        0 [] ∅ (fun _ => Some "key") true.


Definition first_video_check (task_id : string) (max_checks : Z) (w : world) : world :=
  (check_mp4_status task_id
     (record (Print (CheckHeader Video 1 max_checks))
             (write_file "last_mp4_task_id.txt" task_id w).2)).2.

Definition bare_check_mp4_task : args :=
  Args None "pop" 2 false true false "V3_5" "output.mp3" false 30 10 None false None
       (Some None).

(** * The local renderer *)

(** The parts of [generate_mp4.py] that decide which samples go into a
    frame.  The drawing itself is left to matplotlib and moviepy. *)

(** An index of a slice, as Python normalizes it for a sequence of [len]
    items: a negative index counts from the end, and both ends are clipped. *)
Definition slice_index (idx len : Z) : Z :=
  if idx <? 0 then Z.max 0 (idx + len) else Z.min idx len.

(** [a[start:stop]] *)
Definition slice {A : Type} (start stop : Z) (a : list A) : list A :=
  let len := Z.of_nat (length a) in
  take (Z.to_nat (slice_index stop len) - Z.to_nat (slice_index start len))
       (drop (Z.to_nat (slice_index start len)) a).

(** The first lines of [animate(i)], in [create_waveform_video] with a span
    of 20 segments and in [create_spectrum_video] with a span of 2:
    [segment_size = len(audio_array) // n_frames], [start_idx = i *
    segment_size], [end_idx = min(start_idx + segment_size * span,
    len(audio_array))].  [None] is the [ZeroDivisionError] of a division by
    zero. *)
Definition frame_window (span len n_frames i : Z) : option (Z * Z) :=
  if n_frames =? 0 then None
  else
    let segment_size := len / n_frames in
    let start_idx := i * segment_size in
    let end_idx := Z.min (start_idx + segment_size * span) len in
    Some (start_idx, end_idx).

Definition waveform_span : Z := 20.
Definition spectrum_span : Z := 2.

(** The samples of frame [i]: [audio_array[start_idx:end_idx]]. *)
Definition frame_samples {A : Type} (span : Z) (audio_array : list A) (n_frames i : Z)
    : option (list A) :=
  match frame_window span (Z.of_nat (length audio_array)) n_frames i with
  | Some (start_idx, end_idx) => Some (slice start_idx end_idx audio_array)
  | None => None
  end.

Definition n_bins : nat := 100.

(** "Resize to n_bins" in [animate] of [create_spectrum_video]: the
    spectrum is cut to its first [n_bins] values or padded with zeros at the
    end. *)
Definition resize_to_bins {A : Type} (zero : A) (fft : list A) : list A :=
  if (n_bins <? length fft)%nat then take n_bins fft
  else fft ++ replicate (n_bins - length fft) zero.


(** * Vocabulary of the further properties *)

(** ** Where a key occurs in a response *)

(** [mentions keys obj]: one of [keys] is a key of some dict inside [obj]. *)
Fixpoint mentions (keys : list string) (obj : json) : bool :=
  match obj with
  | JObj fields =>
      existsb (fun key => has_key key fields) keys ||
      (fix any (l : list (string * json)) : bool :=
         match l with
         | [] => false
         | (_, v) :: rest => mentions keys v || any rest
         end) fields
  | JArr elements =>
      (fix any (l : list json) : bool :=
         match l with
         | [] => false
         | item :: rest => mentions keys item || any rest
         end) elements
  | _ => false
  end.

(** [stored_under keys v obj]: [v] is the value of one of [keys] in some dict
    inside [obj]. *)
Fixpoint stored_under (keys : list string) (v : json) (obj : json) : Prop :=
  match obj with
  | JObj fields =>
      (exists key, In key keys /\ lookup_key key fields = Some v) \/
      (fix any (l : list (string * json)) : Prop :=
         match l with
         | [] => False
         | (_, child) :: rest => stored_under keys v child \/ any rest
         end) fields
  | JArr elements =>
      (fix any (l : list json) : Prop :=
         match l with
         | [] => False
         | item :: rest => stored_under keys v item \/ any rest
         end) elements
  | _ => False
  end.

Definition nested_answer : json :=
  JObj [("code", JNum 200);
        ("data", JObj [("response", JObj [("sunoData",
           JArr [JObj [("id", JStr "a1"); ("audioUrl", JStr "https://cdn.example/a.mp3")]])])])].

Definition bare_answer : json :=
  JObj [("code", JNum 200); ("msg", JStr "success"); ("data", JObj [("taskId", JStr "abc")])].

(** ** Counting requests *)

(** [costs n m]: a run of [m] sends at most [n] requests. *)
Definition costs {A : Type} (n : nat) (m : M A) : Prop :=
  forall w, (clock (m w).2 <= clock w + n)%nat.

(** [round_costs n m], for one round of a polling loop: at most [n] requests
    when the round ends the loop, none when the loop goes on. *)
Definition round_costs (n : nat) (m : M (option bool)) : Prop :=
  forall w, (clock (m w).2 <= clock w + match (m w).1 with Ok None => 0 | _ => n end)%nat.

(** The requests of the video leg of the audio poller, when it is asked for:
    one to start the video, then those of the video poller. *)
Definition leg_cost (generate_mp4 : bool) (max_checks : Z) : nat :=
  if generate_mp4 then (3 * Z.to_nat max_checks + 6)%nat else 0%nat.

(** ** What holds after a run *)

(** [hoare P m Q]: started in a world where [P] holds, a run of [m] that
    returns [a] ends in a world where [Q a] holds. *)
Definition hoare {A : Type} (P : world -> Prop) (m : M A) (Q : A -> world -> Prop) : Prop :=
  forall w, P w -> match m w with (Ok a, w') => Q a w' | (Raised _, _) => True end.

(** [since w0 S w]: the trace of [w] is that of [w0] followed by events of
    which [S] holds. *)
Definition since (w0 : world) (S : list event -> Prop) (w : world) : Prop :=
  exists evs, trace w = trace w0 ++ evs /\ S evs.

Definition anything (evs : list event) : Prop := True.

(** [written nonempty path evs]: among [evs] is a write to [path], of
    content that is not empty when [nonempty] is set. *)
Definition written (nonempty : bool) (path : string) (evs : list event) : Prop :=
  exists content, In (Write path content) evs /\ (nonempty = true -> content <> "").

Definition monotone (S : list event -> Prop) : Prop :=
  forall evs evs', S evs -> S (evs ++ evs').

(** An assertion that survives whatever is appended to the trace. *)
Definition stable (P : world -> Prop) : Prop :=
  forall w w', grows (quiet None) w w' -> P w -> P w'.

(** ** Waiting between download attempts *)

(** The durations of the sleeps that a trace records, oldest first. *)
Fixpoint sleeps (tr : list event) : list Z :=
  match tr with
  | [] => []
  | Sleep secs :: rest => secs :: sleeps rest
  | _ :: rest => sleeps rest
  end.

(** The number of requests that a trace records. *)
Fixpoint requests (tr : list event) : nat :=
  match tr with
  | [] => O
  | Net _ :: rest => S (requests rest)
  | _ :: rest => requests rest
  end.

(** No request gets through to the remote side. *)
Definition unreachable (w : world) : Prop := forall i rq, net w i rq = ConnError.

Definition offline : world :=
  World (fun _ _ => ConnError) 0 [] ∅ (fun _ => Some "key") true.

(** ** Endpoints that do not answer *)

(** A reply after which the video resolver moves on to its next endpoint:
    no answer at all, or HTTP 404. *)
Definition moves_on (r : reply) : bool :=
  match r with
  | Got resp => status_code resp =? 404
  | _ => true
  end.

(** A provider that answers HTTP 404 to every request. *)
Definition nowhere : world :=
  World (fun _ _ => Got (Response 404 None [])) 0 [] ∅ (fun _ => Some "key") true.

(** A provider whose first answer is an HTTP 500 and that cannot be reached
    afterwards. *)
Definition broken_then_gone : world :=
  World (fun k _ => match k with O => Got (Response 500 None []) | _ => ConnError end)
        0 [] ∅ (fun _ => Some "key") true.

(** ** What a poller touches *)

(** What the video poller may do: GET requests, console lines, sleeps, and
    writes to its task id record and to the output file. *)
Definition video_poller_may (output_path : string) (e : event) : bool :=
  match e with
  | Net (GET _) => true
  | Net _ => false
  | Write path _ => String.eqb path "last_mp4_task_id.txt" || String.eqb path output_path
  | _ => true
  end.

(** The path of the video file in the video leg of the audio poller. *)
Definition mp4_path_of (output_path : string) (mp4_output_path : option string) : string :=
  match mp4_output_path with
  | Some path => if String.eqb path "" then splitext_root output_path +:+ ".mp4" else path
  | None => splitext_root output_path +:+ ".mp4"
  end.

(** What the audio poller may do: besides what the video poller may do for
    the video file, one kind of POST, the request that starts the video, and
    writes to its own task id record and to the audio file. *)
Definition audio_poller_may (output_path mp4_path : string) (e : event) : bool :=
  match e with
  | Net (GET _) => true
  | Net (POST url _) => String.eqb url (SUNO_API_BASE_URL +:+ "/mp4/generate")
  | Net (MESSAGES _ _ _ _) => false
  | Write path _ =>
      String.eqb path "last_task_id.txt" || String.eqb path output_path
      || String.eqb path "last_mp4_task_id.txt" || String.eqb path mp4_path
  | _ => true
  end.

(** ** What a run of [main] touches *)

(** The lyrics service is not called. *)
Definition no_lyrics (e : event) : bool :=
  match e with
  | Net (MESSAGES _ _ _ _) => false
  | _ => true
  end.

(** No generation is started: nothing is posted but the request for a
    video of an audio track that exists. *)
Definition starts_nothing (e : event) : bool :=
  match e with
  | Net (GET _) => true
  | Net (POST url _) => String.eqb url (SUNO_API_BASE_URL +:+ "/mp4/generate")
  | Net (MESSAGES _ _ _ _) => false
  | _ => true
  end.



Definition bare_check_task : args :=
  Args None "pop" 2 false true false "V3_5" "output.mp3" false 30 10 (Some None) false None
       None.

Definition instrumental_run : args :=
  Args (Some "rain") "ambient" 2 false true true "V3_5" "output.mp3" false 30 10 None false
       None None.

(** ** The shape of results *)

Definition anywhere (w : world) : Prop := True.

(** The standardized structure that [generate_mp4] documents: a dict with a
    boolean [success] and a [data] entry, and with [error] and [error_code]
    when [success] is false. *)
Definition standard_shape (v : json) : bool :=
  match v with
  | JObj fields =>
      match lookup_key "success" fields with
      | Some (JBool true) => has_key "data" fields
      | Some (JBool false) =>
          has_key "data" fields && has_key "error" fields && has_key "error_code" fields
      | _ => false
      end
  | _ => false
  end.

(** [c in s] for a character. *)
Fixpoint contains (c : ascii) (s : string) : bool :=
  match s with
  | String d rest => Ascii.eqb c d || contains c rest
  | EmptyString => false
  end.

(** A lyrics service that answers every request with the same text. *)
Definition songwriter (text : string) : world :=
  World (fun _ _ => Completion text) 0 [] ∅ (fun _ => Some "key") true.

(** An answer of the lyrics service: a title line in Markdown, two lines of
    lyrics, white space around. *)
Definition rain_song : string :=
  "  # Rain Song" +:+ String "010" ("verse one" +:+ String "010" "verse two  ").

(** * Reasoning about runs *)

(** ** Stepping through the monad *)

Lemma bind_run {A B : Type} (m : M A) (f : A -> M B) (w : world) :
  (m ≫= f) w =
  match m w with
  | (Ok a, w') => f a w'
  | (Raised e, w') => (Raised e, w')
  end.
Proof. reflexivity. Qed.

Lemma bind_ok {A B : Type} (m : M A) (f : A -> M B) (w w' : world) (a : A) :
  m w = (Ok a, w') -> (m ≫= f) w = f a w'.
Proof. intros H. rewrite bind_run, H. reflexivity. Qed.

(** ** What a run adds to the trace *)

Lemma grows_refl P w : grows P w w.
Proof. exists []. split; [by rewrite app_nil_r | constructor]. Qed.

Lemma grows_trans P w1 w2 w3 : grows P w1 w2 -> grows P w2 w3 -> grows P w1 w3.
Proof.
  intros (e1 & H1 & F1) (e2 & H2 & F2). exists (e1 ++ e2). split.
  - by rewrite H2, H1, app_assoc.
  - by apply Forall_app.
Qed.

Lemma grows_record P e w : P e = true -> grows P w (record e w).
Proof. intros H. exists [e]. split; [reflexivity | by constructor]. Qed.

Lemma status_checks_app k tr1 tr2 :
  status_checks k (tr1 ++ tr2) = (status_checks k tr1 + status_checks k tr2)%nat.
Proof.
  induction tr1 as [|e tr1 IH]; [reflexivity|].
  destruct e as [| m | |]; simpl; try exact IH.
  destruct m; simpl; try exact IH.
  destruct (same_kind k k0); simpl; by rewrite IH.
Qed.

Lemma status_checks_quiet k evs :
  Forall (fun e => quiet (Some k) e = true) evs -> status_checks k evs = O.
Proof.
  induction 1 as [|e evs He _ IH]; [reflexivity|].
  destruct e as [| m | |]; simpl; try exact IH.
  destruct m; simpl; try exact IH.
  simpl in He. destruct (same_kind k k0); [discriminate | exact IH].
Qed.


Section Rules.
Context {A B : Type}.
Variable P : event -> bool.
Variable C : exn -> bool.

Lemma emits_ret (a : A) : emits P (mret a).
Proof. intros w. apply grows_refl. Qed.

Lemma emits_raise (e : exn) : emits P (raise (A := A) e).
Proof. intros w. apply grows_refl. Qed.

Lemma emits_bind (m : M A) (f : A -> M B) :
emits P m -> (forall a, emits P (f a)) -> emits P (m ≫= f).
Proof.
intros Hm Hf w. rewrite bind_run. specialize (Hm w).
destruct (m w) as [[a | e] w']; simpl in *; [| exact Hm].
eapply grows_trans; [exact Hm | apply Hf].
Qed.

Lemma emits_try_except (body handler : M A) (catches : exn -> bool) :
emits P body -> emits P handler -> emits P (try_except body catches handler).
Proof.
intros Hb Hh w. unfold try_except. specialize (Hb w).
destruct (body w) as [[a | e] w']; simpl in *; [exact Hb |].
destruct (catches e); simpl; [| exact Hb].
eapply grows_trans; [exact Hb | apply Hh].
Qed.

Lemma throws_ret (a : A) : throws C (mret a).
Proof. intros w. exact I. Qed.

Lemma throws_raise (e : exn) : C e = true -> throws C (raise (A := A) e).
Proof. intros H w. exact H. Qed.

Lemma throws_bind (m : M A) (f : A -> M B) :
throws C m -> (forall a, throws C (f a)) -> throws C (m ≫= f).
Proof.
intros Hm Hf w. rewrite bind_run. specialize (Hm w).
destruct (m w) as [[a | e] w']; simpl in *; [apply Hf | exact Hm].
Qed.

(** A handler that catches everything the body can raise. *)
Lemma throws_try_except (C' : exn -> bool) (body handler : M A) (catches : exn -> bool) :
  throws C' body -> throws C handler ->
  (forall e, C' e = true -> catches e = false -> C e = true) ->
  throws C (try_except body catches handler).
Proof.
  intros Hb Hh Hc w. unfold try_except. specialize (Hb w).
  destruct (body w) as [[a | e] w']; simpl in *; [exact I |].
  destruct (catches e) eqn:E; simpl; [apply Hh | by apply Hc].
Qed.
End Rules.

Lemma throws_ok {A : Type} (m : M A) (w : world) :
  throws no_exn m -> exists a w', m w = (Ok a, w').
Proof.
  intros H. specialize (H w). destruct (m w) as [[a | e] w']; simpl in H.
  - by exists a, w'.
  - discriminate.
Qed.

Lemma emits_emit P e : P e = true -> emits P (emit e).
Proof. intros H w. by apply grows_record. Qed.

Lemma emits_print P m : P (Print m) = true -> emits P (print m).
Proof. apply emits_emit. Qed.

Lemma emits_sleep P secs : P (Sleep secs) = true -> emits P (sleep secs).
Proof.
  intros H. unfold sleep. destruct (secs <? 0); [apply emits_raise | by apply emits_emit].
Qed.

Lemma emits_send P rq : P (Net rq) = true -> emits P (send rq).
Proof. intros H w. exists [Net rq]. split; [reflexivity | by constructor]. Qed.

Lemma emits_http P rq : P (Net rq) = true -> emits P (http rq).
Proof.
  intros H. apply emits_bind; [by apply emits_send |].
  intros [| r |]; first [apply emits_raise | apply emits_ret].
Qed.

Lemma emits_requests_get P url :
  (forall u, P (Net (GET u)) = true) -> emits P (requests_get url).
Proof.
  intros H. destruct url; simpl; first [apply emits_raise | by apply emits_http].
Qed.

Lemma emits_response_json P r : emits P (response_json r).
Proof. intros w. unfold response_json. destruct (body r); apply grows_refl. Qed.

Lemma emits_raise_for_status P r : emits P (raise_for_status r).
Proof.
  unfold raise_for_status.
  destruct (_ && _); [apply emits_raise | apply emits_ret].
Qed.

Lemma emits_write_file P path content :
  P (Write path content) = true -> emits P (write_file path content).
Proof. intros H w. exists [Write path content]. split; [reflexivity | by constructor]. Qed.

Lemma emits_write_text P path v :
  (forall content, P (Write path content) = true) -> emits P (write_text path v).
Proof.
  intros H. destruct v; simpl;
    (apply emits_bind; [by apply emits_write_file | intros _]);
    first [apply emits_raise | apply emits_ret].
Qed.

Lemma emits_read_file P path : emits P (read_file path).
Proof. intros w. unfold read_file. destruct (fs w !! path); apply grows_refl. Qed.

Lemma emits_file_nonempty P path : emits P (file_nonempty path).
Proof. intros w. apply grows_refl. Qed.

Lemma emits_os_getenv P name : emits P (os_getenv name).
Proof. intros w. apply grows_refl. Qed.

Lemma emits_py_get P obj key default : emits P (py_get obj key default).
Proof. destruct obj; simpl; first [apply emits_raise | apply emits_ret]. Qed.

Lemma emits_requests_post P url payload :
  (forall u p, P (Net (POST u p)) = true) -> emits P (requests_post url payload).
Proof. intros H. by apply emits_http. Qed.

(** ** The events of each function *)

Ltac leaf :=
  intros;
  match goal with
  | |- quiet ?k _ = true =>
      first [ reflexivity | destruct k as [[|]|]; first [reflexivity | done] ]
  end.

Ltac emits_step :=
  first
    [ apply emits_ret
    | apply emits_raise
    | apply emits_bind; [| intros ?]
    | apply emits_try_except
    | apply emits_print; leaf
    | apply emits_sleep; leaf
    | apply emits_requests_get; leaf
    | apply emits_requests_post; leaf
    | apply emits_send; leaf
    | apply emits_response_json
    | apply emits_raise_for_status
    | apply emits_write_file; leaf
    | apply emits_write_text; leaf
    | apply emits_read_file
    | apply emits_file_nonempty
    | apply emits_os_getenv
    | apply emits_py_get
    | match goal with
      | |- emits _ (if ?b then _ else _) => destruct b
      | |- emits _ (match ?x with _ => _ end) => destruct x
      end ].

Ltac emits_go := repeat emits_step.

(** The same, with lemmas about callees tried first. *)
Tactic Notation "emits_using" tactic3(callee) := repeat first [callee | emits_step].

Section Events.
Variable k : option kind.

Lemma emits_generate_music title lyrics style custom_mode instrumental model :
emits (quiet k) (generate_music title lyrics style custom_mode instrumental model).
Proof. unfold generate_music. emits_go. Qed.

Lemma emits_try_alternate_endpoints endpoints :
emits (quiet k) (try_alternate_endpoints endpoints).
Proof. induction endpoints as [|endpoint rest IH]; simpl; emits_using (exact IH). Qed.

Lemma emits_check_generation_status task_id :
emits (quiet k) (check_generation_status task_id).
Proof.
unfold check_generation_status. emits_using (apply emits_try_alternate_endpoints).
Qed.

Lemma emits_get_status_description status : emits (quiet k) (get_status_description status).
Proof. destruct status; simpl; emits_go. Qed.

Lemma emits_standardize_mp4_response resp_json :
emits (quiet k) (standardize_mp4_response resp_json).
Proof. unfold standardize_mp4_response. cbv zeta. emits_go. Qed.

Lemma emits_generate_mp4 task_id audio_id output_path :
emits (quiet k) (generate_mp4 task_id audio_id output_path).
Proof.
unfold generate_mp4. emits_using (apply emits_standardize_mp4_response).
Qed.

Lemma emits_try_mp4_endpoints endpoints : emits (quiet k) (try_mp4_endpoints endpoints).
Proof. induction endpoints as [|endpoint rest IH]; simpl; emits_using (exact IH). Qed.

Lemma emits_check_mp4_status task_id : emits (quiet k) (check_mp4_status task_id).
Proof. apply emits_try_mp4_endpoints. Qed.

Lemma emits_download_mp4_rounds remaining video_url output_path retry_count max_retries :
emits (quiet k) (download_mp4_rounds remaining video_url output_path retry_count max_retries).
Proof.
revert retry_count. induction remaining as [|remaining IH]; intros retry_count; simpl.
- emits_go.
- cbv zeta. emits_using (apply IH).
Qed.

Lemma emits_download_mp4 video_url output_path max_retries :
emits (quiet k) (download_mp4 video_url output_path max_retries).
Proof. apply emits_download_mp4_rounds. Qed.

Lemma emits_download_music_rounds remaining audio_url output_path retry_count max_retries :
emits (quiet k) (download_music_rounds remaining audio_url output_path retry_count max_retries).
Proof.
revert retry_count. induction remaining as [|remaining IH]; intros retry_count; simpl.
- emits_go.
- cbv zeta. emits_using (apply IH).
Qed.

Lemma emits_download_music audio_url output_path max_retries :
emits (quiet k) (download_music audio_url output_path max_retries).
Proof. apply emits_download_music_rounds. Qed.

Lemma emits_absolute_video_url video_url : emits (quiet k) (absolute_video_url video_url).
Proof. unfold absolute_video_url. emits_go. Qed.

Lemma emits_mp4_on_success output_path task_details data :
emits (quiet k) (mp4_on_success output_path task_details data).
Proof.
unfold mp4_on_success. cbv zeta.
emits_using (first [apply emits_absolute_video_url | apply emits_download_mp4]).
Qed.

(** The video poller prints its own headers, so it is quiet only with
  respect to the audio poller (or to nobody). *)
Hypothesis not_video : k <> Some Video.

Lemma emits_mp4_verdict output_path check_interval task_details :
emits (quiet k) (mp4_verdict output_path check_interval task_details).
Proof.
unfold mp4_verdict. cbv zeta. emits_using (apply emits_mp4_on_success).
Qed.

Lemma emits_mp4_cycle task_id output_path checks max_checks check_interval :
emits (quiet k) (mp4_cycle task_id output_path checks max_checks check_interval).
Proof.
unfold mp4_cycle.
emits_using (first [apply emits_check_mp4_status | apply emits_mp4_verdict]).
Qed.

Lemma emits_mp4_rounds remaining task_id output_path checks max_checks check_interval :
emits (quiet k) (mp4_rounds remaining task_id output_path checks max_checks check_interval).
Proof.
revert checks. induction remaining as [|remaining IH]; intros checks; simpl.
- emits_go.
- apply emits_bind; [apply emits_mp4_cycle |]. intros [result|]; [apply emits_ret | apply IH].
Qed.

Lemma emits_monitor_and_download_mp4 task_id output_path max_checks check_interval :
emits (quiet k) (monitor_and_download_mp4 task_id output_path max_checks check_interval).
Proof. unfold monitor_and_download_mp4. emits_using (apply emits_mp4_rounds). Qed.

Lemma emits_mp4_leg task_id audio_id output_path mp4_output_path max_checks check_interval :
emits (quiet k)
  (mp4_leg task_id audio_id output_path mp4_output_path max_checks check_interval).
Proof.
unfold mp4_leg. cbv zeta.
emits_using (first [apply emits_generate_mp4 | apply emits_monitor_and_download_mp4]).
Qed.

Lemma emits_audio_on_success task_id output_path max_checks check_interval generate_mp4
    mp4_output_path task_details :
  emits (quiet k)
    (audio_on_success task_id output_path max_checks check_interval generate_mp4
       mp4_output_path task_details).
Proof.
  unfold audio_on_success. cbv zeta.
  emits_using (first [apply emits_download_music | apply emits_mp4_leg]).
Qed.
End Events.

(** Every function only ever appends to the trace. *)
Lemma emits_audio_cycle task_id output_path checks max_checks check_interval generate_mp4
    mp4_output_path :
  emits (quiet None)
    (audio_cycle task_id output_path checks max_checks check_interval generate_mp4
       mp4_output_path).
Proof.
  unfold audio_cycle, audio_verdict. cbv zeta.
  emits_using (first [ apply emits_check_generation_status
                     | apply emits_get_status_description
                     | by apply emits_audio_on_success ]).
Qed.

Lemma emits_audio_rounds remaining task_id output_path checks max_checks check_interval
    generate_mp4 mp4_output_path :
  emits (quiet None)
    (audio_rounds remaining task_id output_path checks max_checks check_interval generate_mp4
       mp4_output_path).
Proof.
  revert checks. induction remaining as [|remaining IH]; intros checks; simpl.
  - emits_go.
  - apply emits_bind; [apply emits_audio_cycle |]. intros [result|]; [apply emits_ret | apply IH].
Qed.

(** ** What each function can raise *)

Lemma throws_any {A : Type} (m : M A) : throws any_exn m.
Proof. intros w. by destruct (m w).1. Qed.

Lemma throws_weaken {A : Type} (C C' : exn -> bool) (m : M A) :
  throws C m -> (forall e, C e = true -> C' e = true) -> throws C' m.
Proof. intros H HC w. specialize (H w). destruct (m w).1; [exact I | by apply HC]. Qed.

Lemma throws_emit C e : throws C (emit e).
Proof. intros w. exact I. Qed.

Lemma throws_print C m : throws C (print m).
Proof. apply throws_emit. Qed.

Lemma throws_sleep C secs : 0 <= secs -> throws C (sleep secs).
Proof.
  intros H. unfold sleep. destruct (Z.ltb_spec secs 0); [lia | apply throws_emit].
Qed.

Lemma throws_http C rq : C RequestException = true -> throws C (http rq).
Proof.
  intros H w. unfold http. rewrite bind_run. simpl.
  by destruct (net w (clock w) rq).
Qed.

Lemma throws_requests_get C url : C RequestException = true -> throws C (requests_get url).
Proof. intros H. destruct url; simpl; first [by apply throws_raise | by apply throws_http]. Qed.

Lemma throws_requests_post C url payload :
  C RequestException = true -> throws C (requests_post url payload).
Proof. apply throws_http. Qed.

Lemma throws_response_json C r :
  C JSONDecodeError = true -> C ValueError = true -> throws C (response_json r).
Proof.
  intros H1 H2 w. unfold response_json. destruct (body r); simpl; [exact I |].
  by destruct (requests_ge_2_27 w).
Qed.

Lemma throws_raise_for_status C r : C RequestException = true -> throws C (raise_for_status r).
Proof.
  intros H. unfold raise_for_status. destruct (_ && _); [by apply throws_raise | apply throws_ret].
Qed.

Lemma throws_write_file C path content : throws C (write_file path content).
Proof. intros w. exact I. Qed.

Lemma throws_file_nonempty C path : throws C (file_nonempty path).
Proof. intros w. exact I. Qed.

Ltac throws_step :=
  first
    [ apply throws_ret
    | apply throws_raise; reflexivity
    | apply throws_bind; [| intros ?]
    | apply throws_print
    | apply throws_requests_get; reflexivity
    | apply throws_requests_post; reflexivity
    | apply throws_response_json; reflexivity
    | apply throws_raise_for_status; reflexivity
    | apply throws_write_file
    | apply throws_file_nonempty
    | match goal with
      | |- throws _ (if ?b then _ else _) => destruct b eqn:?
      | |- throws _ (match ?x with _ => _ end) => destruct x eqn:?
      end ].

Tactic Notation "throws_using" tactic3(callee) := repeat first [callee | throws_step].

Lemma download_mp4_rounds_returns remaining video_url output_path retry_count max_retries :
  0 <= retry_count ->
  throws no_exn (download_mp4_rounds remaining video_url output_path retry_count max_retries).
Proof.
  revert retry_count. induction remaining as [|remaining IH]; intros retry_count Hrc; simpl.
  - apply throws_ret.
  - cbv zeta. apply throws_bind.
    + apply (throws_try_except _ is_RequestException).
      * throws_using fail.
      * throws_using (apply throws_sleep; lia).
      * intros e H1 H2. congruence.
    + intros [success|]; [apply throws_ret | apply IH; lia].
Qed.

Lemma download_mp4_returns video_url output_path max_retries :
  throws no_exn (download_mp4 video_url output_path max_retries).
Proof. by apply download_mp4_rounds_returns. Qed.

Lemma download_music_rounds_returns remaining audio_url output_path retry_count max_retries :
  throws no_exn (download_music_rounds remaining audio_url output_path retry_count max_retries).
Proof.
  revert retry_count. induction remaining as [|remaining IH]; intros retry_count; simpl.
  - apply throws_ret.
  - cbv zeta. apply throws_bind.
    + apply (throws_try_except _ any_exn); [apply throws_any | throws_using fail |].
      intros e _ H. discriminate.
    + intros [|]; [apply throws_ret |].
      throws_using (first [apply IH | apply throws_sleep; apply Z.pow_nonneg; lia]).
Qed.

Lemma download_music_returns audio_url output_path max_retries :
  throws no_exn (download_music audio_url output_path max_retries).
Proof. apply download_music_rounds_returns. Qed.


(** [generate_mp4] hands no exception of the HTTP exchange to its caller: the
    transport errors and the JSON decoding errors are caught.  What can
    escape is the [TypeError] of the item assignment in
    [standardize_mp4_response]. *)
Lemma standardize_mp4_response_throws resp_json :
  throws only_TypeError (standardize_mp4_response resp_json).
Proof. unfold standardize_mp4_response. cbv zeta. throws_using fail. Qed.

Lemma generate_mp4_throws task_id audio_id output_path :
  throws only_TypeError (generate_mp4 task_id audio_id output_path).
Proof.
  unfold generate_mp4. cbv zeta.
  apply (throws_try_except _ network_or_TypeError); [| apply throws_ret |].
  - apply throws_bind; [by apply throws_requests_post |]. intros response.
    apply throws_bind.
    + apply (throws_try_except _ is_ValueError); [| apply throws_ret |].
      * throws_using fail.
      * intros e H1 H2. congruence.
    + intros [resp_json|]; [| apply throws_ret].
      throws_using (eapply throws_weaken;
                      [apply standardize_mp4_response_throws | by intros []]).
  - intros [] H1 H2; try discriminate; reflexivity.
Qed.

(** ** Running the primitives *)

Lemma run_ret {A B : Type} (a : A) (f : A -> M B) (w : world) : (mret a ≫= f) w = f a w.
Proof. reflexivity. Qed.

Lemma run_print {B : Type} (m : msg) (f : unit -> M B) (w : world) :
  (print m ≫= f) w = f tt (record (Print m) w).
Proof. reflexivity. Qed.

Lemma run_sleep {B : Type} (secs : Z) (f : unit -> M B) (w : world) :
  0 <= secs -> (sleep secs ≫= f) w = f tt (record (Sleep secs) w).
Proof. intros H. unfold sleep. by destruct (Z.ltb_spec secs 0); [lia|]. Qed.

Lemma run_write_file {B : Type} (path content : string) (f : unit -> M B) (w : world) :
  (write_file path content ≫= f) w = f tt (write_file path content w).2.
Proof. reflexivity. Qed.

Lemma trace_write_file path content w :
  trace (write_file path content w).2 = trace w ++ [Write path content].
Proof. reflexivity. Qed.

Lemma trace_record e w : trace (record e w) = trace w ++ [e].
Proof. reflexivity. Qed.

(** ** Values *)


Lemma truthy_dict fields : fields <> [] -> truthy (JObj fields) = true.
Proof. by destruct fields. Qed.

Lemma in_strs_str v l : in_strs v l = true -> exists s, v = JStr s /\ In s l.
Proof.
  unfold in_strs. intros H. apply existsb_exists in H as (s & Hin & Heq).
  destruct v; try discriminate. apply String.eqb_eq in Heq. subst. by exists s.
Qed.

Lemma eq_int_404 v : eq_int v 404 = true -> v = JNum 404.
Proof.
  destruct v as [| [|] | n | | |]; simpl; try discriminate.
  intros H. apply Z.eqb_eq in H. by subst.
Qed.


(** ** Rounds of the polling loops *)

Lemma audio_cycle_run task_id output_path checks max_checks check_interval generate_mp4
    mp4_output_path w task_details w1 :
  check_generation_status task_id (record (Print (CheckHeader Audio (checks + 1) max_checks)) w)
    = (Ok task_details, w1) ->
  audio_cycle task_id output_path checks max_checks check_interval generate_mp4
    mp4_output_path w
  = audio_verdict task_id output_path max_checks check_interval generate_mp4 mp4_output_path
      task_details w1.
Proof. intros H. unfold audio_cycle. rewrite run_print. by rewrite (bind_ok _ _ _ _ _ H). Qed.

Lemma mp4_cycle_run task_id output_path checks max_checks check_interval w task_details w1 :
  check_mp4_status task_id (record (Print (CheckHeader Video (checks + 1) max_checks)) w)
    = (Ok task_details, w1) ->
  mp4_cycle task_id output_path checks max_checks check_interval w
  = mp4_verdict output_path check_interval task_details w1.
Proof. intros H. unfold mp4_cycle. rewrite run_print. by rewrite (bind_ok _ _ _ _ _ H). Qed.

Lemma audio_rounds_run remaining task_id output_path checks max_checks check_interval
    generate_mp4 mp4_output_path w :
  audio_rounds (S remaining) task_id output_path checks max_checks check_interval
    generate_mp4 mp4_output_path w
  = match audio_cycle task_id output_path checks max_checks check_interval generate_mp4
            mp4_output_path w with
    | (Ok (Some result), w') => (Ok result, w')
    | (Ok None, w') =>
        audio_rounds remaining task_id output_path (checks + 1) max_checks check_interval
          generate_mp4 mp4_output_path w'
    | (Raised e, w') => (Raised e, w')
    end.
Proof.
  cbn [audio_rounds]. rewrite bind_run.
  by destruct (audio_cycle _ _ _ _ _ _ _ w) as [[[result|] | e] w'].
Qed.

Lemma mp4_rounds_run remaining task_id output_path checks max_checks check_interval w :
  mp4_rounds (S remaining) task_id output_path checks max_checks check_interval w
  = match mp4_cycle task_id output_path checks max_checks check_interval w with
    | (Ok (Some result), w') => (Ok result, w')
    | (Ok None, w') =>
        mp4_rounds remaining task_id output_path (checks + 1) max_checks check_interval w'
    | (Raised e, w') => (Raised e, w')
    end.
Proof.
  cbn [mp4_rounds]. rewrite bind_run.
  by destruct (mp4_cycle _ _ _ _ _ w) as [[[result|] | e] w'].
Qed.

Lemma audio_verdict_code_passes task_id output_path max_checks check_interval generate_mp4
    mp4_output_path td w :
  td <> [] ->
  audio_code_stops (get_default "code" JNull td) = false ->
  exists w1,
    trace w1 = trace w ++ code_notices (get_default "code" JNull td) /\
    clock w1 = clock w /\ net w1 = net w /\ fs w1 = fs w /\
    audio_verdict task_id output_path max_checks check_interval generate_mp4 mp4_output_path
      (JObj td) w
    = (status_desc ← get_status_description (audio_status_of td);
       print (CurrentStatus Audio (audio_status_of td) (JStr status_desc));;
       if in_strs (audio_status_of td) audio_success_statuses then
         result ← audio_on_success task_id output_path max_checks check_interval
                    generate_mp4 mp4_output_path (JObj td);
         mret (Some result)
       else if in_strs (audio_status_of td) audio_failure_statuses then
         print (TaskFailed Audio);;
         mret (Some false)
       else
         (if in_strs (audio_status_of td) audio_pending_statuses
          then print (StillProcessing Audio)
          else mret tt);;
         sleep check_interval;;
         mret None) w1.
Proof.
  intros Htd Hcode. unfold audio_verdict.
  rewrite (truthy_dict _ Htd). cbn [negb py_get]. rewrite run_ret.
  rewrite Hcode. unfold code_notices.
  destruct (truthy (get_default "code" JNull td) && negb (eq_int (get_default "code" JNull td) 200))
    eqn:E.
  - unfold audio_code_stops in Hcode. rewrite E in Hcode. simpl in Hcode.
    apply negb_false_iff in Hcode. apply andb_prop in E as [_ E]. apply negb_true_iff in E.
    rewrite E in Hcode. simpl in Hcode. apply eq_int_404 in Hcode. rewrite Hcode.
    exists (record (Print (ApiError Audio (JNum 404))) w). by repeat split.
  - exists w. rewrite app_nil_r. by repeat split.
Qed.


















(** ** A script of pending answers *)

(** The status check when the primary endpoint answers with HTTP 200. *)
Lemma check_generation_status_direct task_id w resp j :
  net w (clock w) (GET (primary_endpoint task_id)) = Got resp ->
  status_code resp = 200 ->
  body resp = Some j ->
  exists w1,
    check_generation_status task_id w = (Ok j, w1)
    /\ trace w1 = trace w ++ [Print (CheckingStatusAt (primary_endpoint task_id));
                              Net (GET (primary_endpoint task_id));
                              Print StatusCheckSuccessful]
    /\ clock w1 = S (clock w) /\ net w1 = net w.
Proof.
  intros Hnet Hcode Hbody. unfold check_generation_status.
  fold (primary_endpoint task_id). rewrite run_print.
  unfold try_except, requests_get, http. rewrite !bind_run.
  cbn [send record net clock]. rewrite Hnet. cbn [mret M_ret].
  rewrite Hcode. cbn [Z.eqb Pos.eqb]. rewrite run_print.
  unfold response_json. rewrite Hbody.
  eexists. split; [reflexivity |]. cbn [trace clock net record].
  by rewrite <- !app_assoc.
Qed.

Lemma pending_not_terminal status :
  in_strs status audio_pending_statuses = true ->
  in_strs status audio_success_statuses = false /\
  in_strs status audio_failure_statuses = false /\
  exists desc, forall w, get_status_description status w = (Ok desc, w).
Proof.
  intros H. apply in_strs_str in H as (s & -> & Hin).
  simpl in Hin. destruct Hin as [<- | [<- | []]]; repeat split; by eexists.
Qed.

(** The audio round on a response whose status is pending. *)
Lemma audio_verdict_pending task_id output_path max_checks check_interval generate_mp4
    mp4_output_path td w :
  0 <= check_interval ->
  audio_code_stops (get_default "code" JNull td) = false ->
  in_strs (audio_status_of td) audio_pending_statuses = true ->
  exists w' evs,
    audio_verdict task_id output_path max_checks check_interval generate_mp4 mp4_output_path
      (JObj td) w = (Ok None, w')
    /\ trace w' = trace w ++ evs ++ [Print (StillProcessing Audio); Sleep check_interval]
    /\ Forall (fun e => is_print e = true /\ announces_success e = false
                        /\ quiet (Some Audio) e = true) evs
    /\ clock w' = clock w /\ net w' = net w.
Proof.
  intros Hint Hcode Hpend.
  assert (Htd : td <> []) by (intros ->; discriminate).
  destruct (audio_verdict_code_passes task_id output_path max_checks check_interval
              generate_mp4 mp4_output_path td w Htd Hcode)
    as (w1 & Htr & Hclock & Hnet & _ & ->).
  destruct (pending_not_terminal _ Hpend) as (Hs & Hf & desc & Hdesc).
  rewrite (bind_ok _ _ _ _ _ (Hdesc w1)), run_print, Hs, Hf, Hpend, run_print.
  rewrite (run_sleep _ _ _ Hint).
  eexists _, (code_notices (get_default "code" JNull td)
              ++ [Print (CurrentStatus Audio (audio_status_of td) (JStr desc))]).
  split; [reflexivity |]. split; [by rewrite !trace_record, Htr, <- !app_assoc |].
  split; [| by split].
  apply Forall_app. split; [| by repeat constructor].
  unfold code_notices. destruct (_ && _); by repeat constructor.
Qed.

Lemma pending_rounds_exhaust remaining task_id output_path max_checks check_interval
    generate_mp4 mp4_output_path :
  0 <= check_interval ->
  forall checks w,
    (forall k rq, (clock w <= k < clock w + remaining)%nat ->
                  pending_reply (net w k rq) = true) ->
    exists w' evs,
      audio_rounds remaining task_id output_path checks max_checks check_interval
        generate_mp4 mp4_output_path w = (Ok false, w')
      /\ trace w' = trace w ++ evs ++ [Print (ExceededMaximumChecks Audio)]
      /\ Forall (fun e => announces_success e = false) evs
      /\ status_checks Audio evs = remaining
      /\ clock w' = (clock w + remaining)%nat.
Proof.
  intros Hint. induction remaining as [|remaining IH]; intros checks w Hscript.
  - exists (record (Print (ExceededMaximumChecks Audio)) w), [].
    split; [reflexivity |]. repeat split; [constructor | simpl; lia].
  - pose proof (Hscript (clock w) (GET (primary_endpoint task_id)) ltac:(lia)) as Hreply.
    unfold pending_reply in Hreply.
    destruct (net w (clock w) (GET (primary_endpoint task_id))) as [| resp |] eqn:Hnet;
      try discriminate.
    apply andb_prop in Hreply as [Hcode200 Hbody]. apply Z.eqb_eq in Hcode200.
    destruct (body resp) as [[| | | | | td] |] eqn:Hb; try discriminate.
    apply andb_prop in Hbody as [Hcode Hpend]. apply negb_true_iff in Hcode.
    destruct (check_generation_status_direct task_id
                (record (Print (CheckHeader Audio (checks + 1) max_checks)) w) resp (JObj td)
                Hnet Hcode200 Hb) as (w1 & Hcheck & Htr1 & Hclock1 & Hnet1).
    destruct (audio_verdict_pending task_id output_path max_checks check_interval
                generate_mp4 mp4_output_path td w1 Hint Hcode Hpend)
      as (w2 & evs & Hv & Htr2 & Hevs & Hclock2 & Hnet2).
    rewrite audio_rounds_run, (audio_cycle_run _ _ _ _ _ _ _ _ _ _ Hcheck), Hv.
    destruct (IH (checks + 1) w2) as (w' & rest & -> & Htr & Hrest & Hcount & Hclock).
    { intros k rq Hk. rewrite Hnet2, Hnet1. apply Hscript.
      rewrite Hclock2, Hclock1 in Hk. cbn [clock record] in Hk. lia. }
    exists w', ([Print (CheckHeader Audio (checks + 1) max_checks);
                 Print (CheckingStatusAt (primary_endpoint task_id));
                 Net (GET (primary_endpoint task_id));
                 Print StatusCheckSuccessful]
                ++ evs ++ [Print (StillProcessing Audio); Sleep check_interval] ++ rest).
    split; [reflexivity |]. split; [| split; [| split]].
    + rewrite Htr, Htr2, Htr1, trace_record. by rewrite <- !app_assoc.
    + repeat (constructor; [reflexivity |]).
      apply Forall_app. split.
      * eapply Forall_impl; [exact Hevs |]. by intros e (_ & ? & _).
      * by repeat (constructor; [reflexivity |]).
    + cbn [status_checks same_kind]. rewrite !status_checks_app. cbn [status_checks].
      rewrite Hcount. f_equal.
      enough (status_checks Audio evs = O) by lia.
      apply status_checks_quiet. eapply Forall_impl; [exact Hevs |]. by intros e (_ & _ & ?).
    + rewrite Hclock, Hclock2, Hclock1. cbn [clock record]. lia.
Qed.

(** C3.  When each of the first [max_checks] status requests is answered
    with a pending status, [monitor_and_download] makes exactly [max_checks]
    status checks (one request each), then reports that the checks ran out
    and returns [False]; it never announces a success on the way. *)
Theorem pending_script_exhausts task_id output_path max_checks check_interval generate_mp4
    mp4_output_path w :
  0 <= check_interval ->
  (forall k rq, (clock w <= k < clock w + Z.to_nat max_checks)%nat ->
                pending_reply (net w k rq) = true) ->
  exists w' evs,
    monitor_and_download task_id output_path max_checks check_interval generate_mp4
      mp4_output_path w = (Ok false, w')
    /\ trace w' = trace w ++ Write "last_task_id.txt" task_id :: evs
                    ++ [Print (ExceededMaximumChecks Audio)]
    /\ Forall (fun e => announces_success e = false) evs
    /\ status_checks Audio evs = Z.to_nat max_checks
    /\ clock w' = (clock w + Z.to_nat max_checks)%nat.
Proof.
  intros Hint Hscript. unfold monitor_and_download. rewrite run_write_file.
  destruct (pending_rounds_exhaust (Z.to_nat max_checks) task_id output_path max_checks
              check_interval generate_mp4 mp4_output_path Hint 0
              (write_file "last_task_id.txt" task_id w).2 Hscript)
    as (w' & evs & Hrun & Htr & Hevs & Hcount & Hclock).
  exists w', evs. split; [exact Hrun |]. split; [| by repeat split].
  rewrite Htr, trace_write_file. by rewrite <- app_assoc.
Qed.

(** ** The two downloaders on an empty file *)

(** C4.  [download_mp4] does not treat a zero-byte file as a failure: when
    the server answers HTTP 200 with an empty body, the first attempt writes
    an empty file and the function returns [True] without a retry. *)
Theorem download_mp4_accepts_empty_file w url output_path max_retries resp :
  0 < max_retries ->
  net w (clock w) (GET url) = Got resp ->
  status_code resp = 200 ->
  chunks resp = [] ->
  exists w',
    download_mp4 (JStr url) output_path max_retries w = (Ok true, w')
    /\ fs w' !! output_path = Some ""
    /\ clock w' = S (clock w)
    /\ trace w' = trace w ++ [Net (GET url); Write output_path ""; Print DownloadComplete].
Proof.
  intros Hmax Hnet Hcode Hchunks. unfold download_mp4.
  destruct (Z.to_nat max_retries) as [|remaining] eqn:E; [lia |].
  cbn [download_mp4_rounds]. rewrite bind_run.
  unfold try_except, requests_get, http, raise_for_status. rewrite !bind_run.
  cbn [send]. rewrite Hnet. cbn [mret M_ret]. rewrite Hcode, Hchunks. cbn.
  eexists. split; [reflexivity |]. cbn.
  split; [apply lookup_insert_eq |]. split; [reflexivity |].
  by rewrite <- !app_assoc.
Qed.

(** [download_music], for comparison, sees the empty file each time, uses up
    its five attempts and returns [False]. *)
Example download_music_retries_empty_file :
  let run := download_music (JStr "https://cdn.example/a.mp3") "output.mp3" 5
               empty_file_server in
  run.1 = Ok false /\ clock run.2 = 5%nat /\ fs run.2 !! "output.mp3" = Some "".
Proof. vm_compute. by repeat split. Qed.

(** ** Status-endpoint resolution *)

(** C5.  The audio status check does not stop at a non-404 error: when the
    primary endpoint answers with an HTTP status that is neither 200 nor 404
    (a 500, say), the resolver goes on to the first alternative endpoint and
    returns what that one answers with HTTP 200. *)
Theorem check_generation_status_falls_through task_id w r0 r1 j :
  net w (clock w) (GET (primary_endpoint task_id)) = Got r0 ->
  status_code r0 <> 200 ->
  status_code r0 <> 404 ->
  net w (S (clock w)) (GET (first_alternate task_id)) = Got r1 ->
  status_code r1 = 200 ->
  body r1 = Some j ->
  exists w',
    check_generation_status task_id w = (Ok j, w')
    /\ clock w' = S (S (clock w))
    /\ trace w' = trace w ++ [Print (CheckingStatusAt (primary_endpoint task_id));
                              Net (GET (primary_endpoint task_id));
                              Print (TryingAlternate (first_alternate task_id));
                              Net (GET (first_alternate task_id));
                              Print (AlternateSucceeded (first_alternate task_id))].
Proof.
  intros Hnet0 Hcode0 _ Hnet1 Hcode1 Hbody. unfold check_generation_status.
  fold (primary_endpoint task_id). rewrite run_print.
  unfold try_except, requests_get, http. rewrite !bind_run.
  cbn [send record net clock]. rewrite Hnet0. cbn [mret M_ret].
  destruct (Z.eqb_spec (status_code r0) 200) as [|_]; [done |].
  cbn [alternate_endpoints try_alternate_endpoints]. fold (first_alternate task_id).
  rewrite run_print. unfold requests_get, http. rewrite !bind_run.
  cbn [send record net clock]. rewrite Hnet1. cbn [mret M_ret].
  rewrite Hcode1. cbn [Z.eqb Pos.eqb]. rewrite run_print.
  unfold response_json. rewrite Hbody.
  eexists. split; [reflexivity |]. cbn [trace clock record].
  split; [reflexivity |]. by rewrite <- !app_assoc.
Qed.

(** The video status check, for comparison, stops there. *)
Lemma check_mp4_status_stops task_id w r0 :
  net w (clock w) (GET (first_mp4_endpoint task_id)) = Got r0 ->
  status_code r0 <> 200 ->
  status_code r0 <> 404 ->
  exists w',
    check_mp4_status task_id w = (Ok JNull, w')
    /\ clock w' = S (clock w)
    /\ trace w' = trace w ++ [Print (CheckingMp4StatusAt (first_mp4_endpoint task_id));
                              Net (GET (first_mp4_endpoint task_id));
                              Print (Mp4StatusCheckError (status_code r0))].
Proof.
  intros Hnet Hcode Hnot404. unfold check_mp4_status.
  cbn [mp4_status_endpoints try_mp4_endpoints]. fold (first_mp4_endpoint task_id).
  rewrite bind_run. unfold try_except. rewrite run_print.
  unfold requests_get, http. rewrite !bind_run.
  cbn [send record net clock]. rewrite Hnet. cbn [mret M_ret].
  destruct (Z.eqb_spec (status_code r0) 200) as [|_]; [done |].
  destruct (Z.eqb_spec (status_code r0) 404) as [|_]; [done |].
  cbn [negb]. rewrite run_print. cbn [mret M_ret].
  eexists. split; [reflexivity |]. cbn [trace clock record].
  split; [reflexivity |]. by rewrite <- !app_assoc.
Qed.

(** ** Application error codes *)

(** C6.  The video poller does not classify the application error code: a
    response that carries code 404 ("not found yet") makes it return [False]
    in that very round, like any other code that is not 200. *)
Theorem mp4_poller_fails_on_404 remaining task_id output_path checks max_checks
    check_interval w td w1 :
  check_mp4_status task_id (record (Print (CheckHeader Video (checks + 1) max_checks)) w)
    = (Ok (JObj td), w1) ->
  get_default "code" JNull td = JNum 404 ->
  mp4_rounds (S remaining) task_id output_path checks max_checks check_interval w
  = (Ok false, record (Print (ApiError Video (JNum 404))) w1).
Proof.
  intros Hcheck Hcode.
  assert (Htd : td <> []) by (intros ->; discriminate).
  rewrite mp4_rounds_run, (mp4_cycle_run _ _ _ _ _ _ _ _ Hcheck).
  unfold mp4_verdict. rewrite (truthy_dict _ Htd). cbn [negb py_get].
  by rewrite run_ret, Hcode.
Qed.

(** The audio poller, for comparison, lets code 404 pass. *)
Lemma audio_poller_passes_404 : audio_code_stops (JNum 404) = false.
Proof. reflexivity. Qed.

(** ** The video submission *)

Lemma lookup_key_set_item_ne key key' v fields :
  key <> key' -> lookup_key key (set_item key' v fields) = lookup_key key fields.
Proof.
  intros Hne. induction fields as [|[k old] rest IH]; simpl.
  - destruct (String.eqb_spec key' key); congruence.
  - destruct (String.eqb_spec k key'), (String.eqb_spec k key); simpl;
      destruct (String.eqb_spec k key); congruence.
Qed.

(** C10.  [generate_mp4] does not return a dict on every path: when the
    provider answers HTTP 200 with application code 200, a task identifier at
    the root and a [data] field that is not a dict ([null], say), the item
    assignment [resp_json["data"]["taskId"] = task_id] raises [TypeError],
    which the function does not catch. *)
Theorem generate_mp4_raises_on_data_that_is_no_dict task_id audio_id output_path w resp
    fields data :
  (forall rq, net w (clock w) rq = Got resp) ->
  status_code resp = 200 ->
  body resp = Some (JObj fields) ->
  eq_int (get_default "code" JNull fields) 200 = true ->
  lookup_key "data" fields = Some data ->
  is_dict data = false ->
  has_key "taskId" fields = true ->
  exists w', generate_mp4 task_id audio_id output_path w = (Raised TypeError, w').
Proof.
  intros Hnet Hcode Hbody Happ Hdata Hdict Hroot. unfold generate_mp4. cbv zeta.
  unfold try_except at 1, requests_post, http. rewrite !bind_run.
  cbn [send]. rewrite Hnet. cbn [mret M_ret].
  unfold try_except, response_json. rewrite Hbody. rewrite !bind_run. cbn [mret M_ret].
  rewrite Hcode. cbn [Z.eqb Pos.eqb]. rewrite Happ. cbn [negb].
  unfold standardize_mp4_response. cbv zeta.
  assert (Hd : lookup_key "data" (set_item "success" (JBool true) fields) = Some data)
    by (by rewrite lookup_key_set_item_ne).
  assert (Hk : has_key "data" (set_item "success" (JBool true) fields) = true)
    by (unfold has_key; by rewrite Hd).
  assert (Hr : exists root_id,
             lookup_key "taskId" (set_item "success" (JBool true) fields) = Some root_id).
  { unfold has_key in Hroot. rewrite lookup_key_set_item_ne by done.
    destruct (lookup_key "taskId" fields); [by eexists | discriminate]. }
  destruct Hr as (root_id & Hr). rewrite Hk, Hd, Hr.
  destruct data; try discriminate; by eexists.
Qed.

(** ** The order of persisting and polling *)

(** C8, as stated, fails: in the scenario above the poller succeeds and
    downloads the audio, and the task identifier was written before the
    first status check. *)
Lemma persisted_after_success_fails :
  (monitor_and_download "abc123" "output.mp3" 30 10 false None midnight_drive).1 = Ok true
  /\ ~ persisted_after_success "output.mp3"
        (trace (monitor_and_download "abc123" "output.mp3" 30 10 false None midnight_drive).2).
Proof.
  split; [by vm_compute |].
  intros H.
  destruct (H [] "abc123"
              (tail (trace (monitor_and_download "abc123" "output.mp3" 30 10 false None
                              midnight_drive).2)))
    as [[] _].
  by vm_compute.
Qed.

(** C8, amended.  [monitor_and_download] persists the task identifier
    first, before the first status check and whatever the outcome of the
    polling: the write of [last_task_id.txt] is the first thing the run adds
    to the trace. *)
Theorem task_id_persisted_before_polling task_id output_path max_checks check_interval
    generate_mp4 mp4_output_path w :
  exists evs,
    trace (monitor_and_download task_id output_path max_checks check_interval generate_mp4
             mp4_output_path w).2
    = trace w ++ Write "last_task_id.txt" task_id :: evs.
Proof.
  unfold monitor_and_download. rewrite run_write_file.
  destruct (emits_audio_rounds (Z.to_nat max_checks) task_id output_path 0 max_checks
              check_interval generate_mp4 mp4_output_path
              (write_file "last_task_id.txt" task_id w).2) as (evs & Htr & _).
  exists evs. rewrite Htr, trace_write_file. by rewrite <- app_assoc.
Qed.

(** ** Resuming a video task without a sidecar file *)

(** C9.  [main], called with a bare [--check-mp4-task] when there is no
    [last_mp4_task_id.txt], prints one line and returns: no request is sent
    and no file is written.  With the API keys in place the line is the one
    that reports the missing file. *)
Theorem check_mp4_task_without_sidecar a w :
  check_mp4_task a = Some None ->
  fs w !! "last_mp4_task_id.txt" = None ->
  exists m w',
    main a w = (Ok tt, w')
    /\ trace w' = trace w ++ [Print m]
    /\ clock w' = clock w
    /\ fs w' = fs w
    /\ (nonempty (getenv w "SUNO_API_KEY") = true ->
        instrumental a || nonempty (getenv w "ANTHROPIC_API_KEY") = true ->
        m = NoTaskIdFile Video).
Proof.
  intros Hflag Hfile. unfold main, os_getenv. rewrite bind_run. cbn [fst snd].
  destruct (nonempty (getenv w "SUNO_API_KEY")) eqn:Hsuno; cbn [negb].
  - rewrite bind_run.
    destruct (instrumental a) eqn:Hinst; cbn [negb andb orb].
    + rewrite Hflag. cbn [flag_given]. rewrite bind_run.
      unfold try_except, read_file. rewrite bind_run, Hfile. cbn [is_FileNotFoundError].
      rewrite run_print. cbn [mret M_ret].
      by exists (NoTaskIdFile Video), (record (Print (NoTaskIdFile Video)) w).
    + destruct (nonempty (getenv w "ANTHROPIC_API_KEY")) eqn:Hanth; cbn [negb].
      * rewrite Hflag. cbn [flag_given]. rewrite bind_run.
        unfold try_except, read_file. rewrite bind_run, Hfile. cbn [is_FileNotFoundError].
        rewrite run_print. cbn [mret M_ret].
        by exists (NoTaskIdFile Video), (record (Print (NoTaskIdFile Video)) w).
      * exists AnthropicKeyMissing, (record (Print AnthropicKeyMissing) w).
        repeat split. intros _ [=].
  - exists SunoKeyMissing, (record (Print SunoKeyMissing) w).
    repeat split. intros [=].
Qed.

(** ** The extractor and the first non-empty match *)

(** C1.  On a response whose [data.audio_url] is present but empty,
    [find_audio_url] returns the empty value instead of the first non-empty
    match in probe order, which sits at [data.results[0]]; the same holds of
    [find_audio_id].  The probe under [data] tests membership only, where the
    top-level probe and the recursive search test the value. *)
Theorem find_audio_url_returns_empty_match :
  find_audio_url early_success_answer = JStr ""
  /\ extract_first_nonempty audio_url_keys "audio_url" early_success_answer
     = JStr "https://cdn.example/a.mp3"
  /\ find_audio_id early_success_answer = JStr ""
  /\ extract_first_nonempty audio_id_keys "audioId" early_success_answer = JStr "a1".
Proof. by vm_compute. Qed.

(** Apart from that, the code follows the probe order.  A top-level
    candidate with a non-empty value wins over everything else. *)
Lemma first_nonempty_top_level keys fields rest :
  first_nonempty (omap (fun key => lookup_key key fields) keys ++ rest)
  = match first_truthy keys fields with
    | Some v => Some v
    | None => first_nonempty rest
    end.
Proof.
  induction keys as [|key keys IH]; [reflexivity |]. simpl.
  destruct (lookup_key key fields) as [v|]; simpl; [| exact IH].
  destruct (truthy v); [reflexivity | exact IH].
Qed.

Lemma find_field_top_level_wins keys field fields v :
  first_truthy keys fields = Some v ->
  find_field keys field (JObj fields) = v
  /\ extract_first_nonempty keys field (JObj fields) = v.
Proof.
  intros H. simpl. unfold probe_values. by rewrite first_nonempty_top_level, H.
Qed.

Lemma top_level_audioUrl_wins fields v :
  lookup_key "audioUrl" fields = Some v -> truthy v = true ->
  find_audio_url (JObj fields) = v.
Proof.
  intros Hk Hv. apply find_field_top_level_wins. simpl. by rewrite Hk, Hv.
Qed.

Lemma first_nonempty_data field fields :
  data_hits_nonempty field fields = true ->
  first_nonempty
    match lookup_key "data" fields with
    | Some (JObj data) =>
        option_list (lookup_key field data) ++
        match lookup_key "results" data with
        | Some (JArr (JObj result :: _)) => option_list (lookup_key field result)
        | _ => []
        end
    | _ => []
    end
  = data_probe field fields.
Proof.
  unfold data_hits_nonempty, data_probe.
  destruct (lookup_key "data" fields) as [[| | | | | data] |]; try reflexivity.
  destruct (lookup_key field data) as [v|]; simpl.
  - by intros ->.
  - destruct (lookup_key "results" data) as [[| | | | [|[| | | | | result] ?] |] |];
      try reflexivity.
    destruct (lookup_key field result) as [v|]; simpl; [by intros -> | reflexivity].
Qed.

(** On a response whose [data] probes hit no empty value, the code returns
    the first non-empty match in probe order. *)
Lemma find_field_first_nonempty keys field :
  forall obj, well_filled field obj = true ->
              find_field keys field obj = extract_first_nonempty keys field obj.
Proof.
  fix IH 1. intros [| | | | elements | fields] Hfilled; try reflexivity.
  - simpl in *. induction elements as [|item rest IHrest]; [reflexivity |].
    apply andb_prop in Hfilled as [Hitem Hrest].
    rewrite (IH item Hitem). destruct (truthy _); [reflexivity | by apply IHrest].
  - simpl in *. apply andb_prop in Hfilled as [Hdata Hrest].
    unfold probe_values. rewrite first_nonempty_top_level, (first_nonempty_data _ _ Hdata).
    destruct (first_truthy keys fields); [reflexivity |].
    destruct (data_probe field fields); [reflexivity |].
    clear Hdata. induction fields as [|[key v] rest IHrest]; [reflexivity |].
    apply andb_prop in Hrest as [Hv Hrest].
    rewrite (IH v Hv). destruct (truthy _); [reflexivity | by apply IHrest].
Qed.

(** * Concrete runs *)


Lemma pending_script_exhausts_witness :
  0 <= 10
  /\ (forall k rq, (clock (always pending_answer) <= k
                    < clock (always pending_answer) + Z.to_nat 3)%nat ->
                   pending_reply (net (always pending_answer) k rq) = true)
  /\ exists w' evs,
       monitor_and_download "abc123" "output.mp3" 3 10 false None (always pending_answer)
       = (Ok false, w')
       /\ trace w' = trace (always pending_answer) ++ Write "last_task_id.txt" "abc123" :: evs
                       ++ [Print (ExceededMaximumChecks Audio)]
       /\ Forall (fun e => announces_success e = false) evs
       /\ status_checks Audio evs = Z.to_nat 3
       /\ clock w' = (clock (always pending_answer) + Z.to_nat 3)%nat.
Proof.
  split; [lia |]. split; [intros k rq _; reflexivity |].
  apply (pending_script_exhausts "abc123" "output.mp3" 3 10 false None (always pending_answer));
    [lia | intros k rq _; reflexivity].
Defined.


Lemma check_mp4_task_without_sidecar_witness :
  check_mp4_task bare_check_mp4_task = Some None
  /\ fs (always pending_answer) !! "last_mp4_task_id.txt" = None
  /\ exists m w',
       main bare_check_mp4_task (always pending_answer) = (Ok tt, w')
       /\ trace w' = trace (always pending_answer) ++ [Print m]
       /\ clock w' = clock (always pending_answer)
       /\ fs w' = fs (always pending_answer)
       /\ (nonempty (getenv (always pending_answer) "SUNO_API_KEY") = true ->
           instrumental bare_check_mp4_task
           || nonempty (getenv (always pending_answer) "ANTHROPIC_API_KEY") = true ->
           m = NoTaskIdFile Video).
Proof.
  split; [reflexivity |]. split; [reflexivity |].
  apply (check_mp4_task_without_sidecar bare_check_mp4_task (always pending_answer));
    reflexivity.
Defined.

Lemma download_mp4_accepts_empty_file_witness :
  exists w',
    download_mp4 (JStr "https://cdn.example/v.mp4") "output.mp4" 5 empty_file_server
    = (Ok true, w')
    /\ fs w' !! "output.mp4" = Some ""
    /\ clock w' = 1%nat.
Proof.
  destruct (download_mp4_accepts_empty_file empty_file_server "https://cdn.example/v.mp4"
              "output.mp4" 5 (Response 200 None []))
    as (w' & Hrun & Hfile & Hclock & _); [lia | reflexivity | reflexivity | reflexivity |].
  by exists w'.
Defined.

Lemma check_generation_status_falls_through_witness :
  exists w',
    check_generation_status "abc123" (once_broken pending_answer) = (Ok pending_answer, w')
    /\ clock w' = 2%nat.
Proof.
  destruct (check_generation_status_falls_through "abc123" (once_broken pending_answer)
              (Response 500 None []) (Response 200 (Some pending_answer) []) pending_answer)
    as (w' & Hrun & Hclock & _);
    [reflexivity | discriminate | discriminate | reflexivity | reflexivity | reflexivity |].
  by exists w'.
Defined.

Lemma mp4_poller_fails_on_404_witness :
  mp4_rounds 30 "v1" "output.mp4" 0 30 10
    (write_file "last_mp4_task_id.txt" "v1" (always not_found_answer)).2
  = (Ok false,
     record (Print (ApiError Video (JNum 404)))
            (first_video_check "v1" 30 (always not_found_answer))).
Proof.
  apply (mp4_poller_fails_on_404 29%nat "v1" "output.mp4" 0 30 10
           (write_file "last_mp4_task_id.txt" "v1" (always not_found_answer)).2
           (fields_of not_found_answer)); reflexivity.
Defined.

Lemma generate_mp4_raises_on_data_that_is_no_dict_witness :
  exists w',
    generate_mp4 "abc123" (JStr "a1") "output.mp4" (always root_task_id_answer)
    = (Raised TypeError, w').
Proof.
  apply (generate_mp4_raises_on_data_that_is_no_dict "abc123" (JStr "a1") "output.mp4"
           (always root_task_id_answer) (Response 200 (Some root_task_id_answer) [])
           (fields_of root_task_id_answer) JNull); reflexivity.
Defined.

(** * Further properties of the code *)

(** ** The extractors *)

Lemma first_truthy_absent keys fields :
  existsb (fun key => has_key key fields) keys = false -> first_truthy keys fields = None.
Proof.
  induction keys as [|key keys IH]; [reflexivity |]. simpl. unfold has_key at 1.
  destruct (lookup_key key fields); [discriminate |]. exact IH.
Qed.

Lemma first_present_absent keys fields :
  existsb (fun key => has_key key fields) keys = false -> first_present keys fields = None.
Proof.
  induction keys as [|key keys IH]; [reflexivity |]. simpl. unfold has_key at 1.
  destruct (lookup_key key fields); [discriminate |]. exact IH.
Qed.

Lemma has_key_absent keys key fields :
  In key keys -> existsb (fun key => has_key key fields) keys = false ->
  lookup_key key fields = None.
Proof.
  intros Hin Hex. destruct (lookup_key key fields) eqn:E; [| reflexivity].
  assert (existsb (fun key => has_key key fields) keys = true); [| congruence].
  apply existsb_exists. exists key. split; [exact Hin |]. unfold has_key. by rewrite E.
Qed.

(** A child reached through a key is among the children. *)
Lemma mentions_child keys key fields v :
  (fix any (l : list (string * json)) : bool :=
     match l with
     | [] => false
     | (_, v) :: rest => mentions keys v || any rest
     end) fields = false ->
  lookup_key key fields = Some v -> mentions keys v = false.
Proof.
  induction fields as [|[k c] rest IH]; [discriminate |]. simpl.
  intros H. apply orb_false_elim in H as [Hc Hrest].
  destruct (String.eqb k key); [by intros [= <-] | by apply IH].
Qed.

Lemma mentions_dict keys fields :
  mentions keys (JObj fields) = false ->
  existsb (fun key => has_key key fields) keys = false /\
  forall key v, lookup_key key fields = Some v -> mentions keys v = false.
Proof.
  simpl. intros H. apply orb_false_elim in H as [Htop Hrest].
  split; [exact Htop |]. intros key v. by apply mentions_child.
Qed.

Lemma data_probe_absent keys field fields :
  In field keys -> mentions keys (JObj fields) = false -> data_probe field fields = None.
Proof.
  intros Hin H. apply mentions_dict in H as [_ Hchild]. unfold data_probe.
  destruct (lookup_key "data" fields) as [[| | | | | data] |] eqn:Edata; try reflexivity.
  apply Hchild in Edata. apply mentions_dict in Edata as [Hdata Hgrand].
  rewrite (has_key_absent _ _ _ Hin Hdata).
  destruct (lookup_key "results" data) as [[| | | | [|[| | | | | result] ?] |] |] eqn:Eres;
    try reflexivity.
  apply Hgrand in Eres. simpl in Eres. apply orb_false_elim in Eres as [Eres _].
  apply mentions_dict in Eres as [Hres _]. exact (has_key_absent _ _ _ Hin Hres).
Qed.

Lemma find_field_absent keys field :
  In field keys ->
  forall obj, mentions keys obj = false -> find_field keys field obj = JNull.
Proof.
  intros Hin. fix IH 1. intros [| | | | elements | fields] H; try reflexivity.
  - simpl in *. induction elements as [|item rest IHrest]; [reflexivity |].
    apply orb_false_elim in H as [Hitem Hrest].
    rewrite (IH item Hitem). simpl. by apply IHrest.
  - cbn [find_field].
    rewrite (first_truthy_absent keys fields) by apply (mentions_dict _ _ H).
    rewrite (data_probe_absent keys field fields Hin H).
    simpl in H. apply orb_false_elim in H as [_ H].
    induction fields as [|[key v] rest IHrest]; [reflexivity |].
    apply orb_false_elim in H as [Hv Hrest].
    rewrite (IH v Hv). simpl. by apply IHrest.
Qed.

(** X1.  A response in which none of the candidate keys occurs, at any
    depth, has no audio URL and no audio identifier: both extractors return
    [None]. *)
Theorem extractors_find_nothing obj :
  (mentions audio_url_keys obj = false -> find_audio_url obj = JNull)
  /\ (mentions audio_id_keys obj = false -> find_audio_id obj = JNull).
Proof.
  split; intros H; apply find_field_absent; try exact H; simpl; tauto.
Qed.

Lemma extractors_find_nothing_witness :
  mentions audio_url_keys bare_answer = false
  /\ mentions audio_id_keys bare_answer = false
  /\ find_audio_url bare_answer = JNull /\ find_audio_id bare_answer = JNull.
Proof.
  split; [reflexivity |]. split; [reflexivity |].
  split; [apply (proj1 (extractors_find_nothing bare_answer)); reflexivity
         | apply (proj2 (extractors_find_nothing bare_answer)); reflexivity].
Defined.

Lemma first_truthy_stored keys fields v :
  first_truthy keys fields = Some v ->
  exists key, In key keys /\ lookup_key key fields = Some v.
Proof.
  induction keys as [|key keys IH]; [discriminate |]. simpl.
  destruct (lookup_key key fields) as [c|] eqn:E.
  - destruct (truthy c).
    + intros [= <-]. exists key. by split; [left |].
    + intros H. destruct (IH H) as (k & Hin & Hk). exists k. by split; [right |].
  - intros H. destruct (IH H) as (k & Hin & Hk). exists k. by split; [right |].
Qed.

Lemma stored_under_child keys v key fields child :
  lookup_key key fields = Some child ->
  stored_under keys v child ->
  (fix any (l : list (string * json)) : Prop :=
     match l with
     | [] => False
     | (_, child) :: rest => stored_under keys v child \/ any rest
     end) fields.
Proof.
  induction fields as [|[k c] rest IH]; [discriminate |]. simpl.
  destruct (String.eqb k key); [intros [= ->]; by left | intros H1 H2; right; by apply IH].
Qed.

Lemma data_probe_stored keys field fields v :
  In field keys -> data_probe field fields = Some v -> stored_under keys v (JObj fields).
Proof.
  intros Hin. unfold data_probe.
  destruct (lookup_key "data" fields) as [[| | | | | data] |] eqn:Edata; try discriminate.
  intros H. right. apply (stored_under_child _ _ _ _ _ Edata). simpl.
  destruct (lookup_key field data) as [c|] eqn:Efield.
  - injection H as ->. left. by exists field.
  - destruct (lookup_key "results" data) as [[| | | | [|[| | | | | result] ?] |] |] eqn:Eres;
      try discriminate.
    right. apply (stored_under_child _ _ _ _ _ Eres). simpl. left. left. by exists field.
Qed.

Lemma find_field_stored keys field :
  In field keys ->
  forall obj, find_field keys field obj <> JNull ->
              stored_under keys (find_field keys field obj) obj.
Proof.
  intros Hin. fix IH 1. intros [| | | | elements | fields] H; try done.
  - simpl in *. induction elements as [|item rest IHrest]; [done |].
    destruct (truthy (find_field keys field item)) eqn:E.
    + left. apply IH. intros Hnull. by rewrite Hnull in E.
    + right. by apply IHrest.
  - cbn [find_field] in *.
    destruct (first_truthy keys fields) as [v|] eqn:Etop.
    { left. by apply first_truthy_stored. }
    destruct (data_probe field fields) as [v|] eqn:Edata.
    { by apply (data_probe_stored keys field). }
    right. clear Etop Edata.
    induction fields as [|[key v] rest IHrest]; [done |].
    destruct (truthy (find_field keys field v)) eqn:E.
    + left. apply IH. intros Hnull. by rewrite Hnull in E.
    + right. by apply IHrest.
Qed.

(** X2.  The extractors make nothing up: whatever [find_audio_url] or
    [find_audio_id] returns, other than [None], is the value stored under one
    of the candidate keys in some dict of the response. *)
Theorem extractors_return_stored_values obj :
  (find_audio_url obj <> JNull -> stored_under audio_url_keys (find_audio_url obj) obj)
  /\ (find_audio_id obj <> JNull -> stored_under audio_id_keys (find_audio_id obj) obj).
Proof.
  split; intros H; apply find_field_stored; try exact H; simpl; tauto.
Qed.

Lemma extractors_return_stored_values_witness :
  find_audio_url nested_answer <> JNull
  /\ find_audio_id nested_answer <> JNull
  /\ stored_under audio_url_keys (find_audio_url nested_answer) nested_answer
  /\ stored_under audio_id_keys (find_audio_id nested_answer) nested_answer.
Proof.
  split; [discriminate |]. split; [discriminate |].
  split; [apply (proj1 (extractors_return_stored_values nested_answer)); discriminate
         | apply (proj2 (extractors_return_stored_values nested_answer)); discriminate].
Defined.

(** X3.  On a response whose probes under [data] hit no empty value, at any
    depth, both extractors return the first non-empty match in probe order:
    top-level candidate keys, [data], [data.results[0]], then the members in
    order, each searched the same way. *)
Theorem extractors_first_nonempty obj :
  (well_filled "audio_url" obj = true ->
   find_audio_url obj = extract_first_nonempty audio_url_keys "audio_url" obj)
  /\ (well_filled "audioId" obj = true ->
      find_audio_id obj = extract_first_nonempty audio_id_keys "audioId" obj).
Proof. split; apply find_field_first_nonempty. Qed.

Lemma extractors_first_nonempty_witness :
  well_filled "audio_url" nested_answer = true
  /\ well_filled "audioId" nested_answer = true
  /\ find_audio_url nested_answer
     = extract_first_nonempty audio_url_keys "audio_url" nested_answer
  /\ find_audio_id nested_answer = extract_first_nonempty audio_id_keys "audioId" nested_answer.
Proof.
  split; [reflexivity |]. split; [reflexivity |].
  split; [apply (proj1 (extractors_first_nonempty nested_answer)); reflexivity
         | apply (proj2 (extractors_first_nonempty nested_answer)); reflexivity].
Defined.

Lemma find_url_absent keys :
  forall obj, mentions keys obj = false -> find_url obj keys = JNull.
Proof.
  fix IH 1. intros [| | | | elements | fields] H; try reflexivity.
  - simpl in *. induction elements as [|item rest IHrest]; [reflexivity |].
    apply orb_false_elim in H as [Hitem Hrest].
    rewrite (IH item Hitem). simpl. by apply IHrest.
  - cbn [find_url].
    rewrite (first_present_absent keys fields) by apply (mentions_dict _ _ H).
    simpl in H. apply orb_false_elim in H as [_ H].
    induction fields as [|[key v] rest IHrest]; [reflexivity |].
    apply orb_false_elim in H as [Hv Hrest].
    rewrite (IH v Hv). simpl. by apply IHrest.
Qed.

Lemma first_present_stored keys fields v :
  first_present keys fields = Some v ->
  exists key, In key keys /\ lookup_key key fields = Some v.
Proof.
  induction keys as [|key keys IH]; [discriminate |]. simpl.
  destruct (lookup_key key fields) as [c|] eqn:E.
  - intros [= <-]. exists key. by split; [left |].
  - intros H. destruct (IH H) as (k & Hin & Hk). exists k. by split; [right |].
Qed.

Lemma find_url_stored keys :
  forall obj, find_url obj keys <> JNull -> stored_under keys (find_url obj keys) obj.
Proof.
  fix IH 1. intros [| | | | elements | fields] H; try done.
  - simpl in *. induction elements as [|item rest IHrest]; [done |].
    destruct (truthy (find_url item keys)) eqn:E.
    + left. apply IH. intros Hnull. by rewrite Hnull in E.
    + right. by apply IHrest.
  - cbn [find_url] in *.
    destruct (first_present keys fields) as [v|] eqn:Etop.
    { left. by apply first_present_stored. }
    right. clear Etop.
    induction fields as [|[key v] rest IHrest]; [done |].
    destruct (truthy (find_url v keys)) eqn:E.
    + left. apply IH. intros Hnull. by rewrite Hnull in E.
    + right. by apply IHrest.
Qed.

(** X4.  The nested search helpers ([find_status], [find_task_id] and the
    [find_url] of the video poller) return [None] when the key occurs nowhere
    in the response, and otherwise a value that is stored under the key (one
    of the keys) in some dict of the response. *)
Theorem search_helpers_return_stored_values obj keys :
  (mentions keys obj = false -> find_url obj keys = JNull)
  /\ (find_url obj keys <> JNull -> stored_under keys (find_url obj keys) obj)
  /\ (mentions ["status"] obj = false -> find_status obj = JNull)
  /\ (find_status obj <> JNull -> stored_under ["status"] (find_status obj) obj)
  /\ (mentions ["taskId"] obj = false -> find_task_id obj = JNull)
  /\ (find_task_id obj <> JNull -> stored_under ["taskId"] (find_task_id obj) obj).
Proof.
  repeat split; first [apply find_url_absent | apply find_url_stored].
Qed.

Lemma search_helpers_return_stored_values_witness :
  find_task_id bare_answer = JStr "abc"
  /\ stored_under ["taskId"] (find_task_id bare_answer) bare_answer
  /\ find_status bare_answer = JNull.
Proof.
  destruct (search_helpers_return_stored_values bare_answer ["status"])
    as (_ & _ & Hnone & _ & _ & Hstored).
  split; [reflexivity |]. split; [apply Hstored; discriminate | apply Hnone; reflexivity].
Defined.

(** ** The number of requests *)

Section Costs.
Context {A B : Type}.

Lemma costs_ret n (a : A) : costs n (mret a).
Proof. intros w. simpl. lia. Qed.

Lemma costs_raise n (e : exn) : costs n (raise (A := A) e).
Proof. intros w. simpl. lia. Qed.

Lemma costs_weaken n n' (m : M A) : (n <= n')%nat -> costs n m -> costs n' m.
Proof. intros Hle H w. specialize (H w). lia. Qed.

Lemma costs_bind a b (m : M A) (f : A -> M B) :
  costs a m -> (forall x, costs b (f x)) -> costs (a + b) (m ≫= f).
Proof.
  intros Hm Hf w. rewrite bind_run. specialize (Hm w).
  destruct (m w) as [[x | e] w']; simpl in *; [| lia].
  specialize (Hf x w'). lia.
Qed.

Lemma costs_bind_free n (m : M A) (f : A -> M B) :
  costs 0 m -> (forall x, costs n (f x)) -> costs n (m ≫= f).
Proof. intros Hm Hf. by apply (costs_bind 0 n). Qed.

Lemma costs_bind_paid n (m : M A) (f : A -> M B) :
  costs 1 m -> (forall x, costs n (f x)) -> costs (S n) (m ≫= f).
Proof. intros Hm Hf. by apply (costs_bind 1 n). Qed.

Lemma costs_try_except n (body handler : M A) (catches : exn -> bool) :
  costs n body -> costs 0 handler -> costs n (try_except body catches handler).
Proof.
  intros Hb Hh w. unfold try_except. specialize (Hb w).
  destruct (body w) as [[a | e] w']; simpl in *; [exact Hb |].
  destruct (catches e); simpl; [| exact Hb]. specialize (Hh w'). lia.
Qed.
End Costs.

Lemma costs_emit n e : costs n (emit e).
Proof. intros w. simpl. lia. Qed.

Lemma costs_print n m : costs n (print m).
Proof. apply costs_emit. Qed.

Lemma costs_sleep n secs : costs n (sleep secs).
Proof. unfold sleep. destruct (secs <? 0); [apply costs_raise | apply costs_emit]. Qed.

Lemma costs_send n rq : costs (S n) (send rq).
Proof. intros w. simpl. lia. Qed.

Lemma costs_http n rq : costs (S n) (http rq).
Proof.
  unfold http. apply costs_bind_paid; [apply costs_send |].
  intros [| r |]; first [apply costs_raise | apply costs_ret].
Qed.

Lemma costs_requests_get n url : costs (S n) (requests_get url).
Proof. destruct url; simpl; first [apply costs_raise | apply costs_http]. Qed.

Lemma costs_requests_post n url payload : costs (S n) (requests_post url payload).
Proof. apply costs_http. Qed.

Lemma costs_response_json n r : costs n (response_json r).
Proof. intros w. unfold response_json. destruct (body r); simpl; lia. Qed.

Lemma costs_raise_for_status n r : costs n (raise_for_status r).
Proof. unfold raise_for_status. destruct (_ && _); [apply costs_raise | apply costs_ret]. Qed.

Lemma costs_write_file n path content : costs n (write_file path content).
Proof. intros w. simpl. lia. Qed.

Lemma costs_write_text n path v : costs n (write_text path v).
Proof.
  destruct v; simpl; (apply costs_bind_free; [apply costs_write_file | intros _]);
    first [apply costs_raise | apply costs_ret].
Qed.

Lemma costs_read_file n path : costs n (read_file path).
Proof. intros w. unfold read_file. destruct (fs w !! path); simpl; lia. Qed.

Lemma costs_file_nonempty n path : costs n (file_nonempty path).
Proof. intros w. simpl. lia. Qed.

Lemma costs_os_getenv n name : costs n (os_getenv name).
Proof. intros w. simpl. lia. Qed.

Lemma costs_py_get n obj key default : costs n (py_get obj key default).
Proof. destruct obj; simpl; first [apply costs_raise | apply costs_ret]. Qed.

Ltac costs_free :=
  first
    [ apply costs_print | apply costs_sleep | apply costs_response_json
    | apply costs_raise_for_status | apply costs_write_file | apply costs_write_text
    | apply costs_read_file | apply costs_file_nonempty | apply costs_os_getenv
    | apply costs_py_get | apply costs_ret | apply costs_raise ].

Ltac costs_step :=
  first
    [ costs_free
    | apply costs_requests_get
    | apply costs_requests_post
    | apply costs_http
    | apply costs_bind_free; [solve [costs_free] | intros ?]
    | apply costs_bind_paid;
        [first [apply costs_requests_get | apply costs_requests_post
               | apply costs_http | apply costs_send]
        | intros ?]
    | apply costs_try_except
    | match goal with
      | |- costs _ (if ?b then _ else _) => destruct b
      | |- costs _ (match ?x with _ => _ end) => destruct x
      end ].

Tactic Notation "costs_using" tactic3(callee) := repeat first [callee | costs_step].

Lemma costs_try_alternate_endpoints endpoints :
  costs (length endpoints) (try_alternate_endpoints endpoints).
Proof.
  induction endpoints as [|endpoint rest IH]; simpl; costs_using (exact IH).
Qed.

Lemma costs_check_generation_status task_id : costs 5 (check_generation_status task_id).
Proof.
  unfold check_generation_status.
  costs_using (apply (costs_try_alternate_endpoints (alternate_endpoints task_id))).
Qed.

Lemma costs_try_mp4_endpoints endpoints :
  costs (length endpoints) (try_mp4_endpoints endpoints).
Proof.
  induction endpoints as [|endpoint rest IH]; simpl; [costs_using fail |].
  apply (costs_bind 1 (length rest)).
  - costs_using fail.
  - intros [value|]; [apply costs_ret | exact IH].
Qed.

Lemma costs_check_mp4_status task_id : costs 3 (check_mp4_status task_id).
Proof. apply (costs_try_mp4_endpoints (mp4_status_endpoints task_id)). Qed.

(** X5.  One status check sends at most five requests for an audio task (the
    primary endpoint and four alternatives) and at most three for a video
    task. *)
Theorem status_check_request_bound task_id w :
  (clock (check_generation_status task_id w).2 <= clock w + 5)%nat
  /\ (clock (check_mp4_status task_id w).2 <= clock w + 3)%nat.
Proof. split; [apply costs_check_generation_status | apply costs_check_mp4_status]. Qed.

Lemma costs_generate_music title lyrics style custom_mode instrumental model :
  costs 1 (generate_music title lyrics style custom_mode instrumental model).
Proof. unfold generate_music. cbv zeta. costs_using fail. Qed.

Lemma costs_standardize_mp4_response n resp_json : costs n (standardize_mp4_response resp_json).
Proof. unfold standardize_mp4_response. cbv zeta. costs_using fail. Qed.

Lemma costs_generate_mp4 task_id audio_id output_path :
  costs 1 (generate_mp4 task_id audio_id output_path).
Proof.
  unfold generate_mp4. cbv zeta. apply costs_try_except; [|apply costs_ret].
  apply costs_bind_paid; [apply costs_requests_post | intros response].
  apply costs_bind_free.
  - apply costs_try_except; [|apply costs_ret].
    apply costs_bind_free; [apply costs_response_json | intros ?; apply costs_ret].
  - intros parsed. costs_using (apply costs_standardize_mp4_response).
Qed.

Lemma costs_download_mp4_rounds remaining video_url output_path retry_count max_retries :
  costs remaining (download_mp4_rounds remaining video_url output_path retry_count max_retries).
Proof.
  revert retry_count. induction remaining as [|remaining IH]; intros retry_count; simpl.
  - apply costs_ret.
  - cbv zeta. apply (costs_bind 1 remaining).
    + costs_using fail.
    + intros [success|]; [apply costs_ret | apply IH].
Qed.

Lemma costs_download_music_rounds remaining audio_url output_path retry_count max_retries :
  costs remaining
    (download_music_rounds remaining audio_url output_path retry_count max_retries).
Proof.
  revert retry_count. induction remaining as [|remaining IH]; intros retry_count; simpl.
  - apply costs_ret.
  - cbv zeta. apply (costs_bind 1 remaining).
    + costs_using fail.
    + intros [|]; costs_using (apply IH).
Qed.

(** X6.  Neither downloader raises, whatever the server does, and each sends
    at most [max_retries] requests. *)
Theorem downloaders_are_bounded url output_path max_retries w :
  (exists success w',
      download_music url output_path max_retries w = (Ok success, w')
      /\ (clock w' <= clock w + Z.to_nat max_retries)%nat)
  /\ (exists success w',
         download_mp4 url output_path max_retries w = (Ok success, w')
         /\ (clock w' <= clock w + Z.to_nat max_retries)%nat).
Proof.
  split.
  - destruct (throws_ok _ w (download_music_returns url output_path max_retries))
      as (success & w' & H).
    exists success, w'. split; [exact H |].
    pose proof (costs_download_music_rounds (Z.to_nat max_retries) url output_path 0
                  max_retries w) as Hc.
    unfold download_music in H. by rewrite H in Hc.
  - destruct (throws_ok _ w (download_mp4_returns url output_path max_retries))
      as (success & w' & H).
    exists success, w'. split; [exact H |].
    pose proof (costs_download_mp4_rounds (Z.to_nat max_retries) url output_path 0
                  max_retries w) as Hc.
    unfold download_mp4 in H. by rewrite H in Hc.
Qed.

(** ** How many requests the pollers send *)

Lemma round_costs_free n (m : M (option bool)) : costs 0 m -> round_costs n m.
Proof. intros H w. specialize (H w). destruct (m w).1 as [[?|]|]; lia. Qed.

Lemma round_costs_final n (m : M bool) :
  costs n m -> round_costs n (result ← m; mret (Some result)).
Proof.
  intros H w. specialize (H w). rewrite bind_run.
  destruct (m w) as [[result | e] w1]; simpl in *; lia.
Qed.

Lemma round_costs_bind_free {A : Type} n (m : M A) (f : A -> M (option bool)) :
  costs 0 m -> (forall x, round_costs n (f x)) -> round_costs n (m ≫= f).
Proof.
  intros Hm Hf w. specialize (Hm w). rewrite bind_run.
  destruct (m w) as [[a | e] w1]; simpl in *.
  - specialize (Hf a w1). destruct (f a w1).1 as [[?|]|]; lia.
  - lia.
Qed.

Lemma costs_get_status_description n status : costs n (get_status_description status).
Proof. destruct status; simpl; first [apply costs_raise | apply costs_ret]. Qed.

Lemma costs_absolute_video_url n video_url : costs n (absolute_video_url video_url).
Proof. unfold absolute_video_url. costs_using fail. Qed.

Lemma costs_mp4_on_success output_path task_details data :
  costs 5 (mp4_on_success output_path task_details data).
Proof.
  unfold mp4_on_success. cbv zeta. apply costs_bind_free; [apply costs_print | intros _].
  apply costs_bind_free; [apply costs_absolute_video_url | intros video_url].
  destruct (truthy _).
  - apply costs_bind_free; [apply costs_print | intros _].
    apply (costs_download_mp4_rounds 5).
  - costs_using fail.
Qed.

Ltac round_costs_step :=
  first
    [ apply round_costs_free; solve [costs_using fail]
    | apply round_costs_bind_free;
        [solve [first [apply costs_get_status_description | costs_using fail]] | intros ?]
    | match goal with
      | |- round_costs _ (if ?b then _ else _) => destruct b
      | |- round_costs _ (match ?x with _ => _ end) => destruct x
      end ].

Lemma round_costs_mp4_verdict output_path check_interval task_details :
  round_costs 5 (mp4_verdict output_path check_interval task_details).
Proof.
  unfold mp4_verdict. cbv zeta.
  repeat first [ apply round_costs_final; apply costs_mp4_on_success | round_costs_step ].
Qed.

Lemma round_costs_mp4_cycle task_id output_path checks max_checks check_interval w :
  (clock (mp4_cycle task_id output_path checks max_checks check_interval w).2
   <= clock w + 3
      + match (mp4_cycle task_id output_path checks max_checks check_interval w).1 with
        | Ok None => 0
        | _ => 5
        end)%nat.
Proof.
  unfold mp4_cycle. rewrite run_print.
  pose proof (costs_check_mp4_status task_id
                (record (Print (CheckHeader Video (checks + 1) max_checks)) w)) as Hc.
  rewrite bind_run. destruct (check_mp4_status _ _) as [[task_details | e] w1]; simpl in *.
  - pose proof (round_costs_mp4_verdict output_path check_interval task_details w1) as Hv.
    destruct (mp4_verdict _ _ _ _).1 as [[?|]|]; lia.
  - lia.
Qed.

Lemma costs_mp4_rounds remaining task_id output_path checks max_checks check_interval :
  costs (3 * remaining + 5)
    (mp4_rounds remaining task_id output_path checks max_checks check_interval).
Proof.
  revert checks. induction remaining as [|remaining IH]; intros checks w.
  - simpl. lia.
  - rewrite mp4_rounds_run.
    pose proof (round_costs_mp4_cycle task_id output_path checks max_checks check_interval w)
      as Hc.
    destruct (mp4_cycle _ _ _ _ _ w) as [[[result|] | e] w1]; simpl in *; try lia.
    specialize (IH (checks + 1) w1). simpl in IH. lia.
Qed.

Lemma costs_monitor_and_download_mp4 task_id output_path max_checks check_interval :
  costs (3 * Z.to_nat max_checks + 5)
    (monitor_and_download_mp4 task_id output_path max_checks check_interval).
Proof.
  unfold monitor_and_download_mp4.
  apply costs_bind_free; [apply costs_write_file | intros _]. apply costs_mp4_rounds.
Qed.

(** X7.  The video poller sends at most three requests per allowed check and
    at most five more for the download. *)
Theorem video_poller_request_bound task_id output_path max_checks check_interval w :
  (clock (monitor_and_download_mp4 task_id output_path max_checks check_interval w).2
   <= clock w + 3 * Z.to_nat max_checks + 5)%nat.
Proof.
  pose proof (costs_monitor_and_download_mp4 task_id output_path max_checks check_interval w).
  lia.
Qed.

Lemma costs_mp4_leg task_id audio_id output_path mp4_output_path max_checks check_interval :
  costs (3 * Z.to_nat max_checks + 6)
    (mp4_leg task_id audio_id output_path mp4_output_path max_checks check_interval).
Proof.
  unfold mp4_leg. cbv zeta. apply costs_try_except; [| apply costs_print].
  replace (3 * Z.to_nat max_checks + 6)%nat with (1 + (3 * Z.to_nat max_checks + 5))%nat
    by lia.
  apply costs_bind; [apply costs_generate_mp4 | intros mp4_response].
  assert (forall m : M unit, costs 0 m -> costs (3 * Z.to_nat max_checks + 5) m) as Hfree.
  { intros m Hm. apply (costs_weaken 0); [lia | exact Hm]. }
  assert (forall response : json,
            costs (3 * Z.to_nat max_checks + 5)
              (success ← py_get response "success" (JBool false);
               if truthy success then
                 print Mp4GenerationStarted;;
                 data ← py_get response "data" (JObj []);
                 mp4_task_id ← py_get data "taskId" JNull;
                 if truthy mp4_task_id then
                   id ← write_text "last_mp4_task_id.txt" mp4_task_id;
                   monitor_and_download_mp4 id
                     match mp4_output_path with
                     | Some path =>
                         if String.eqb path "" then splitext_root output_path +:+ ".mp4"
                         else path
                     | None => splitext_root output_path +:+ ".mp4"
                     end max_checks check_interval;;
                   mret tt
                 else print NoMp4TaskIdReturned
               else print FailedToStartMp4)) as Hbody.
  { intros response.
    apply costs_bind_free; [apply costs_py_get | intros success].
    destruct (truthy success); [| apply costs_print].
    apply costs_bind_free; [apply costs_print | intros _].
    apply costs_bind_free; [apply costs_py_get | intros data].
    apply costs_bind_free; [apply costs_py_get | intros mp4_task_id].
    destruct (truthy mp4_task_id); [| apply costs_print].
    apply costs_bind_free; [apply costs_write_text | intros id].
    replace (3 * Z.to_nat max_checks + 5)%nat with ((3 * Z.to_nat max_checks + 5) + 0)%nat
      by lia.
    apply costs_bind; [apply costs_monitor_and_download_mp4 | intros _; apply costs_ret]. }
  destruct mp4_response; first [apply Hfree; apply costs_print | apply Hbody].
Qed.

Lemma costs_audio_on_success task_id output_path max_checks check_interval generate_mp4
    mp4_output_path task_details :
  costs (5 + leg_cost generate_mp4 max_checks)
    (audio_on_success task_id output_path max_checks check_interval generate_mp4
       mp4_output_path task_details).
Proof.
  unfold audio_on_success. cbv zeta. apply costs_bind_free; [apply costs_print | intros _].
  destruct (truthy (find_audio_url task_details)).
  - apply costs_bind_free; [apply costs_print | intros _].
    apply costs_bind; [apply (costs_download_music_rounds 5) | intros success].
    replace (leg_cost generate_mp4 max_checks)
      with (leg_cost generate_mp4 max_checks + 0)%nat by lia.
    apply costs_bind; [| intros _; apply costs_ret].
    unfold leg_cost. destruct generate_mp4; simpl; [| apply costs_ret].
    destruct (truthy (find_audio_id task_details) && success);
      [apply costs_mp4_leg | apply costs_ret].
  - costs_using fail.
Qed.

Lemma round_costs_audio_verdict task_id output_path max_checks check_interval generate_mp4
    mp4_output_path task_details :
  round_costs (5 + leg_cost generate_mp4 max_checks)
    (audio_verdict task_id output_path max_checks check_interval generate_mp4
       mp4_output_path task_details).
Proof.
  unfold audio_verdict. cbv zeta.
  repeat first [ apply round_costs_final; apply costs_audio_on_success | round_costs_step ].
Qed.

Lemma round_costs_audio_cycle task_id output_path checks max_checks check_interval
    generate_mp4 mp4_output_path w :
  (clock (audio_cycle task_id output_path checks max_checks check_interval generate_mp4
            mp4_output_path w).2
   <= clock w + 5
      + match (audio_cycle task_id output_path checks max_checks check_interval generate_mp4
                 mp4_output_path w).1 with
        | Ok None => 0
        | _ => 5 + leg_cost generate_mp4 max_checks
        end)%nat.
Proof.
  unfold audio_cycle. rewrite run_print.
  pose proof (costs_check_generation_status task_id
                (record (Print (CheckHeader Audio (checks + 1) max_checks)) w)) as Hc.
  rewrite bind_run.
  destruct (check_generation_status _ _) as [[task_details | e] w1]; simpl in *.
  - pose proof (round_costs_audio_verdict task_id output_path max_checks check_interval
                  generate_mp4 mp4_output_path task_details w1) as Hv.
    destruct (audio_verdict _ _ _ _ _ _ _ _).1 as [[?|]|]; lia.
  - lia.
Qed.

Lemma costs_audio_rounds remaining task_id output_path checks max_checks check_interval
    generate_mp4 mp4_output_path :
  costs (5 * remaining + 5 + leg_cost generate_mp4 max_checks)
    (audio_rounds remaining task_id output_path checks max_checks check_interval
       generate_mp4 mp4_output_path).
Proof.
  revert checks. induction remaining as [|remaining IH]; intros checks w.
  - simpl. lia.
  - rewrite audio_rounds_run.
    pose proof (round_costs_audio_cycle task_id output_path checks max_checks check_interval
                  generate_mp4 mp4_output_path w) as Hc.
    destruct (audio_cycle _ _ _ _ _ _ _ w) as [[[result|] | e] w1]; simpl in *; try lia.
    specialize (IH (checks + 1) w1). simpl in IH. lia.
Qed.

(** X8.  The audio poller sends at most five requests per allowed check and
    five for the download; with the video leg, one more to start the video
    and what the video poller sends. *)
Theorem audio_poller_request_bound task_id output_path max_checks check_interval
    generate_mp4 mp4_output_path w :
  (clock (monitor_and_download task_id output_path max_checks check_interval generate_mp4
            mp4_output_path w).2
   <= clock w + 5 * Z.to_nat max_checks + 5
      + (if generate_mp4 then 3 * Z.to_nat max_checks + 6 else 0))%nat.
Proof.
  unfold monitor_and_download. rewrite run_write_file.
  pose proof (costs_audio_rounds (Z.to_nat max_checks) task_id output_path 0 max_checks
                check_interval generate_mp4 mp4_output_path
                (write_file "last_task_id.txt" task_id w).2) as H.
  unfold leg_cost in H. simpl in H. simpl. lia.
Qed.

(** ** What holds after a run *)

Section Triples.
Context {A B : Type}.

Lemma hoare_ret (P : world -> Prop) (a : A) (Q : A -> world -> Prop) :
  (forall w, P w -> Q a w) -> hoare P (mret a) Q.
Proof. intros H w Hw. by apply H. Qed.

Lemma hoare_raise (P : world -> Prop) (e : exn) (Q : A -> world -> Prop) :
  hoare P (raise e) Q.
Proof. by intros w Hw. Qed.

Lemma hoare_bind (R : A -> world -> Prop) (P : world -> Prop) (m : M A) (f : A -> M B)
    (Q : B -> world -> Prop) :
  hoare P m R -> (forall a, hoare (R a) (f a) Q) -> hoare P (m ≫= f) Q.
Proof.
  intros Hm Hf w Hw. specialize (Hm w Hw). rewrite bind_run.
  destruct (m w) as [[a | e] w1]; [by apply Hf | done].
Qed.

Lemma hoare_frame (P : world -> Prop) (m : M A) :
  stable P -> emits (quiet None) m -> hoare P m (fun _ => P).
Proof.
  intros HP Hm w Hw. specialize (Hm w).
  destruct (m w) as [[a | e] w1]; [by apply (HP w) | done].
Qed.

Lemma hoare_bind_frame (P : world -> Prop) (m : M A) (f : A -> M B)
    (Q : B -> world -> Prop) :
  stable P -> emits (quiet None) m -> (forall a, hoare P (f a) Q) -> hoare P (m ≫= f) Q.
Proof. intros HP Hm Hf. apply (hoare_bind (fun _ => P)); [by apply hoare_frame | exact Hf]. Qed.

Lemma hoare_keep (P : world -> Prop) (m : M A) (Q : A -> world -> Prop) :
  stable P -> emits (quiet None) m -> hoare P m Q -> hoare P m (fun a w => P w /\ Q a w).
Proof.
  intros HP Hm HQ w Hw. specialize (Hm w). specialize (HQ w Hw).
  destruct (m w) as [[a | e] w1]; [| done]. split; [by apply (HP w) | exact HQ].
Qed.
End Triples.

Lemma monotone_anything : monotone anything.
Proof. by intros evs evs' _. Qed.

Lemma monotone_written nonempty path : monotone (written nonempty path).
Proof.
  intros evs evs' (content & Hin & Hne). exists content. split; [| exact Hne].
  apply in_or_app. by left.
Qed.

Lemma stable_since w0 S : monotone S -> stable (since w0 S).
Proof.
  intros HS w w' (evs' & Htr & _) (evs & Hw & Hevs). exists (evs ++ evs').
  split; [by rewrite Htr, Hw, app_assoc | by apply HS].
Qed.

Lemma stable_impl (cond : Prop) (P : world -> Prop) :
  stable P -> stable (fun w => cond -> P w).
Proof. intros HP w w' Hg Hw Hc. apply (HP w); [exact Hg | by apply Hw]. Qed.

Lemma since_refl w : since w anything w.
Proof. exists []. by rewrite app_nil_r. Qed.

(** What happened after [w], seen from an earlier world [w0]. *)
Lemma since_earlier nonempty path w0 w w' :
  since w0 anything w -> since w (written nonempty path) w' ->
  since w0 (written nonempty path) w'.
Proof.
  intros (evs0 & Hw & _) (evs & Hw' & content & Hin & Hne). exists (evs0 ++ evs).
  split; [by rewrite Hw', Hw, app_assoc |].
  exists content. split; [apply in_or_app; by right | exact Hne].
Qed.

Lemma bind_inv {A B : Type} (m : M A) (f : A -> M B) (w w' : world) (b : B) :
  (m ≫= f) w = (Ok b, w') -> exists a w1, m w = (Ok a, w1) /\ f a w1 = (Ok b, w').
Proof.
  rewrite bind_run. destruct (m w) as [[a | e] w1]; [| discriminate].
  intros H. by exists a, w1.
Qed.

(** ** What a successful download leaves behind *)

Lemma grows_since P w w' : grows P w w' -> since w anything w'.
Proof. intros (evs & Htr & _). by exists evs. Qed.

Lemma emits_run {A : Type} P (m : M A) w r w' : emits P m -> m w = (r, w') -> grows P w w'.
Proof. intros Hm Hrun. specialize (Hm w). by rewrite Hrun in Hm. Qed.

Lemma download_music_rounds_saved remaining audio_url output_path retry_count max_retries
    w w' :
  download_music_rounds remaining audio_url output_path retry_count max_retries w
    = (Ok true, w') ->
  since w (written true output_path) w'
  /\ exists content, fs w' !! output_path = Some content /\ content <> "".
Proof.
  revert retry_count w. induction remaining as [|remaining IH]; intros retry_count w;
    [discriminate |].
  cbn [download_music_rounds]. cbv zeta. intros H.
  apply bind_inv in H as (saved & w1 & Htry & Hrest).
  match type of Htry with
  | ?m w = _ => assert (emits (quiet None) m) as Hgrows by emits_go
  end.
  apply (fun H => emits_run _ _ _ _ _ H Htry) in Hgrows.
  destruct saved.
  - injection Hrest as <-. clear IH Hgrows. unfold try_except in Htry.
    rewrite run_print in Htry.
    match type of Htry with
    | context [match ?body with _ => _ end] => destruct body as [[done | e] wb] eqn:Hbody
    end; [| rewrite run_print in Htry; discriminate].
    injection Htry as -> ->.
    apply bind_inv in Hbody as (response & w2 & Hget & Hbody).
    apply bind_inv in Hbody as ([] & w3 & Hstatus & Hbody).
    rewrite run_write_file, run_print in Hbody.
    unfold file_nonempty in Hbody. rewrite bind_run in Hbody.
    cbn [fs record write_file snd] in Hbody. rewrite lookup_insert_eq in Hbody.
    destruct (String.eqb_spec (String.concat "" (chunks response)) "") as [Hempty | Hfull];
      cbn [negb] in Hbody; rewrite run_print in Hbody; [discriminate |].
    injection Hbody as <-. split.
    + apply (since_earlier _ _ _ w3).
      * apply (grows_since (quiet None)).
        apply (grows_trans _ _ (record (Print (DownloadAttempt (retry_count + 1) max_retries)) w));
          [by apply grows_record |].
        apply (grows_trans _ _ w2).
        -- by apply (emits_run _ _ _ _ _ (emits_requests_get _ audio_url (fun _ => eq_refl)) Hget).
        -- apply (emits_run _ _ _ _ _ (emits_raise_for_status _ response) Hstatus).
      * exists [Write output_path (String.concat "" (chunks response)); Print DownloadComplete;
                Print (FileSaved output_path)].
        split; [cbn [trace record write_file snd]; by rewrite <- !app_assoc |].
        exists (String.concat "" (chunks response)). split; [by left | done].
    + exists (String.concat "" (chunks response)).
      split; [cbn [fs record write_file snd]; by rewrite lookup_insert_eq | done].
  - rewrite run_print in Hrest. apply bind_inv in Hrest as ([] & w2 & Hsleep & Hrest).
    apply IH in Hrest as [Hsince Hfile]. split; [| exact Hfile].
    apply (since_earlier _ _ _ w2); [| exact Hsince].
    apply (grows_since (quiet None)). apply (grows_trans _ _ w1); [exact Hgrows |].
    apply (grows_trans _ _ (record (Print (RetryingIn (2 ^ retry_count))) w1));
      [by apply grows_record |].
    by apply (emits_run _ _ _ _ _ (emits_sleep _ (2 ^ retry_count) eq_refl) Hsleep).
Qed.

Lemma download_mp4_rounds_saved remaining video_url output_path retry_count max_retries
    w w' :
  download_mp4_rounds remaining video_url output_path retry_count max_retries w
    = (Ok true, w') ->
  since w (written false output_path) w' /\ is_Some (fs w' !! output_path).
Proof.
  revert retry_count w. induction remaining as [|remaining IH]; intros retry_count w;
    [discriminate |].
  cbn [download_mp4_rounds]. cbv zeta. intros H.
  apply bind_inv in H as (returned & w1 & Htry & Hrest).
  match type of Htry with
  | ?m w = _ => assert (emits (quiet None) m) as Hgrows by emits_go
  end.
  apply (fun H => emits_run _ _ _ _ _ H Htry) in Hgrows.
  destruct returned as [success|].
  - injection Hrest as -> <-. clear IH Hgrows. unfold try_except in Htry.
    match type of Htry with
    | context [match ?body with _ => _ end] => destruct body as [[done | e] wb] eqn:Hbody
    end.
    + injection Htry as -> ->.
      apply bind_inv in Hbody as (response & w2 & Hget & Hbody).
      apply bind_inv in Hbody as ([] & w3 & Hstatus & Hbody).
      rewrite run_write_file, run_print in Hbody. injection Hbody as <-. split.
      * apply (since_earlier _ _ _ w3).
        -- apply (grows_since (quiet None)). apply (grows_trans _ _ w2).
           ++ by apply (emits_run _ _ _ _ _
                          (emits_requests_get _ video_url (fun _ => eq_refl)) Hget).
           ++ apply (emits_run _ _ _ _ _ (emits_raise_for_status _ response) Hstatus).
        -- exists [Write output_path (String.concat "" (chunks response));
                   Print DownloadComplete].
           split; [cbn [trace record write_file snd]; by rewrite <- !app_assoc |].
           exists (String.concat "" (chunks response)). split; [by left | done].
      * exists (String.concat "" (chunks response)).
        cbn [fs record write_file snd]. by rewrite lookup_insert_eq.
    + destruct (is_RequestException e); [| discriminate].
      cbv zeta in Htry. rewrite run_print in Htry.
      destruct (retry_count + 1 <? max_retries).
      * rewrite run_print in Htry. apply bind_inv in Htry as ([] & ? & _ & Htry).
        discriminate.
      * rewrite run_print in Htry. discriminate.
  - apply IH in Hrest as [Hsince Hfile]. split; [| exact Hfile].
    apply (since_earlier _ _ _ w1); [| exact Hsince].
    by apply (grows_since (quiet None)).
Qed.

(** ** What a poller has done when it reports success *)

Ltac hoare_pre := first [ apply stable_since; apply monotone_anything
                        | apply stable_impl; apply stable_since; apply monotone_written ].

Ltac hoare_quiet :=
  solve [ emits_using (first [ apply emits_check_generation_status
                             | apply emits_check_mp4_status
                             | apply emits_get_status_description
                             | apply emits_absolute_video_url ]) ].

Ltac hoare_step :=
  first
    [ apply hoare_raise
    | apply hoare_ret; by intros ? ? [=]
    | apply hoare_bind_frame; [hoare_pre | hoare_quiet | intros ?]
    | match goal with
      | |- hoare _ (if ?b then _ else _) _ => destruct b
      | |- hoare _ (match ?x with _ => _ end) _ => destruct x
      end ].

Tactic Notation "hoare_using" tactic3(callee) := repeat first [callee | hoare_step].

Lemma hoare_download_music w0 audio_url output_path max_retries :
  hoare (since w0 anything) (download_music audio_url output_path max_retries)
        (fun success w => success = true -> since w0 (written true output_path) w).
Proof.
  intros w Hw. destruct (download_music _ _ _ w) as [[success | e] w1] eqn:Hrun; [| done].
  intros ->. apply download_music_rounds_saved in Hrun as [Hsaved _].
  by apply (since_earlier _ _ _ w).
Qed.

Lemma hoare_download_mp4 w0 video_url output_path max_retries :
  hoare (since w0 anything) (download_mp4 video_url output_path max_retries)
        (fun success w => success = true -> since w0 (written false output_path) w).
Proof.
  intros w Hw. destruct (download_mp4 _ _ _ w) as [[success | e] w1] eqn:Hrun; [| done].
  intros ->. apply download_mp4_rounds_saved in Hrun as [Hsaved _].
  by apply (since_earlier _ _ _ w).
Qed.

(** A final branch of a round: the verdict is what the branch returns. *)
Lemma hoare_final (P : world -> Prop) (m : M bool) (Q : world -> Prop) :
  hoare P m (fun result w => result = true -> Q w) ->
  hoare P (result ← m; mret (Some result)) (fun returned w => returned = Some true -> Q w).
Proof.
  intros Hm. apply (hoare_bind (fun result w => result = true -> Q w)); [exact Hm |].
  intros result. apply hoare_ret. intros w Hw [= ->]. by apply Hw.
Qed.

(** The loop around the rounds. *)
Lemma hoare_rounds (P Q : world -> Prop) (cycle : M (option bool)) (rest : M bool) :
  hoare P cycle (fun returned w => P w /\ (returned = Some true -> Q w)) ->
  hoare P rest (fun result w => result = true -> Q w) ->
  hoare P (returned ← cycle; match returned with Some result => mret result | None => rest end)
        (fun result w => result = true -> Q w).
Proof.
  intros Hcycle Hrest.
  apply (hoare_bind (fun returned w => P w /\ (returned = Some true -> Q w)));
    [exact Hcycle |].
  intros [result|].
  - apply hoare_ret. intros w [_ Hw] ->. by apply Hw.
  - intros w [Hw _]. by apply Hrest.
Qed.

Lemma hoare_mp4_on_success w0 output_path task_details data :
  hoare (since w0 anything) (mp4_on_success output_path task_details data)
        (fun result w => result = true -> since w0 (written false output_path) w).
Proof.
  unfold mp4_on_success. cbv zeta. hoare_using (apply hoare_download_mp4).
Qed.

Lemma hoare_mp4_verdict w0 output_path check_interval task_details :
  hoare (since w0 anything) (mp4_verdict output_path check_interval task_details)
        (fun returned w => returned = Some true -> since w0 (written false output_path) w).
Proof.
  unfold mp4_verdict. cbv zeta.
  hoare_using (apply hoare_final; apply hoare_mp4_on_success).
Qed.

Lemma hoare_mp4_cycle w0 task_id output_path checks max_checks check_interval :
  hoare (since w0 anything)
        (mp4_cycle task_id output_path checks max_checks check_interval)
        (fun returned w => returned = Some true -> since w0 (written false output_path) w).
Proof. unfold mp4_cycle. hoare_using (apply hoare_mp4_verdict). Qed.

Lemma hoare_mp4_rounds w0 remaining task_id output_path checks max_checks check_interval :
  hoare (since w0 anything)
        (mp4_rounds remaining task_id output_path checks max_checks check_interval)
        (fun result w => result = true -> since w0 (written false output_path) w).
Proof.
  revert checks. induction remaining as [|remaining IH]; intros checks;
    cbn [mp4_rounds]; [hoare_using fail |].
  apply hoare_rounds; [| apply IH].
  apply hoare_keep; [hoare_pre | by apply emits_mp4_cycle | apply hoare_mp4_cycle].
Qed.

Lemma hoare_audio_on_success w0 task_id output_path max_checks check_interval generate_mp4
    mp4_output_path task_details :
  hoare (since w0 anything)
        (audio_on_success task_id output_path max_checks check_interval generate_mp4
           mp4_output_path task_details)
        (fun result w => result = true -> since w0 (written true output_path) w).
Proof.
  unfold audio_on_success. cbv zeta.
  apply hoare_bind_frame; [hoare_pre | hoare_quiet | intros _].
  destruct (truthy (find_audio_url task_details)); [| hoare_using fail].
  apply hoare_bind_frame; [hoare_pre | hoare_quiet | intros _].
  apply (hoare_bind (fun success w => success = true -> since w0 (written true output_path) w));
    [apply hoare_download_music |].
  intros success. apply hoare_bind_frame; [hoare_pre | | intros _].
  - destruct (_ && _); [by apply emits_mp4_leg | apply emits_ret].
  - apply hoare_ret. by intros w Hw.
Qed.

Lemma hoare_audio_verdict w0 task_id output_path max_checks check_interval generate_mp4
    mp4_output_path task_details :
  hoare (since w0 anything)
        (audio_verdict task_id output_path max_checks check_interval generate_mp4
           mp4_output_path task_details)
        (fun returned w => returned = Some true -> since w0 (written true output_path) w).
Proof.
  unfold audio_verdict. cbv zeta.
  hoare_using (apply hoare_final; apply hoare_audio_on_success).
Qed.

Lemma hoare_audio_cycle w0 task_id output_path checks max_checks check_interval generate_mp4
    mp4_output_path :
  hoare (since w0 anything)
        (audio_cycle task_id output_path checks max_checks check_interval generate_mp4
           mp4_output_path)
        (fun returned w => returned = Some true -> since w0 (written true output_path) w).
Proof. unfold audio_cycle. hoare_using (apply hoare_audio_verdict). Qed.

Lemma hoare_audio_rounds w0 remaining task_id output_path checks max_checks check_interval
    generate_mp4 mp4_output_path :
  hoare (since w0 anything)
        (audio_rounds remaining task_id output_path checks max_checks check_interval
           generate_mp4 mp4_output_path)
        (fun result w => result = true -> since w0 (written true output_path) w).
Proof.
  revert checks. induction remaining as [|remaining IH]; intros checks;
    cbn [audio_rounds]; [hoare_using fail |].
  apply hoare_rounds; [| apply IH].
  apply hoare_keep; [hoare_pre | apply emits_audio_cycle | apply hoare_audio_cycle].
Qed.

(** X10.  A poller reports success only after it has written to
    [output_path] in this very run; what the audio poller wrote there was
    not empty. *)
Theorem poller_success_means_written task_id output_path max_checks check_interval
    generate_mp4 mp4_output_path w w' :
  (monitor_and_download task_id output_path max_checks check_interval generate_mp4
     mp4_output_path w = (Ok true, w') ->
   exists evs, trace w' = trace w ++ evs /\ written true output_path evs)
  /\ (monitor_and_download_mp4 task_id output_path max_checks check_interval w
        = (Ok true, w') ->
      exists evs, trace w' = trace w ++ evs /\ written false output_path evs).
Proof.
  split; intros Hrun.
  - assert (hoare (since w anything)
              (monitor_and_download task_id output_path max_checks check_interval
                 generate_mp4 mp4_output_path)
              (fun result w' => result = true -> since w (written true output_path) w'))
      as Hpoller.
    { unfold monitor_and_download. hoare_using (apply hoare_audio_rounds). }
    specialize (Hpoller w (since_refl w)). rewrite Hrun in Hpoller. by apply Hpoller.
  - assert (hoare (since w anything)
              (monitor_and_download_mp4 task_id output_path max_checks check_interval)
              (fun result w' => result = true -> since w (written false output_path) w'))
      as Hpoller.
    { unfold monitor_and_download_mp4. hoare_using (apply hoare_mp4_rounds). }
    specialize (Hpoller w (since_refl w)). rewrite Hrun in Hpoller. by apply Hpoller.
Qed.

(** X9.  A downloader reports success only when the file is there after the
    call; the audio downloader, only when it is not empty either. *)
Theorem download_success_means_file url output_path max_retries w w' :
  (download_music url output_path max_retries w = (Ok true, w') ->
   exists content, fs w' !! output_path = Some content /\ content <> "")
  /\ (download_mp4 url output_path max_retries w = (Ok true, w') ->
      is_Some (fs w' !! output_path)).
Proof.
  split; intros Hrun.
  - by apply download_music_rounds_saved in Hrun as [_ Hfile].
  - by apply download_mp4_rounds_saved in Hrun as [_ Hfile].
Qed.

Lemma download_success_means_file_witness :
  (exists content,
      fs (download_music (JStr "https://cdn.example/a.mp3") "out.mp3" 5 midnight_drive).2
        !! "out.mp3" = Some content /\ content <> "")
  /\ is_Some (fs (download_mp4 (JStr "https://cdn.example/v.mp4") "out.mp4" 5
                    midnight_drive).2 !! "out.mp4").
Proof.
  split.
  - apply (proj1 (download_success_means_file (JStr "https://cdn.example/a.mp3") "out.mp3" 5
                    midnight_drive
                    (download_music (JStr "https://cdn.example/a.mp3") "out.mp3" 5
                       midnight_drive).2)).
    vm_compute. reflexivity.
  - apply (proj2 (download_success_means_file (JStr "https://cdn.example/v.mp4") "out.mp4" 5
                    midnight_drive
                    (download_mp4 (JStr "https://cdn.example/v.mp4") "out.mp4" 5
                       midnight_drive).2)).
    vm_compute. reflexivity.
Defined.

Lemma poller_success_means_written_witness :
  exists evs,
    trace (monitor_and_download "task" "out.mp3" 30 10 false None midnight_drive).2
      = trace midnight_drive ++ evs
    /\ written true "out.mp3" evs.
Proof.
  apply (proj1 (poller_success_means_written "task" "out.mp3" 30 10 false None midnight_drive
                  (monitor_and_download "task" "out.mp3" 30 10 false None midnight_drive).2)).
  vm_compute. reflexivity.
Defined.

(** ** Waiting between download attempts *)

Lemma sleeps_app tr1 tr2 : sleeps (tr1 ++ tr2) = sleeps tr1 ++ sleeps tr2.
Proof.
  induction tr1 as [|[| | secs |] tr1 IH]; simpl; [reflexivity | | | by rewrite IH |]; exact IH.
Qed.

Lemma requests_app tr1 tr2 : (requests (tr1 ++ tr2) = requests tr1 + requests tr2)%nat.
Proof.
  induction tr1 as [|[rq | | |] tr1 IH]; simpl; [reflexivity | by rewrite IH | | |]; exact IH.
Qed.

Lemma download_music_rounds_offline remaining url output_path retry_count max_retries w :
  unreachable w ->
  exists w',
    download_music_rounds remaining (JStr url) output_path retry_count max_retries w
      = (Ok false, w')
    /\ sleeps (trace w')
       = sleeps (trace w)
         ++ map (fun i => 2 ^ (retry_count + Z.of_nat i)) (seq 0 remaining)
    /\ (requests (trace w') = requests (trace w) + remaining)%nat.
Proof.
  revert retry_count w. induction remaining as [|remaining IH]; intros retry_count w Hnet.
  - exists w. simpl. by rewrite app_nil_r, Nat.add_0_r.
  - cbn [download_music_rounds]. cbv zeta. rewrite bind_run. unfold try_except.
    rewrite run_print. unfold requests_get, http. rewrite !bind_run.
    cbn [send record net clock]. rewrite Hnet. cbn [raise is_Exception].
    rewrite run_print. cbn [mret M_ret]. rewrite run_print.
    rewrite run_sleep by (apply Z.pow_nonneg; lia).
    edestruct (IH (retry_count + 1)) as (w' & Hrun & Hsleeps & Hrequests);
      [| exists w'; split; [exact Hrun |]].
    + intros i rq. apply Hnet.
    + rewrite Hsleeps, Hrequests. cbn [trace record].
      rewrite !sleeps_app, !requests_app. cbn [sleeps requests seq map].
      rewrite <- seq_shift, map_map, Z.add_0_r, <- !app_assoc. split.
      * cbn [app]. do 2 f_equal. apply map_ext. intros i. f_equal. lia.
      * cbn [app]. lia.
Qed.

Lemma download_mp4_rounds_offline remaining url output_path retry_count max_retries w :
  unreachable w -> 0 <= retry_count -> Z.of_nat remaining = max_retries - retry_count ->
  exists w',
    download_mp4_rounds remaining (JStr url) output_path retry_count max_retries w
      = (Ok false, w')
    /\ sleeps (trace w')
       = sleeps (trace w)
         ++ map (fun i => 5 * (retry_count + 1 + Z.of_nat i)) (seq 0 (remaining - 1))
    /\ (requests (trace w') = requests (trace w) + remaining)%nat.
Proof.
  revert retry_count w.
  induction remaining as [|remaining IH]; intros retry_count w Hnet Hcount Hleft.
  - exists w. simpl. by rewrite app_nil_r, Nat.add_0_r.
  - cbn [download_mp4_rounds]. cbv zeta. rewrite bind_run. unfold try_except.
    unfold requests_get, http. rewrite !bind_run.
    cbn [send record net clock]. rewrite Hnet. cbn [raise is_RequestException].
    rewrite run_print. destruct (Z.ltb_spec (retry_count + 1) max_retries) as [Hmore | Hlast].
    + rewrite run_print. rewrite run_sleep by lia. cbn [mret M_ret].
      destruct remaining as [|remaining]; [lia |].
      edestruct (IH (retry_count + 1)) as (w' & Hrun & Hsleeps & Hrequests);
        [| | | exists w'; split; [exact Hrun |]].
      * intros i rq. apply Hnet.
      * lia.
      * lia.
      * rewrite Hsleeps, Hrequests. cbn [trace record].
        rewrite !sleeps_app, !requests_app. cbn [sleeps requests].
        replace (S (S remaining) - 1)%nat with (S remaining) by lia.
        replace (S remaining - 1)%nat with remaining by lia.
        cbn [seq map]. rewrite <- seq_shift, map_map, Z.add_0_r, <- !app_assoc. split.
        -- cbn [app]. do 2 f_equal. apply map_ext. intros i. lia.
        -- cbn [app]. lia.
    + rewrite run_print. cbn [mret M_ret]. eexists. split; [reflexivity |].
      assert (remaining = 0%nat) as -> by lia. cbn [trace record].
      rewrite !sleeps_app, !requests_app. cbn [sleeps requests seq map Nat.sub].
      rewrite !app_nil_r. split; [reflexivity | lia].
Qed.

(** X11.  When no request gets through, both downloaders give up after
    [max_retries] attempts.  The audio downloader waits 1, 2, 4, ... seconds,
    also after its last attempt; the video downloader waits 5, 10, ...
    seconds between attempts and not after the last. *)
Theorem download_backoff_when_offline url output_path max_retries w :
  unreachable w ->
  (exists w',
      download_music (JStr url) output_path max_retries w = (Ok false, w')
      /\ sleeps (trace w')
         = sleeps (trace w) ++ map (fun i => 2 ^ Z.of_nat i) (seq 0 (Z.to_nat max_retries))
      /\ (requests (trace w') = requests (trace w) + Z.to_nat max_retries)%nat)
  /\ (exists w',
         download_mp4 (JStr url) output_path max_retries w = (Ok false, w')
         /\ sleeps (trace w')
            = sleeps (trace w)
              ++ map (fun i => 5 * (Z.of_nat i + 1)) (seq 0 (Z.to_nat max_retries - 1))
         /\ (requests (trace w') = requests (trace w) + Z.to_nat max_retries)%nat).
Proof.
  intros Hnet. split.
  - destruct (download_music_rounds_offline (Z.to_nat max_retries) url output_path 0
                max_retries w Hnet) as (w' & Hrun & Hsleeps & Hrequests).
    exists w'. split; [exact Hrun |]. split; [| exact Hrequests].
    rewrite Hsleeps. f_equal.
  - destruct (Z.le_gt_cases max_retries 0) as [Hnone | Hsome].
    + exists w. unfold download_mp4. replace (Z.to_nat max_retries) with 0%nat by lia.
      simpl. by rewrite app_nil_r, Nat.add_0_r.
    + destruct (download_mp4_rounds_offline (Z.to_nat max_retries) url output_path 0
                  max_retries w Hnet) as (w' & Hrun & Hsleeps & Hrequests); [lia | lia |].
      exists w'. split; [exact Hrun |]. split; [| exact Hrequests].
      rewrite Hsleeps. f_equal. apply map_ext. intros i. lia.
Qed.

Lemma download_backoff_when_offline_witness :
  sleeps (trace (download_music (JStr "https://cdn.example/a.mp3") "out.mp3" 5 offline).2)
    = [1; 2; 4; 8; 16]
  /\ sleeps (trace (download_mp4 (JStr "https://cdn.example/v.mp4") "out.mp4" 5 offline).2)
     = [5; 10; 15; 20].
Proof.
  assert (unreachable offline) as Hnet by (intros i rq; reflexivity).
  split.
  - destruct (proj1 (download_backoff_when_offline "https://cdn.example/a.mp3" "out.mp3" 5
                       offline Hnet)) as (w' & Hrun & Hsleeps & _).
    rewrite Hrun. exact Hsleeps.
  - destruct (proj2 (download_backoff_when_offline "https://cdn.example/v.mp4" "out.mp4" 5
                       offline Hnet)) as (w' & Hrun & Hsleeps & _).
    rewrite Hrun. exact Hsleeps.
Defined.

(** ** Endpoints that do not answer *)

Lemma try_mp4_endpoints_move_on endpoints w :
  (forall i rq, moves_on (net w i rq) = true) ->
  exists w',
    try_mp4_endpoints endpoints w = (Ok JNull, w')
    /\ clock w' = (clock w + length endpoints)%nat
    /\ exists evs,
         trace w' = trace w ++ evs ++ [Print AllMp4EndpointsFailed]
         /\ requests evs = length endpoints.
Proof.
  revert w. induction endpoints as [|endpoint rest IH]; intros w Hnet.
  - eexists. split; [reflexivity |]. cbn [clock record length].
    split; [lia |]. by exists [].
  - assert (exists evs,
              try_mp4_endpoints (endpoint :: rest) w
              = try_mp4_endpoints rest
                  (World (net w) (S (clock w)) (trace w ++ evs) (fs w) (getenv w)
                     (requests_ge_2_27 w))
              /\ requests evs = 1%nat) as (evs & -> & Hevs).
    { cbn [try_mp4_endpoints]. rewrite bind_run. unfold try_except. rewrite run_print.
      unfold requests_get, http. rewrite !bind_run. cbn [send record net clock trace fs getenv
        requests_ge_2_27].
      specialize (Hnet (clock w) (GET endpoint)).
      destruct (net w (clock w) (GET endpoint)) as [| resp | text]; cbn [moves_on] in Hnet.
      - cbn [raise is_RequestException]. rewrite run_print. cbn [mret M_ret].
        unfold record. cbn [net clock trace fs getenv requests_ge_2_27].
        exists [Print (CheckingMp4StatusAt endpoint); Net (GET endpoint);
                Print (NetworkErrorCheckingMp4 endpoint)].
        rewrite <- !app_assoc. split; reflexivity.
      - cbn [mret M_ret]. apply Z.eqb_eq in Hnet. rewrite Hnet. cbn [Z.eqb Pos.eqb negb].
        exists [Print (CheckingMp4StatusAt endpoint); Net (GET endpoint)].
        rewrite <- !app_assoc. split; reflexivity.
      - cbn [raise is_RequestException]. rewrite run_print. cbn [mret M_ret].
        unfold record. cbn [net clock trace fs getenv requests_ge_2_27].
        exists [Print (CheckingMp4StatusAt endpoint); Net (GET endpoint);
                Print (NetworkErrorCheckingMp4 endpoint)].
        rewrite <- !app_assoc. split; reflexivity. }
    destruct (IH (World (net w) (S (clock w)) (trace w ++ evs) (fs w) (getenv w)
                    (requests_ge_2_27 w)) Hnet) as (w' & Hrun & Hclock & evs' & Htrace & Hrest).
    exists w'. split; [exact Hrun |]. cbn [clock trace length] in *.
    split; [lia |]. exists (evs ++ evs').
    split; [by rewrite Htrace, <- !app_assoc | rewrite requests_app; lia].
Qed.

(** X12.  When every endpoint answers HTTP 404 or not at all, the video
    status check asks each of its three endpoints once, says that all
    failed, and returns [None]. *)
Theorem check_mp4_status_tries_every_endpoint task_id w :
  (forall i rq, moves_on (net w i rq) = true) ->
  exists w' evs,
    check_mp4_status task_id w = (Ok JNull, w')
    /\ clock w' = (clock w + 3)%nat
    /\ trace w' = trace w ++ evs ++ [Print AllMp4EndpointsFailed]
    /\ requests evs = 3%nat.
Proof.
  intros Hnet.
  destruct (try_mp4_endpoints_move_on (mp4_status_endpoints task_id) w Hnet)
    as (w' & Hrun & Hclock & evs & Htrace & Hevs).
  by exists w', evs.
Qed.

Lemma check_mp4_status_tries_every_endpoint_witness :
  exists w' evs,
    check_mp4_status "task" nowhere = (Ok JNull, w')
    /\ clock w' = (clock nowhere + 3)%nat
    /\ trace w' = trace nowhere ++ evs ++ [Print AllMp4EndpointsFailed]
    /\ requests evs = 3%nat.
Proof. apply (check_mp4_status_tries_every_endpoint "task" nowhere). by intros i rq. Defined.

(** X13.  The audio status check runs under one [try]: once the primary
    endpoint has answered with an HTTP error, a transport failure at the
    first alternative ends the whole check with [None], and the remaining
    alternatives are not asked. *)
Theorem check_generation_status_gives_up task_id w r0 :
  net w (clock w) (GET (primary_endpoint task_id)) = Got r0 ->
  status_code r0 <> 200 ->
  net w (S (clock w)) (GET (first_alternate task_id)) = ConnError ->
  exists w',
    check_generation_status task_id w = (Ok JNull, w')
    /\ trace w' = trace w ++ [Print (CheckingStatusAt (primary_endpoint task_id));
                              Net (GET (primary_endpoint task_id));
                              Print (TryingAlternate (first_alternate task_id));
                              Net (GET (first_alternate task_id));
                              Print NetworkErrorCheckingStatus].
Proof.
  intros Hprimary Hcode Halternate. unfold check_generation_status. cbv zeta.
  fold (primary_endpoint task_id). rewrite run_print. unfold try_except.
  unfold requests_get, http. rewrite !bind_run.
  cbn [send record net clock]. rewrite Hprimary. cbn [mret M_ret].
  destruct (Z.eqb_spec (status_code r0) 200) as [|_]; [done |].
  cbn [alternate_endpoints try_alternate_endpoints]. fold (first_alternate task_id).
  rewrite run_print. unfold requests_get, http. rewrite !bind_run.
  cbn [send record net clock]. rewrite Halternate. cbn [raise is_RequestException].
  rewrite run_print. cbn [mret M_ret].
  eexists. split; [reflexivity |]. cbn [trace record]. by rewrite <- !app_assoc.
Qed.

Lemma check_generation_status_gives_up_witness :
  exists w',
    check_generation_status "task" broken_then_gone = (Ok JNull, w')
    /\ trace w' = trace broken_then_gone
                  ++ [Print (CheckingStatusAt (primary_endpoint "task"));
                      Net (GET (primary_endpoint "task"));
                      Print (TryingAlternate (first_alternate "task"));
                      Net (GET (first_alternate "task"));
                      Print NetworkErrorCheckingStatus].
Proof.
  apply (check_generation_status_gives_up "task" broken_then_gone (Response 500 None []));
    [reflexivity | done | reflexivity].
Defined.

(** ** Pollers that are allowed no check *)

(** X14.  With [max_checks] at zero or below, a poller records the task id,
    says that the checks are exhausted and returns [False] without a single
    request. *)
Theorem pollers_without_checks task_id output_path max_checks check_interval generate_mp4
    mp4_output_path w :
  max_checks <= 0 ->
  (exists w',
      monitor_and_download task_id output_path max_checks check_interval generate_mp4
        mp4_output_path w = (Ok false, w')
      /\ clock w' = clock w
      /\ trace w' = trace w ++ [Write "last_task_id.txt" task_id;
                                Print (ExceededMaximumChecks Audio)])
  /\ (exists w',
         monitor_and_download_mp4 task_id output_path max_checks check_interval w
           = (Ok false, w')
         /\ clock w' = clock w
         /\ trace w' = trace w ++ [Write "last_mp4_task_id.txt" task_id;
                                   Print (ExceededMaximumChecks Video)]).
Proof.
  intros Hnone. unfold monitor_and_download, monitor_and_download_mp4.
  replace (Z.to_nat max_checks) with 0%nat by lia.
  cbn [audio_rounds mp4_rounds]. rewrite !run_write_file, !run_print. cbn [mret M_ret].
  split; (eexists; split; [reflexivity |]); cbn [clock trace record write_file snd];
    (split; [reflexivity | by rewrite <- !app_assoc]).
Qed.

Lemma pollers_without_checks_witness :
  (monitor_and_download "task" "out.mp3" 0 10 true None midnight_drive).1 = Ok false
  /\ (monitor_and_download_mp4 "task" "out.mp4" (-1) 10 midnight_drive).1 = Ok false.
Proof.
  split.
  - destruct (proj1 (pollers_without_checks "task" "out.mp3" 0 10 true None midnight_drive
                       ltac:(lia))) as (w' & Hrun & _).
    by rewrite Hrun.
  - destruct (proj2 (pollers_without_checks "task" "out.mp4" (-1) 10 false None midnight_drive
                       ltac:(lia))) as (w' & Hrun & _).
    by rewrite Hrun.
Defined.

(** ** What a poller touches *)

Lemma emits_weaken {A : Type} (P P' : event -> bool) (m : M A) :
  (forall e, P e = true -> P' e = true) -> emits P m -> emits P' m.
Proof.
  intros Himpl Hm w. destruct (Hm w) as (evs & Htrace & Hevs). exists evs.
  split; [exact Htrace |]. eapply Forall_impl; [exact Hevs | exact Himpl].
Qed.

Ltac may_leaf :=
  intros; cbn [video_poller_may audio_poller_may];
  rewrite ?String.eqb_refl; cbn [orb]; rewrite ?orb_true_r; reflexivity.

Ltac may_step :=
  first
    [ apply emits_ret
    | apply emits_raise
    | apply emits_print; may_leaf
    | apply emits_sleep; may_leaf
    | apply emits_requests_get; may_leaf
    | apply emits_http; may_leaf
    | apply emits_bind; [| intros ?]
    | apply emits_try_except
    | apply emits_response_json
    | apply emits_raise_for_status
    | apply emits_write_file; may_leaf
    | apply emits_write_text; may_leaf
    | apply emits_file_nonempty
    | apply emits_py_get
    | match goal with
      | |- emits _ (if ?b then _ else _) => destruct b
      | |- emits _ (match ?x with _ => _ end) => destruct x
      end ].

Tactic Notation "may_using" tactic3(callee) := repeat first [callee | may_step].

Section Video.
Variable output_path : string.

Lemma may_try_mp4_endpoints endpoints :
  emits (video_poller_may output_path) (try_mp4_endpoints endpoints).
Proof. induction endpoints as [|endpoint rest IH]; simpl; may_using (exact IH). Qed.

Lemma may_download_mp4_rounds remaining video_url retry_count max_retries :
  emits (video_poller_may output_path)
    (download_mp4_rounds remaining video_url output_path retry_count max_retries).
Proof.
  revert retry_count. induction remaining as [|remaining IH]; intros retry_count; simpl.
  - may_using fail.
  - cbv zeta. may_using (apply IH).
Qed.

Lemma may_mp4_cycle task_id checks max_checks check_interval :
  emits (video_poller_may output_path)
    (mp4_cycle task_id output_path checks max_checks check_interval).
Proof.
  unfold mp4_cycle, mp4_verdict, mp4_on_success, absolute_video_url, check_mp4_status,
    download_mp4.
  cbv zeta.
  may_using (first [apply may_try_mp4_endpoints | apply may_download_mp4_rounds]).
Qed.

Lemma may_monitor_and_download_mp4 task_id max_checks check_interval :
  emits (video_poller_may output_path)
    (monitor_and_download_mp4 task_id output_path max_checks check_interval).
Proof.
  unfold monitor_and_download_mp4.
  apply emits_bind; [apply emits_write_file; may_leaf | intros _].
  generalize 0. induction (Z.to_nat max_checks) as [|remaining IH]; intros checks; simpl.
  - may_using fail.
  - apply emits_bind; [apply may_mp4_cycle |].
    intros [result|]; [apply emits_ret | apply IH].
Qed.
End Video.

(** X15.  Whatever the server answers, the video poller sends nothing but
    GET requests and writes nowhere but to [last_mp4_task_id.txt] and to
    its output file. *)
Theorem video_poller_is_confined task_id output_path max_checks check_interval w :
  exists evs,
    trace (monitor_and_download_mp4 task_id output_path max_checks check_interval w).2
      = trace w ++ evs
    /\ Forall (fun e => video_poller_may output_path e = true) evs.
Proof. apply may_monitor_and_download_mp4. Qed.

Lemma video_within_audio output_path mp4_path e :
  video_poller_may mp4_path e = true -> audio_poller_may output_path mp4_path e = true.
Proof.
  destruct e as [[url | url payload | prompt style num_verses has_chorus] | m | secs
                | path content]; cbn [video_poller_may audio_poller_may];
    try done.
  intros H. apply orb_true_iff in H as [-> | ->]; cbn [orb]; by rewrite ?orb_true_r.
Qed.

Section Audio.
Variables output_path mp4_path : string.

Lemma may_try_alternate_endpoints endpoints :
  emits (audio_poller_may output_path mp4_path) (try_alternate_endpoints endpoints).
Proof. induction endpoints as [|endpoint rest IH]; simpl; may_using (exact IH). Qed.

Lemma may_check_generation_status task_id :
  emits (audio_poller_may output_path mp4_path) (check_generation_status task_id).
Proof.
  unfold check_generation_status. cbv zeta. may_using (apply may_try_alternate_endpoints).
Qed.

Lemma may_download_music_rounds remaining audio_url retry_count max_retries :
  emits (audio_poller_may output_path mp4_path)
    (download_music_rounds remaining audio_url output_path retry_count max_retries).
Proof.
  revert retry_count. induction remaining as [|remaining IH]; intros retry_count; simpl.
  - may_using fail.
  - cbv zeta. may_using (apply IH).
Qed.

Lemma may_generate_mp4 task_id audio_id path :
  emits (audio_poller_may output_path mp4_path) (generate_mp4 task_id audio_id path).
Proof.
  unfold generate_mp4, standardize_mp4_response, requests_post. cbv zeta. may_using fail.
Qed.

Lemma may_mp4_leg task_id audio_id mp4_output_path max_checks check_interval :
  mp4_path = mp4_path_of output_path mp4_output_path ->
  emits (audio_poller_may output_path mp4_path)
    (mp4_leg task_id audio_id output_path mp4_output_path max_checks check_interval).
Proof.
  intros Hpath. unfold mp4_leg. cbv zeta. fold (mp4_path_of output_path mp4_output_path).
  rewrite <- Hpath.
  may_using (first [ apply may_generate_mp4
                   | apply (emits_weaken (video_poller_may mp4_path));
                       [apply video_within_audio | apply may_monitor_and_download_mp4] ]).
Qed.

Lemma may_audio_cycle task_id checks max_checks check_interval generate_mp4 mp4_output_path :
  mp4_path = mp4_path_of output_path mp4_output_path ->
  emits (audio_poller_may output_path mp4_path)
    (audio_cycle task_id output_path checks max_checks check_interval generate_mp4
       mp4_output_path).
Proof.
  intros Hpath.
  unfold audio_cycle, audio_verdict, audio_on_success, get_status_description, download_music.
  cbv zeta.
  may_using (first [ apply may_check_generation_status
                   | apply may_download_music_rounds
                   | by apply may_mp4_leg ]).
Qed.
End Audio.

Lemma may_monitor_and_download task_id output_path max_checks check_interval generate_mp4
    mp4_output_path :
  emits (audio_poller_may output_path (mp4_path_of output_path mp4_output_path))
    (monitor_and_download task_id output_path max_checks check_interval generate_mp4
       mp4_output_path).
Proof.
  unfold monitor_and_download.
  apply emits_bind; [apply emits_write_file; may_leaf | intros _].
  generalize 0. induction (Z.to_nat max_checks) as [|remaining IH]; intros checks; simpl.
  - may_using fail.
  - apply emits_bind; [by apply may_audio_cycle |].
    intros [result|]; [apply emits_ret | apply IH].
Qed.

(** X16.  Whatever the server answers, the audio poller never calls the
    lyrics service, posts only the request that starts the video, and
    writes nowhere but to the two task id records, the audio file and the
    video file. *)
Theorem audio_poller_is_confined task_id output_path max_checks check_interval generate_mp4
    mp4_output_path w :
  exists evs,
    trace (monitor_and_download task_id output_path max_checks check_interval generate_mp4
             mp4_output_path w).2
      = trace w ++ evs
    /\ Forall (fun e => audio_poller_may output_path
                          (mp4_path_of output_path mp4_output_path) e = true) evs.
Proof. apply may_monitor_and_download. Qed.

(** ** The address of the video *)



(** ** What a run of [main] touches *)

Lemma video_starts_nothing output_path e :
  video_poller_may output_path e = true -> starts_nothing e = true.
Proof. by destruct e as [[| |] | | |]. Qed.

Lemma audio_starts_nothing output_path mp4_path e :
  audio_poller_may output_path mp4_path e = true -> starts_nothing e = true.
Proof. by destruct e as [[| |] | | |]. Qed.

Lemma starts_nothing_no_lyrics e : starts_nothing e = true -> no_lyrics e = true.
Proof. by destruct e as [[| |] | | |]. Qed.

Ltac main_leaf :=
  intros; cbn [starts_nothing no_lyrics]; rewrite ?String.eqb_refl; reflexivity.

Ltac main_step :=
  first
    [ apply emits_ret
    | apply emits_raise
    | apply emits_print; main_leaf
    | apply emits_http; main_leaf
    | apply emits_response_json
    | apply emits_write_text; main_leaf
    | apply emits_read_file
    | apply emits_os_getenv
    | apply emits_py_get
    | apply emits_bind; [| intros ?]
    | apply emits_try_except
    | match goal with
      | |- emits _ (if ?b then _ else _) => destruct b
      | |- emits _ (match ?x with _ => _ end) => destruct x
      end ].

Tactic Notation "main_using" tactic3(callee) := repeat first [callee | main_step].

Lemma starts_nothing_monitor_and_download_mp4 task_id output_path max_checks check_interval :
  emits starts_nothing (monitor_and_download_mp4 task_id output_path max_checks check_interval).
Proof.
  apply (emits_weaken (video_poller_may output_path));
    [apply video_starts_nothing | apply may_monitor_and_download_mp4].
Qed.

Lemma starts_nothing_monitor_and_download task_id output_path max_checks check_interval
    generate_mp4 mp4_output_path :
  emits starts_nothing
    (monitor_and_download task_id output_path max_checks check_interval generate_mp4
       mp4_output_path).
Proof.
  apply (emits_weaken (audio_poller_may output_path
                         (mp4_path_of output_path mp4_output_path)));
    [apply audio_starts_nothing | apply may_monitor_and_download].
Qed.



(** X19.  An instrumental run never calls the lyrics service. *)
Theorem instrumental_needs_no_lyrics a w :
  instrumental a = true ->
  exists evs,
    trace (main a w).2 = trace w ++ evs /\ Forall (fun e => no_lyrics e = true) evs.
Proof.
  intros Hinstrumental. revert w. change (emits no_lyrics (main a)).
  unfold main, generate_new, generate_music, requests_post. rewrite Hinstrumental.
  cbn [negb andb]. cbv zeta.
  main_using (first
    [ apply (emits_weaken starts_nothing);
        [ apply starts_nothing_no_lyrics
        | first [ apply starts_nothing_monitor_and_download_mp4
                | apply starts_nothing_monitor_and_download ] ] ]).
Qed.

Lemma instrumental_needs_no_lyrics_witness :
  exists evs,
    trace (main instrumental_run midnight_drive).2 = trace midnight_drive ++ evs
    /\ Forall (fun e => no_lyrics e = true) evs.
Proof. apply (instrumental_needs_no_lyrics instrumental_run midnight_drive). reflexivity. Defined.

(** X20.  [main], called with a bare [--check-task] and no
    [--check-mp4-task] when there is no [last_task_id.txt], prints one line
    and returns: no request is sent and no file is written.  With the API
    keys in place the line is the one that reports the missing file. *)
Theorem check_task_without_sidecar a w :
  flag_given (check_mp4_task a) = false ->
  check_task a = Some None ->
  fs w !! "last_task_id.txt" = None ->
  exists m w',
    main a w = (Ok tt, w')
    /\ trace w' = trace w ++ [Print m]
    /\ clock w' = clock w
    /\ fs w' = fs w
    /\ (nonempty (getenv w "SUNO_API_KEY") = true ->
        instrumental a || nonempty (getenv w "ANTHROPIC_API_KEY") = true ->
        m = NoTaskIdFile Audio).
Proof.
  intros Hvideo Hflag Hfile. unfold main, os_getenv. rewrite bind_run. cbn [fst snd].
  destruct (nonempty (getenv w "SUNO_API_KEY")) eqn:Hsuno; cbn [negb].
  - rewrite bind_run.
    destruct (instrumental a) eqn:Hinst; cbn [negb andb orb].
    + rewrite Hvideo, Hflag. cbn [flag_given]. rewrite bind_run.
      unfold try_except, read_file. rewrite bind_run, Hfile. cbn [is_FileNotFoundError].
      rewrite run_print. cbn [mret M_ret].
      by exists (NoTaskIdFile Audio), (record (Print (NoTaskIdFile Audio)) w).
    + destruct (nonempty (getenv w "ANTHROPIC_API_KEY")) eqn:Hanth; cbn [negb].
      * rewrite Hvideo, Hflag. cbn [flag_given]. rewrite bind_run.
        unfold try_except, read_file. rewrite bind_run, Hfile. cbn [is_FileNotFoundError].
        rewrite run_print. cbn [mret M_ret].
        by exists (NoTaskIdFile Audio), (record (Print (NoTaskIdFile Audio)) w).
      * exists AnthropicKeyMissing, (record (Print AnthropicKeyMissing) w).
        repeat split. intros _ [=].
  - exists SunoKeyMissing, (record (Print SunoKeyMissing) w).
    repeat split. intros [=].
Qed.

Lemma check_task_without_sidecar_witness :
  exists m w',
    main bare_check_task (always pending_answer) = (Ok tt, w')
    /\ trace w' = trace (always pending_answer) ++ [Print m]
    /\ clock w' = clock (always pending_answer)
    /\ fs w' = fs (always pending_answer)
    /\ (nonempty (getenv (always pending_answer) "SUNO_API_KEY") = true ->
        instrumental bare_check_task
        || nonempty (getenv (always pending_answer) "ANTHROPIC_API_KEY") = true ->
        m = NoTaskIdFile Audio).
Proof.
  apply (check_task_without_sidecar bare_check_task (always pending_answer)); reflexivity.
Defined.

(** ** The families of statuses *)

(** X21.  The statuses that the audio poller tests for, as success, failure
    or pending, are exactly the statuses of the [SUNO_STATUS] table, and no
    status is in two families. *)
Theorem status_families_are_the_table s :
  (table_get s SUNO_STATUS <> None <->
   in_strs (JStr s)
     (audio_success_statuses ++ audio_failure_statuses ++ audio_pending_statuses) = true)
  /\ in_strs (JStr s) audio_success_statuses && in_strs (JStr s) audio_failure_statuses = false
  /\ in_strs (JStr s) audio_success_statuses && in_strs (JStr s) audio_pending_statuses = false
  /\ in_strs (JStr s) audio_failure_statuses && in_strs (JStr s) audio_pending_statuses = false.
Proof.
  unfold in_strs, audio_success_statuses, audio_failure_statuses, audio_pending_statuses,
    SUNO_STATUS.
  cbn [app existsb eq_str table_get].
  rewrite (String.eqb_sym s "SUCCESS"), (String.eqb_sym s "FIRST_SUCCESS"),
    (String.eqb_sym s "CREATE_TASK_FAILED"), (String.eqb_sym s "GENERATE_AUDIO_FAILED"),
    (String.eqb_sym s "CALLBACK_EXCEPTION"), (String.eqb_sym s "SENSITIVE_WORD_ERROR"),
    (String.eqb_sym s "PENDING"), (String.eqb_sym s "TEXT_SUCCESS").
  destruct (String.eqb_spec "PENDING" s) as [<- | _]; [by repeat split |].
  destruct (String.eqb_spec "TEXT_SUCCESS" s) as [<- | _]; [by repeat split |].
  destruct (String.eqb_spec "FIRST_SUCCESS" s) as [<- | _]; [by repeat split |].
  destruct (String.eqb_spec "SUCCESS" s) as [<- | _]; [by repeat split |].
  destruct (String.eqb_spec "CREATE_TASK_FAILED" s) as [<- | _]; [by repeat split |].
  destruct (String.eqb_spec "GENERATE_AUDIO_FAILED" s) as [<- | _]; [by repeat split |].
  destruct (String.eqb_spec "CALLBACK_EXCEPTION" s) as [<- | _]; [by repeat split |].
  destruct (String.eqb_spec "SENSITIVE_WORD_ERROR" s) as [<- | _]; by repeat split.
Qed.

(** ** The shape of what [generate_mp4] returns *)

Lemma lookup_key_set_item key v fields : lookup_key key (set_item key v fields) = Some v.
Proof.
  induction fields as [|[k old] rest IH]; simpl; [by rewrite String.eqb_refl |].
  destruct (String.eqb k key) eqn:E; simpl; by rewrite E.
Qed.

Lemma has_key_set_item key key' v fields :
  has_key key fields = true -> has_key key (set_item key' v fields) = true.
Proof.
  unfold has_key. destruct (String.eqb_spec key' key) as [-> | Hne].
  - by rewrite lookup_key_set_item.
  - by rewrite lookup_key_set_item_ne.
Qed.

Lemma hoare_anything {A : Type} (P : world -> Prop) (m : M A) :
  hoare P m (fun _ _ => True).
Proof. intros w _. by destruct (m w) as [[a | e] w']. Qed.

Lemma hoare_bind_any {A B : Type} (m : M A) (f : A -> M B) (Q : B -> world -> Prop) :
  (forall a, hoare anywhere (f a) Q) -> hoare anywhere (m ≫= f) Q.
Proof.
  intros Hf. apply (hoare_bind (fun _ => anywhere)); [| exact Hf].
  intros w _. by destruct (m w) as [[a | e] w'].
Qed.

Lemma hoare_try_except {A : Type} (body handler : M A) (catches : exn -> bool)
    (Q : A -> world -> Prop) :
  hoare anywhere body Q -> hoare anywhere handler Q ->
  hoare anywhere (try_except body catches handler) Q.
Proof.
  intros Hbody Hhandler w Hw. specialize (Hbody w Hw). unfold try_except.
  destruct (body w) as [[a | e] w1]; [exact Hbody |].
  destruct (catches e); [by apply Hhandler | done].
Qed.

Lemma standardize_mp4_response_shape resp_json :
  hoare anywhere (standardize_mp4_response resp_json)
        (fun v _ => standard_shape v = true).
Proof.
  unfold standardize_mp4_response. cbv zeta.
  set (fields := set_item "success" (JBool true) _).
  assert (lookup_key "success" fields = Some (JBool true)) as Hsuccess
    by apply lookup_key_set_item.
  set (fields' := if has_key "data" fields then fields else set_item "data" (JObj []) fields).
  assert (lookup_key "success" fields' = Some (JBool true)) as Hsuccess'.
  { unfold fields'. destruct (has_key "data" fields); [exact Hsuccess |].
    by rewrite lookup_key_set_item_ne. }
  assert (has_key "data" fields' = true) as Hdata.
  { unfold fields'. destruct (has_key "data" fields) eqn:E; [exact E |].
    unfold has_key. by rewrite lookup_key_set_item. }
  clearbody fields'. clear fields Hsuccess.
  assert (standard_shape (JObj fields') = true) as Hshape.
  { cbn [standard_shape]. by rewrite Hsuccess'. }
  destruct (truthy _); [by apply hoare_ret |].
  destruct (lookup_key "taskId" fields') as [root_id|]; [| by apply hoare_ret].
  destruct (lookup_key "data" fields') as [[| | | | | data] |];
    try apply hoare_raise.
  apply hoare_ret. intros w _. cbn [standard_shape].
  rewrite lookup_key_set_item_ne by done. rewrite Hsuccess'.
  unfold has_key. by rewrite lookup_key_set_item.
Qed.

(** X22.  Whatever [generate_mp4] returns is a dict of the standardized
    structure: a boolean [success] and a [data] entry, with [error] and
    [error_code] beside them when [success] is false.  It sends one request
    at most. *)
Theorem generate_mp4_result_shape task_id audio_id output_path w v w' :
  generate_mp4 task_id audio_id output_path w = (Ok v, w') ->
  standard_shape v = true /\ (clock w' <= clock w + 1)%nat.
Proof.
  intros Hrun. split.
  - assert (hoare anywhere (generate_mp4 task_id audio_id output_path)
              (fun v _ => standard_shape v = true)) as Hshape.
    { unfold generate_mp4. cbv zeta.
      repeat first
        [ apply standardize_mp4_response_shape
        | apply hoare_ret; intros; reflexivity
        | apply hoare_try_except
        | apply hoare_bind_any; intros ?
        | match goal with
          | |- hoare _ (if ?b then _ else _) _ => destruct b
          | |- hoare _ (match ?x with _ => _ end) _ => destruct x
          end ]. }
    specialize (Hshape w I). by rewrite Hrun in Hshape.
  - pose proof (costs_generate_mp4 task_id audio_id output_path w) as Hcost.
    by rewrite Hrun in Hcost.
Qed.

Lemma generate_mp4_result_shape_witness :
  exists v w',
    generate_mp4 "t1" (JStr "a1") "out.mp4" (always bare_answer) = (Ok v, w')
    /\ standard_shape v = true
    /\ (clock w' <= clock (always bare_answer) + 1)%nat.
Proof.
  exists (JObj [("code", JNum 200); ("msg", JStr "success");
                ("data", JObj [("taskId", JStr "abc")]); ("success", JBool true)]),
         (generate_mp4 "t1" (JStr "a1") "out.mp4" (always bare_answer)).2.
  split; [vm_compute; reflexivity |].
  apply (generate_mp4_result_shape "t1" (JStr "a1") "out.mp4" (always bare_answer)).
  vm_compute. reflexivity.
Defined.

(** ** The title of the lyrics *)

Lemma contains_lstrip c s : contains c (lstrip s) = true -> contains c s = true.
Proof.
  induction s as [|d rest IH]; [done |]. cbn [lstrip].
  destruct (is_space d); [| done]. intros H. cbn [contains]. rewrite (IH H).
  by rewrite orb_true_r.
Qed.

Lemma contains_rstrip c s : contains c (rstrip s) = true -> contains c s = true.
Proof.
  induction s as [|d rest IH]; [done |]. cbn [rstrip contains].
  destruct (rstrip rest) as [|kept_head kept_rest].
  - destruct (is_space d); [done |]. cbn [contains]. rewrite orb_false_r. by intros ->.
  - cbn [contains] in *. intros H. apply orb_true_iff in H as [-> | H]; [done |].
    rewrite (IH H). by rewrite orb_true_r.
Qed.

Lemma contains_strip c s : contains c (strip s) = true -> contains c s = true.
Proof. intros H. by apply contains_lstrip, contains_rstrip. Qed.

Lemma contains_remove_hashes c s :
  contains c (remove_hashes s) = true -> contains c s = true.
Proof.
  induction s as [|d rest IH]; [done |]. cbn [remove_hashes contains].
  destruct (Ascii.eqb d "#").
  - intros H. rewrite (IH H). by rewrite orb_true_r.
  - cbn [contains]. intros H. apply orb_true_iff in H as [-> | H]; [done |].
    rewrite (IH H). by rewrite orb_true_r.
Qed.

Lemma remove_hashes_no_hash s : contains "#" (remove_hashes s) = false.
Proof.
  induction s as [|d rest IH]; [done |]. cbn [remove_hashes].
  destruct (Ascii.eqb d "#") eqn:E; [exact IH |]. cbn [contains].
  rewrite Ascii.eqb_sym, E. exact IH.
Qed.

Lemma first_line_no_newline s : contains "010" (first_line s) = false.
Proof.
  induction s as [|d rest IH]; [done |]. cbn [first_line].
  destruct (Ascii.eqb d "010") eqn:E; [done |]. cbn [contains].
  rewrite Ascii.eqb_sym, E. exact IH.
Qed.

Lemma not_contains c s t :
  (contains c s = true -> contains c t = true) -> contains c t = false ->
  contains c s = false.
Proof. destruct (contains c s); [intros H Ht; by rewrite H in Ht | done]. Qed.

(** X23.  [generate_lyrics] asks the lyrics service once; the title that it
    returns is one line and has no [#] in it. *)
Theorem lyrics_title_is_plain prompt style num_verses has_chorus w title content w' :
  generate_lyrics prompt style num_verses has_chorus w = (Ok (title, content), w') ->
  contains "#" title = false
  /\ contains "010" title = false
  /\ clock w' = S (clock w)
  /\ trace w' = trace w ++ [Net (MESSAGES prompt style num_verses has_chorus)].
Proof.
  unfold generate_lyrics. rewrite bind_run. cbn [send].
  destruct (net w (clock w) _) as [| r | lyrics_text]; [discriminate | discriminate |].
  cbv zeta. intros [= <- <- <-]. cbn [clock trace].
  split; [| split; [| by split]].
  - apply (not_contains _ _ (remove_hashes (first_line (strip lyrics_text))));
      [apply contains_strip | apply remove_hashes_no_hash].
  - apply (not_contains _ _ (first_line (strip lyrics_text)));
      [| apply first_line_no_newline].
    intros H. by apply contains_remove_hashes, contains_strip.
Qed.

Lemma lyrics_title_is_plain_witness :
  exists content w',
    generate_lyrics "rain" "pop" 2 true (songwriter rain_song) = (Ok ("Rain Song", content), w')
    /\ contains "#" "Rain Song" = false
    /\ contains "010" "Rain Song" = false.
Proof.
  exists ("verse one" +:+ String "010" "verse two"),
    (generate_lyrics "rain" "pop" 2 true (songwriter rain_song)).2.
  split; [vm_compute; reflexivity |].
  destruct (lyrics_title_is_plain "rain" "pop" 2 true (songwriter rain_song) "Rain Song"
              ("verse one" +:+ String "010" "verse two")
              (generate_lyrics "rain" "pop" 2 true (songwriter rain_song)).2)
    as (Hhash & Hline & _); [vm_compute; reflexivity |].
  by split.
Defined.

(** ** The frames of the local renderer *)

Lemma frame_window_inside span len n_frames i :
  0 <= span -> 0 <= len -> 0 < n_frames -> 0 <= i < n_frames ->
  exists start_idx end_idx,
    frame_window span len n_frames i = Some (start_idx, end_idx)
    /\ 0 <= start_idx <= end_idx /\ end_idx <= len
    /\ (start_idx < end_idx <-> (0 < span /\ n_frames <= len)).
Proof.
  intros Hspan Hlen Hframes Hi. unfold frame_window.
  destruct (Z.eqb_spec n_frames 0) as [| _]; [lia |]. cbv zeta.
  eexists _, _. split; [reflexivity |].
  pose proof (Z.div_pos len n_frames Hlen Hframes) as Hsize.
  pose proof (Z.mul_div_le len n_frames Hframes) as Hfit.
  assert (len / n_frames = 0 <-> len < n_frames) as Hzero.
  { rewrite Z.div_small_iff by lia. lia. }
  assert (i * (len / n_frames) + len / n_frames <= len) as Hroom by nia.
  split; [nia |]. split; [lia |]. split.
  - intros Hlt. split; [nia |]. destruct (Z.lt_ge_cases len n_frames); [| lia].
    apply Hzero in H. rewrite H in Hlt. lia.
  - intros [Hpos Hmany]. assert (0 < len / n_frames) by lia. nia.
Qed.

Lemma length_slice {A : Type} start stop (a : list A) :
  0 <= start <= stop -> stop <= Z.of_nat (length a) ->
  Z.of_nat (length (slice start stop a)) = stop - start.
Proof.
  intros Hstart Hstop. unfold slice, slice_index. cbv zeta.
  destruct (Z.ltb_spec start 0) as [| _]; [lia |].
  destruct (Z.ltb_spec stop 0) as [| _]; [lia |].
  rewrite length_take, length_drop. lia.
Qed.

(** X24.  For every frame that the animation asks for, the window of
    [animate] lies inside the audio: the samples of the frame are as many as
    the points that [np.linspace] is asked for, [end_idx - start_idx], and
    the frame is empty exactly when the audio has fewer samples than the
    video has frames. *)
Theorem frame_window_fits_the_audio {A : Type} span (audio_array : list A) n_frames i :
  0 < span -> 0 < n_frames -> 0 <= i < n_frames ->
  exists start_idx end_idx samples,
    frame_window span (Z.of_nat (length audio_array)) n_frames i = Some (start_idx, end_idx)
    /\ frame_samples span audio_array n_frames i = Some samples
    /\ 0 <= start_idx <= end_idx
    /\ end_idx <= Z.of_nat (length audio_array)
    /\ Z.of_nat (length samples) = end_idx - start_idx
    /\ (samples = [] <-> Z.of_nat (length audio_array) < n_frames).
Proof.
  intros Hspan Hframes Hi.
  destruct (frame_window_inside span (Z.of_nat (length audio_array)) n_frames i)
    as (start_idx & end_idx & Hwindow & Horder & Hend & Hempty); [lia | lia | lia | lia |].
  exists start_idx, end_idx, (slice start_idx end_idx audio_array).
  split; [exact Hwindow |]. split; [unfold frame_samples; by rewrite Hwindow |].
  split; [exact Horder |]. split; [exact Hend |].
  pose proof (length_slice start_idx end_idx audio_array Horder Hend) as Hlength.
  split; [exact Hlength |]. split.
  - intros Hnil. rewrite Hnil in Hlength. simpl in Hlength. lia.
  - intros Hfew. apply length_zero_iff_nil. lia.
Qed.

Lemma frame_window_fits_the_audio_witness :
  exists start_idx end_idx samples,
    frame_window waveform_span (Z.of_nat (length [3; 1; 4; 1; 5; 9; 2; 6; 5; 3; 5])) 5 4
      = Some (start_idx, end_idx)
    /\ frame_samples waveform_span [3; 1; 4; 1; 5; 9; 2; 6; 5; 3; 5] 5 4 = Some samples
    /\ 0 <= start_idx <= end_idx
    /\ end_idx <= Z.of_nat (length [3; 1; 4; 1; 5; 9; 2; 6; 5; 3; 5])
    /\ Z.of_nat (length samples) = end_idx - start_idx
    /\ (samples = [] <-> Z.of_nat (length [3; 1; 4; 1; 5; 9; 2; 6; 5; 3; 5]) < 5).
Proof.
  apply (frame_window_fits_the_audio waveform_span [3; 1; 4; 1; 5; 9; 2; 6; 5; 3; 5] 5 4);
    [reflexivity | lia | lia].
Defined.

(** X25.  After "Resize to n_bins" the spectrum has exactly one value for
    each of the hundred bars: the values that were there, in their places,
    and zero where there was none. *)
Theorem resize_to_bins_fills_every_bar {A : Type} (zero : A) (fft : list A) :
  length (resize_to_bins zero fft) = n_bins
  /\ forall k, (k < n_bins)%nat -> resize_to_bins zero fft !! k = Some (default zero (fft !! k)).
Proof.
  unfold resize_to_bins. destruct (Nat.ltb_spec n_bins (length fft)) as [Hlong | Hshort].
  - split; [rewrite length_take; lia |]. intros k Hk. rewrite lookup_take_lt by exact Hk.
    destruct (fft !! k) eqn:E; [done |]. apply lookup_ge_None in E. lia.
  - split; [rewrite length_app, length_replicate; lia |]. intros k Hk.
    destruct (fft !! k) eqn:E.
    + by rewrite (lookup_app_l_Some _ _ _ _ E).
    + apply lookup_ge_None in E. rewrite lookup_app_r by exact E.
      apply lookup_replicate. split; [done | lia].
Qed.

(** ** Starting a generation *)

(** X26.  [generate_music] sends exactly one request, the POST to
    [/generate], and prints at most afterwards: there is no second attempt.
    It raises only when an HTTP 200 carries a body that is no JSON and the
    requests library is older than 2.27, whose decoding error is no
    [RequestException]. *)
Theorem generate_music_asks_once title lyrics style custom_mode instrumental model w :
  exists payload tail,
    trace (generate_music title lyrics style custom_mode instrumental model w).2
      = trace w ++ Net (POST (SUNO_API_BASE_URL +:+ "/generate") payload) :: tail
    /\ Forall (fun e => is_print e = true) tail
    /\ clock (generate_music title lyrics style custom_mode instrumental model w).2
       = S (clock w)
    /\ forall e,
         (generate_music title lyrics style custom_mode instrumental model w).1 = Raised e ->
         e = ValueError /\ requests_ge_2_27 w = false.
Proof.
  unfold generate_music. cbv zeta. eexists _.
  unfold try_except, requests_post, http. rewrite !bind_run. cbn [send].
  destruct (net w (clock w) _) as [| resp | text]; cbn [raise is_RequestException mret M_ret].
  - exists []. cbn [fst snd trace clock]. by repeat split.
  - destruct (status_code resp =? 200).
    + unfold response_json. cbn [requests_ge_2_27].
      destruct (body resp) as [j|].
      * exists []. cbn [fst snd trace clock]. by repeat split.
      * destruct (requests_ge_2_27 w) eqn:Hrequests; cbn [is_RequestException].
        -- exists []. cbn [fst snd trace clock]. by repeat split.
        -- exists []. cbn [fst snd trace clock].
           split; [done |]. split; [done |]. split; [done |]. by intros e [= <-].
    + rewrite run_print. exists [Print (ErrorGeneratingMusic (status_code resp))].
      cbn [fst snd trace clock record mret M_ret]. rewrite <- app_assoc.
      split; [reflexivity |]. split; [by repeat constructor |]. by split.
  - exists []. cbn [fst snd trace clock]. by repeat split.
Qed.

(** ** The record of the video task *)

(** X27.  The first thing that the video poller does is to record the task
    id in [last_mp4_task_id.txt], before any status check. *)
Theorem mp4_task_id_persisted_first task_id output_path max_checks check_interval w :
  exists evs,
    trace (monitor_and_download_mp4 task_id output_path max_checks check_interval w).2
    = trace w ++ Write "last_mp4_task_id.txt" task_id :: evs.
Proof.
  unfold monitor_and_download_mp4. rewrite run_write_file.
  destruct (emits_mp4_rounds None ltac:(done) (Z.to_nat max_checks) task_id output_path 0
              max_checks check_interval (write_file "last_mp4_task_id.txt" task_id w).2)
    as (evs & Htr & _).
  exists evs. rewrite Htr, trace_write_file. by rewrite <- app_assoc.
Qed.
